(** * VineMatch: the Wine Enthusiast Playwright scraper

    A shallow embedding of [src/VineMatch/providers/scrapers/we_playwright.py]
    and the properties its specification states about it.

    Layout:
    - [PyStr]    Python [str] values as lists of code points, with the
                 string methods the scraper calls;
    - [Url]      [_build_search_url];
    - [Detail]   the pure part of [fetch_detail]: region derivation and
                 [_strip_label];
    - [Effects]  the outside world (browser, clock, random source, files)
                 as an explicit state with an oracle, and an error/state
                 monad over it;
    - [Scraper]  [_handle_challenge], [collect_links], [fetch_detail] and
                 [scrape_details_from_csv];
    - [Strict]   the batch runner on a frame with its row labels, and the
                 challenge handler with a page inspection that can fail
                 and with the overflows of [datetime] and [time.sleep];
    - [Vocabulary], [Coverage], [Conditions] the predicates and example
                 worlds the statements use;
    - the lemmas and theorems.

    Conventions of the model. Durations and clock readings are whole
    microseconds. An exception is an instance of [Exception]; interrupts
    of the process are not modelled. The browser engine, the random source
    and the lag of sleeps are an oracle: what the k-th interaction with the
    outside answers. Launching and closing a session, turning the mouse
    wheel and writing a file are recorded as events and do not fail: the
    statements about them describe runs in which the engine and the file
    system do their part. In [Scraper] the rows of the links frame are
    numbered by position and the page inspection answers; [Strict] lifts
    both. *)

From Stdlib Require Import String Ascii DecimalString.
From Stdlib Require Import List ZArith NArith Lia Bool.
From Stdlib Require DecimalZ DecimalPos.
Import ListNotations.

Open Scope Z_scope.

(* ===================================================================== *)
(** ** Python strings *)
(* ===================================================================== *)

Module PyStr.

(** A Python [str] is a sequence of Unicode code points. *)
Definition char := N.
Definition str := list char.

(** ASCII literals of the source. *)
Definition py (s : string) : str :=
  map N_of_ascii (list_ascii_of_string s).
Arguments py s%_string.

Definition str_eq_dec : forall a b : str, {a = b} + {a <> b} :=
  list_eq_dec N.eq_dec.

Definition str_eqb (a b : str) : bool :=
  if str_eq_dec a b then true else false.

(** Truthiness of a [str]: the empty string is falsy. *)
Definition truthy (s : str) : bool :=
  match s with [] => false | _ :: _ => true end.

(** [str.isspace] on one code point: the Unicode White_Space set that
    CPython's [str.strip()] removes. *)
Definition isspace (c : char) : bool :=
  ((9 <=? c) && (c <=? 13) || (28 <=? c) && (c <=? 32)
   || (c =? 133) || (c =? 160) || (c =? 5760)
   || (8192 <=? c) && (c <=? 8202)
   || (c =? 8232) || (c =? 8233) || (c =? 8239) || (c =? 8287)
   || (c =? 12288))%N.

Fixpoint lstrip (s : str) : str :=
  match s with
  | [] => []
  | c :: t => if isspace c then lstrip t else s
  end.

Definition rstrip (s : str) : str := rev (lstrip (rev s)).

(** [s.strip()] *)
Definition strip (s : str) : str := rstrip (lstrip s).

(** [s.startswith(p)] *)
Fixpoint startswith (s p : str) {struct p} : bool :=
  match p, s with
  | [], _ => true
  | _ :: _, [] => false
  | a :: p', b :: s' => N.eqb a b && startswith s' p'
  end.

(** [sub in s] *)
Fixpoint contains (sub s : str) : bool :=
  startswith s sub
  || match s with
     | [] => false
     | _ :: s' => contains sub s'
     end.

(** [s.replace(old, new, 1)]: the leftmost occurrence of [old] is
    replaced; an empty [old] matches at position 0. *)
Fixpoint replace_first (old new s : str) : str :=
  if startswith s old then new ++ skipn (length old) s
  else match s with
       | [] => []
       | c :: s' => c :: replace_first old new s'
       end.

(** [sep.join(parts)] *)
Fixpoint join (sep : str) (parts : list str) : str :=
  match parts with
  | [] => []
  | [p] => p
  | p :: rest => p ++ sep ++ join sep rest
  end.

(** [f"{n}"] for an [int]: decimal digits, with a leading minus sign for
    negative numbers. *)
Definition format_int (n : Z) : str :=
  py (NilZero.string_of_int (Z.to_int n)).

(** The idiom [fetch_detail] applies to every [text_content()] result:
    a missing text counts as empty, the text is stripped, and an empty
    outcome becomes [None]. *)
Definition strip_or_none (text : option str) : option str :=
  match strip (match text with Some t => t | None => [] end) with
  | [] => None
  | t => Some t
  end.

(** [a != b] between two values that are each a [str] or [None]. *)
Definition opt_str_eqb (a b : option str) : bool :=
  match a, b with
  | Some x, Some y => str_eqb x y
  | None, None => true
  | _, _ => false
  end.

(** [x in l] for a list of [str]. *)
Definition str_in (x : str) (l : list str) : bool :=
  existsb (str_eqb x) l.

End PyStr.
Import PyStr.
Arguments py s%_string.

(* ===================================================================== *)
(** ** The URL builder *)
(* ===================================================================== *)

Module Url.

Definition _BASE : str := py "https://www.wineenthusiast.com/".

(** The local list [params] of [_build_search_url] when it is joined.
    [if style:] holds for a non-empty string, [if year:] for a non-zero
    integer. *)
Definition search_params
    (page : Z) (style : option str) (year : option Z) : list str :=
  let params :=
    [py "?s="; py "search_type=ratings"; py "page=" ++ format_int page;
     py "drink_type=wine"] in
  let params :=
    match style with
    | Some s => if truthy s then params ++ [py "wine_style=" ++ s]
                else params
    | None => params
    end in
  match year with
  | Some y => if negb (y =? 0) then
                params ++ [py "pub_date=%253A" ++ format_int y]
              else params
  | None => params
  end.

Definition _build_search_url
    (page : Z) (style : option str) (year : option Z) : str :=
  _BASE ++ join (py "&") (search_params page style year).

End Url.
Import Url.

(* ===================================================================== *)
(** ** The pure part of the detail extractor *)
(* ===================================================================== *)

Module Detail.

(** [l[-k]] for [k >= 1]; [None] stands for [IndexError]. *)
Definition neg_index {A} (l : list A) (k : nat) : option A :=
  if (k <=? length l)%nat then nth_error l (length l - k) else None.

(** [region_list]: the breadcrumb texts, trimmed, empty ones dropped. *)
Definition region_list_of (elems : list (option str)) : list str :=
  filter truthy
    (map (fun e => strip (match e with Some t => t | None => [] end))
         elems).

(** [region_list[-1] if region_list else None] *)
Definition country_of (region_list : list str) : option str :=
  match region_list with
  | [] => None
  | _ :: _ => neg_index region_list 1
  end.

(** [region_value if region_value and region_value in region_list
    else None] *)
Definition region_1_of
    (region_list : list str) (region_value : option str) : option str :=
  match region_value with
  | Some v => if truthy v && str_in v region_list then Some v else None
  | None => None
  end.

(** [region_list[-k] if len(region_list) > k - 1 and
    region_list[-k] != region_value else None], for k = 2 and k = 3. *)
Definition region_from_end
    (k : nat) (region_list : list str) (region_value : option str)
  : option str :=
  if (k - 1 <? length region_list)%nat then
    match neg_index region_list k with
    | Some x =>
        if negb (opt_str_eqb (Some x) region_value) then Some x else None
    | None => None
    end
  else None.

Definition region_2_of := region_from_end 2.
Definition region_3_of := region_from_end 3.

Record regions : Type := mk_regions {
  country : option str;
  region_1 : option str;
  region_2 : option str;
  region_3 : option str
}.

(** The region part of [fetch_detail], from the raw [text_content()]
    results of the breadcrumb links and of the primary-region link. *)
Definition derive_regions
    (region_elems : list (option str)) (value_text : option str)
  : regions :=
  let region_list := region_list_of region_elems in
  let region_value := strip_or_none value_text in
  {| country := country_of region_list;
     region_1 := region_1_of region_list region_value;
     region_2 := region_2_of region_list region_value;
     region_3 := region_3_of region_list region_value |}.

(** The nested helper [_strip_label]. *)
Definition _strip_label (text : option str) (label : str) : option str :=
  match text with
  | None => None
  | Some t =>
      if negb (truthy t) then None
      else if startswith t label then
        Some (strip (replace_first (label ++ []) [] t))
      else Some (strip t)
  end.

End Detail.
Import Detail.

(* ===================================================================== *)
(** ** The outside world *)
(* ===================================================================== *)

Module Effects.

(** Exceptions (all of them instances of [Exception]); [exn_str] is
    [str(exc)]. *)
Inductive exn : Type :=
| PlaywrightTimeoutError (msg : str)
| PlaywrightError (msg : str)
| ValueError (msg : str)
| ZeroDivisionError (msg : str)
| OverflowError (msg : str)
| TypeError (msg : str).

Definition exn_str (e : exn) : str :=
  match e with
  | PlaywrightTimeoutError m | PlaywrightError m
  | ValueError m | ZeroDivisionError m | OverflowError m
  | TypeError m => m
  end.

(** Values found in a dict or in a DataFrame cell. *)
Inductive pyval : Type :=
| VNone
| VStr (s : str)
| VNaN
| VInt (n : Z)
| VBool (b : bool).

(** [str(v)] *)
Definition py_str (v : pyval) : str :=
  match v with
  | VNone => py "None"
  | VStr s => s
  | VNaN => py "nan"
  | VInt n => format_int n
  | VBool true => py "True"
  | VBool false => py "False"
  end.

(** A dict with [str] keys, in insertion order. *)
Definition dict := list (str * pyval).

Fixpoint dict_get (d : dict) (k : str) : option pyval :=
  match d with
  | [] => None
  | (k', v) :: d' => if str_eqb k k' then Some v else dict_get d' k
  end.

(** A DataFrame with the default integer index: column labels and one
    list of cells per row, aligned with the columns. The cells are texts,
    missing values, integers and booleans; a float other than NaN is not
    among them, so an integer cell stands for a cell of a frame without
    float column ([iterrows] hands the integers of a frame of numbers
    with a float column to the loop as floats). *)
Record frame : Type := mk_frame {
  columns : list str;
  data : list (list pyval)
}.

Fixpoint index_of (c : str) (cols : list str) : option nat :=
  match cols with
  | [] => None
  | c' :: cols' =>
      if str_eqb c c' then Some O else option_map S (index_of c cols')
  end.

(** [r.get(c)] on a row of a frame: [None] when there is no such
    column. *)
Definition row_get (cols : list str) (r : list pyval) (c : str)
  : option pyval :=
  match index_of c cols with
  | Some i => Some (nth i r VNaN)
  | None => None
  end.

(** [pd.DataFrame(rows)] for a list of dicts: the columns are the keys in
    order of first appearance, a key a row lacks gives NaN. A [None] is
    kept as it is; in a column without any text pandas shows it as NaN
    once a row lacks the key. Both are missing values, and both are an
    empty field in the CSV written. *)
Fixpoint add_keys (cols : list str) (d : dict) : list str :=
  match d with
  | [] => cols
  | (k, _) :: d' =>
      add_keys (if str_in k cols then cols else cols ++ [k]) d'
  end.

Definition pd_DataFrame (rows : list dict) : frame :=
  let cols := fold_left add_keys rows [] in
  {| columns := cols;
     data := map (fun d =>
               map (fun c => match dict_get d c with
                             | Some v => v
                             | None => VNaN
                             end) cols) rows |}.

(** One row of the links table. *)
Record LinkRecord : Type := mk_link {
  link_name : str;   (* "Wine Name" *)
  link_url : str     (* "URL" *)
}.

Inductive csv : Type :=
| LinksCsv (rows : list LinkRecord)
| DetailsCsv (f : frame).

(** What the program does to the outside, in order. Durations are in
    microseconds. *)
Inductive event : Type :=
| EvMkdir (dir : str)
| EvMkdirParentOf (file : str)
| EvLaunchPersistent (dir : str) (width height : Z)
| EvLaunchEphemeral (width height : Z)
| EvGoto (url : str)
| EvWheel (dy : Z)
| EvSleep (us : Z)
| EvPrint (msg : str)
| EvSaveState (path : str)
| EvContextClose
| EvBrowserClose
| EvToCsv (path : str) (content : csv).

(** The state of the world. The [o_] fields are the oracle: what the
    k-th interaction with the outside answers; they never change.
    [tick] counts the interactions so far, [clock] is the UTC time in
    microseconds since 0001-01-01 00:00:00 (the least [datetime]),
    [trace] the events so far, oldest first. *)
Record world : Type := mk_world {
  o_challenge : nat -> bool;
  o_random : nat -> N;
  o_lag : nat -> N;
  o_goto : nat -> str -> option exn;
  o_wait : nat -> str -> option exn;
  o_text : nat -> str -> exn + option str;
  o_all_text : nat -> str -> exn + list (option str);
  o_anchors : nat -> str -> exn + list (option str * option str);
  tick : nat;
  clock : Z;
  trace : list event
}.

Definition with_state (w : world) (t : nat) (c : Z) (tr : list event)
  : world :=
  {| o_challenge := o_challenge w; o_random := o_random w;
     o_lag := o_lag w; o_goto := o_goto w; o_wait := o_wait w;
     o_text := o_text w; o_all_text := o_all_text w;
     o_anchors := o_anchors w;
     tick := t; clock := c; trace := tr |}.

Definition next (w : world) : world :=
  with_state w (S (tick w)) (clock w) (trace w).

Definition emit (e : event) (w : world) : world :=
  with_state w (tick w) (clock w) (trace w ++ [e]).

(** A computation returns, raises, or -- for the one loop whose exit
    depends on the clock -- runs out of fuel. *)
Inductive result (A : Type) : Type :=
| Ok (a : A)
| Raise (e : exn)
| Diverge.
Arguments Ok {A} a.
Arguments Raise {A} e.
Arguments Diverge {A}.

Definition M (A : Type) : Type := world -> result A * world.

Definition ret {A} (a : A) : M A := fun w => (Ok a, w).

Definition raise {A} (e : exn) : M A := fun w => (Raise e, w).

Definition bind {A B} (m : M A) (f : A -> M B) : M B :=
  fun w =>
    match m w with
    | (Ok a, w') => f a w'
    | (Raise e, w') => (Raise e, w')
    | (Diverge, w') => (Diverge, w')
    end.

Definition log (e : event) : M unit := fun w => (Ok tt, emit e w).

(** [try: body finally: fin] *)
Definition try_finally {A} (body : M A) (fin : M unit) : M A :=
  fun w =>
    match body w with
    | (Diverge, w') => (Diverge, w')
    | (r, w') =>
        match fin w' with
        | (Ok _, w'') => (r, w'')
        | (Raise e, w'') => (Raise e, w'')
        | (Diverge, w'') => (Diverge, w'')
        end
    end.

(** [try: body except PlaywrightTimeoutError: ...]: [None] when the
    timeout was caught. *)
Definition catch_timeout {A} (body : M A) : M (option A) :=
  fun w =>
    match body w with
    | (Ok a, w') => (Ok (Some a), w')
    | (Raise (PlaywrightTimeoutError _), w') => (Ok None, w')
    | (Raise e, w') => (Raise e, w')
    | (Diverge, w') => (Diverge, w')
    end.

(** [try: body except Exception as exc: ...] *)
Definition catch_exception {A} (body : M A) : M (A + exn) :=
  fun w =>
    match body w with
    | (Ok a, w') => (Ok (inl a), w')
    | (Raise e, w') => (Ok (inr e), w')
    | (Diverge, w') => (Diverge, w')
    end.

(** [for x in xs: acc = body(x, acc)] *)
Fixpoint for_each {X S} (xs : list X) (body : X -> S -> M S) (acc : S)
  : M S :=
  match xs with
  | [] => ret acc
  | x :: xs' => bind (body x acc) (for_each xs' body)
  end.

End Effects.
Import Effects.

Declare Scope monad_scope.
Delimit Scope monad_scope with monad.
Notation "x <- m ;; k" := (bind m (fun x => k))
  (at level 61, m at next level, right associativity) : monad_scope.
Notation "m ;; k" := (bind m (fun _ => k))
  (at level 61, right associativity) : monad_scope.
Open Scope monad_scope.

(* ===================================================================== *)
(** ** The scraper *)
(* ===================================================================== *)

Module Scraper.

Record BrowserConfig : Type := mk_config {
  headless : bool;
  user_data_dir : option str;
  use_chrome_channel : bool;
  storage_state_path : option str;
  user_agent : str;
  locale : str;
  timezone_id : str;
  viewport_min : Z * Z;
  viewport_max : Z * Z;
  manual_challenge : bool;
  challenge_timeout_s : Z;
  cooldown_range_s : Z * Z
}.

Definition _DEFAULT_UA : str :=
  py "Mozilla/5.0 (Windows NT 10.0; Win64; x64) AppleWebKit/537.36 (KHTML, like Gecko) Chrome/124.0 Safari/537.36".

Definition default_config : BrowserConfig :=
  {| headless := false;
     user_data_dir := Some (py ".we_profile");
     use_chrome_channel := true;
     storage_state_path := None;
     user_agent := _DEFAULT_UA;
     locale := py "en-US";
     timezone_id := py "America/Los_Angeles";
     viewport_min := (1200, 750);
     viewport_max := (1600, 1000);
     manual_challenge := true;
     challenge_timeout_s := 180;
     cooldown_range_s := (12, 22) |}.

(** [if x:] for an optional string. *)
Definition truthy_path (p : option str) : option str :=
  match p with
  | Some s => if truthy s then Some s else None
  | None => None
  end.

Definition seconds (n : Z) : Z := n * 1000000.

(** *** Library calls *)

(** [random.randint(a, b)] *)
Definition randint (a b : Z) : M Z :=
  fun w =>
    if b <? a then
      (Raise (ValueError (py "empty range in randrange("
                            ++ format_int a ++ py ", "
                            ++ format_int (b + 1) ++ py ")")), w)
    else
      (Ok (a + Z.of_N (o_random w (tick w)) mod (b - a + 1)), next w).

(** [random() * span] for a duration [span]: a value in [0, span). *)
Definition random_times (span : Z) : M Z :=
  fun w =>
    (Ok (if span <=? 0 then 0
         else Z.of_N (o_random w (tick w)) mod span), next w).

(** [time.sleep]: at least the requested time passes. *)
Definition sleep (us : Z) : M unit :=
  fun w =>
    if us <? 0 then
      (Raise (ValueError (py "sleep length must be non-negative")), w)
    else
      (Ok tt,
       with_state w (S (tick w))
         (clock w + us + Z.of_N (o_lag w (tick w)))
         (trace w ++ [EvSleep us])).

(** [datetime.utcnow()] *)
Definition utcnow : M Z := fun w => (Ok (clock w), w).

(** [page.goto(url, wait_until="domcontentloaded")] *)
Definition page_goto (url : str) : M unit :=
  fun w =>
    let w' := next (emit (EvGoto url) w) in
    match o_goto w (tick w) url with
    | Some e => (Raise e, w')
    | None => (Ok tt, w')
    end.

(** [page.wait_for_selector(sel, timeout=...)] *)
Definition wait_for_selector (sel : str) (timeout_ms : Z) : M unit :=
  fun w =>
    match o_wait w (tick w) sel with
    | Some e => (Raise e, next w)
    | None => (Ok tt, next w)
    end.

Definition of_sum {A} (r : exn + A) : result A :=
  match r with
  | inl e => Raise e
  | inr a => Ok a
  end.

(** [page.locator(sel).first.text_content()] *)
Definition text_content_first (sel : str) : M (option str) :=
  fun w => (of_sum (o_text w (tick w) sel), next w).

(** [[e.text_content() for e in page.locator(sel).all()]] *)
Definition all_text_content (sel : str) : M (list (option str)) :=
  fun w => (of_sum (o_all_text w (tick w) sel), next w).

(** [[(a.text_content(), a.get_attribute("href"))
     for a in page.locator(sel).all()]] *)
Definition all_anchors (sel : str)
  : M (list (option str * option str)) :=
  fun w => (of_sum (o_anchors w (tick w) sel), next w).

(** *** Pacing *)

Definition _human_pause (a b : Z) : M unit :=
  let '(lo, hi) := if a <=? b then (a, b) else (b, a) in
  r <- random_times (hi - lo) ;;
  sleep (lo + r).

Definition _viewport (cfg : BrowserConfig) : M (Z * Z) :=
  w <- randint (fst (viewport_min cfg)) (fst (viewport_max cfg)) ;;
  h <- randint (snd (viewport_min cfg)) (snd (viewport_max cfg)) ;;
  ret (w, h).

Definition _incremental_scroll (steps : nat) : M unit :=
  for_each (seq 0 steps)
    (fun _ _ =>
       dy <- randint 400 900 ;;
       log (EvWheel dy) ;;
       _human_pause 200000 600000)
    tt.

(** *** Challenge handling *)

(** The page inspection is the engine's; its outcome is the oracle's. *)
Definition _looks_like_challenge : M bool :=
  fun w => (Ok (o_challenge w (tick w)), next w).

Inductive poll_end : Type :=
| Cleared          (* the [return] inside the loop *)
| DeadlinePassed.  (* the loop test failed *)

(** The [while datetime.utcnow() < deadline] loop. *)
Fixpoint poll (fuel : nat) (deadline : Z) : M poll_end :=
  match fuel with
  | O => fun w => (Diverge, w)
  | S fuel' =>
      now <- utcnow ;;
      if now <? deadline then
        _human_pause 1000000 2000000 ;;
        c <- _looks_like_challenge ;;
        if negb c then ret Cleared else poll fuel' deadline
      else ret DeadlinePassed
  end.

Definition prompt_msg : str :=
  py "Challenge detected. Solve it in the visible browser window.".

Definition cooldown_msg (wait_s : Z) : str :=
  py "Cooling down for " ++ format_int wait_s
     ++ py "s due to challenge...".

Definition cooldown (cfg : BrowserConfig) : M unit :=
  wait_s <- randint (fst (cooldown_range_s cfg))
                    (snd (cooldown_range_s cfg)) ;;
  log (EvPrint (cooldown_msg wait_s)) ;;
  sleep (seconds wait_s).

Definition _handle_challenge_fuel (fuel : nat) (cfg : BrowserConfig)
  : M unit :=
  c <- _looks_like_challenge ;;
  if negb c then ret tt
  else
    now <- utcnow ;;
    let deadline := now + seconds (challenge_timeout_s cfg) in
    if manual_challenge cfg then
      log (EvPrint prompt_msg) ;;
      e <- poll fuel deadline ;;
      match e with
      | Cleared => ret tt
      | DeadlinePassed => cooldown cfg
      end
    else cooldown cfg.

(** Every pass of the loop takes at least a second, so one more pass
    than the timeout has seconds is enough fuel (see [poll_from_timeout]). *)
Definition _handle_challenge (cfg : BrowserConfig) : M unit :=
  _handle_challenge_fuel (S (Z.to_nat (challenge_timeout_s cfg))) cfg.

(** *** Sessions *)

(** [_new_context]: the result says whether a browser handle is owned
    ([False] in persistent-profile mode). *)
Definition _new_context (cfg : BrowserConfig) : M bool :=
  vp <- _viewport cfg ;;
  match truthy_path (user_data_dir cfg) with
  | Some pdir =>
      log (EvMkdir pdir) ;;
      log (EvLaunchPersistent pdir (fst vp) (snd vp)) ;;
      ret false
  | None =>
      log (EvLaunchEphemeral (fst vp) (snd vp)) ;;
      ret true
  end.

Definition _save_state (cfg : BrowserConfig) : M unit :=
  match truthy_path (storage_state_path cfg) with
  | Some p => log (EvSaveState p)
  | None => ret tt
  end.

Definition close_session (has_browser : bool) : M unit :=
  log EvContextClose ;;
  if has_browser then log EvBrowserClose else ret tt.


(** *** Link collection *)

Definition listing_sel : str :=
  py ".ratings-block__info h3.info__title a".

(** The [for a in anchors] loop. *)
Definition anchor_rows
    (anchors : list (option str * option str)) (rows : list LinkRecord)
  : list LinkRecord :=
  fold_left
    (fun rows a =>
       let name := strip (match fst a with Some t => t | None => [] end) in
       match snd a with
       | Some href =>
           if truthy name && truthy href
           then rows ++ [mk_link name href] else rows
       | None => rows
       end)
    anchors rows.

(** The body of the innermost loop, for one listing page. *)
Definition visit_listing_page
    (cfg : BrowserConfig) (sty : option str) (yr : option Z) (pg : Z)
    (rows : list LinkRecord) : M (list LinkRecord) :=
  let url := _build_search_url pg sty yr in
  page_goto url ;;
  _handle_challenge cfg ;;
  _human_pause 400000 900000 ;;
  _incremental_scroll 3 ;;
  found <- catch_timeout (wait_for_selector listing_sel 10000) ;;
  match found with
  | None => ret rows
  | Some _ =>
      anchors <- all_anchors listing_sel ;;
      let rows := anchor_rows anchors rows in
      _human_pause 600000 1400000 ;;
      ret rows
  end.

(** [range(1, max_pages + 1)] *)
Definition page_range (max_pages : Z) : list Z :=
  map Z.of_nat (seq 1 (Z.to_nat max_pages)).

(** [list(xs) if xs else [None]] *)
Definition or_sentinel {A} (xs : option (list A)) : list (option A) :=
  match xs with
  | Some (x :: l) => map Some (x :: l)
  | _ => [None]
  end.

(** [df.drop_duplicates(subset=["URL"])]: the first row of every URL
    stays. *)
Fixpoint drop_dups (seen : list str) (rows : list LinkRecord)
  : list LinkRecord :=
  match rows with
  | [] => []
  | r :: rest =>
      if str_in (link_url r) seen then drop_dups seen rest
      else r :: drop_dups (link_url r :: seen) rest
  end.

Definition drop_duplicates_URL (rows : list LinkRecord)
  : list LinkRecord :=
  drop_dups [] rows.

(** What [collect_links] does with the gathered rows before it writes
    and returns them. *)
Definition dedup_links (rows : list LinkRecord) : list LinkRecord :=
  match rows with
  | [] => rows
  | _ :: _ => drop_duplicates_URL rows
  end.

Definition write_csv (path : str) (content : csv) : M unit :=
  log (EvMkdirParentOf path) ;;
  log (EvToCsv path content).

Definition gather_links
    (cfg : BrowserConfig) (max_pages : Z)
    (styles : option (list str)) (years : option (list Z))
  : M (list LinkRecord) :=
  for_each (or_sentinel styles)
    (fun sty =>
       for_each (or_sentinel years)
         (fun yr =>
            for_each (page_range max_pages)
              (visit_listing_page cfg sty yr)))
    [].

Definition collect_links
    (cfg : BrowserConfig) (max_pages : Z)
    (styles : option (list str)) (years : option (list Z))
    (out_csv : option str) : M (list LinkRecord) :=
  has_browser <- _new_context cfg ;;
  rows <- try_finally
            (rows <- gather_links cfg max_pages styles years ;;
             _save_state cfg ;;
             ret rows)
            (close_session has_browser) ;;
  let df := dedup_links rows in
  match truthy_path out_csv with
  | Some p => write_csv p (LinksCsv df)
  | None => ret tt
  end ;;
  ret df.

(** *** Detail extraction *)

Definition region_elems_sel : str :=
  py "xpath=//*[@id=" ++ [34%N] ++ py "single-page" ++ [34%N]
     ++ py "]/header/div/div/div/div/div[2]/span[2]/a".

Definition opt_val (o : option str) : pyval :=
  match o with
  | Some s => VStr s
  | None => VNone
  end.

Definition fetch_detail (cfg : BrowserConfig) (url : str) : M dict :=
  has_browser <- _new_context cfg ;;
  try_finally
    (page_goto url ;;
     _handle_challenge cfg ;;
     wait_for_selector (py ".review-title") 15000 ;;
     t <- text_content_first (py ".review-title") ;;
     let title := strip_or_none t in
     region_elems <- all_text_content region_elems_sel ;;
     v <- text_content_first (py "div.region .value a") ;;
     let rg := derive_regions region_elems v in
     sc <- text_content_first (py ".score") ;;
     let score := _strip_label (strip_or_none sc) (py "RATING") in
     pr <- text_content_first (py ".price") ;;
     let price := _strip_label (strip_or_none pr) (py "PRICE") in
     wi <- text_content_first (py "div.winery .value a") ;;
     let winery := strip_or_none wi in
     va <- text_content_first (py "div.variety .value a") ;;
     let variety := strip_or_none va in
     wt <- text_content_first (py "div.wine-type .value a") ;;
     let wine_type := strip_or_none wt in
     ret [(py "Wine Name", opt_val title);
          (py "Region 1", opt_val (region_1 rg));
          (py "Region 2", opt_val (region_2 rg));
          (py "Region 3", opt_val (region_3 rg));
          (py "Country", opt_val (country rg));
          (py "Score", opt_val score);
          (py "Price", opt_val price);
          (py "Winery", opt_val winery);
          (py "Variety", opt_val variety);
          (py "Wine Type", opt_val wine_type);
          (py "URL", VStr url)])
    (_save_state cfg ;; close_session has_browser).

(** *** The batch runner *)

(** The URL of a row: [str(r["URL"])] when the frame has a column
    [URL], otherwise [str] of [r.get("url", default)] with the empty
    string as default. *)
Definition row_url (cols : list str) (r : list pyval) : str :=
  match row_get cols r (py "URL") with
  | Some v => py_str v
  | None =>
      match row_get cols r (py "url") with
      | Some v => py_str v
      | None => []
      end
  end.

Definition error_row (url : str) (exc : exn) : dict :=
  [(py "URL", VStr url); (py "error", VStr (exn_str exc))].

(** [if out_csv and (i + 1) % checkpoint_every == 0: ...] *)
Definition checkpoint
    (out_csv : option str) (checkpoint_every i : Z) (rows : list dict)
  : M unit :=
  match truthy_path out_csv with
  | Some p =>
      if checkpoint_every =? 0 then
        raise (ZeroDivisionError (py "integer modulo by zero"))
      else if (i + 1) mod checkpoint_every =? 0 then
        write_csv p (DetailsCsv (pd_DataFrame rows))
      else ret tt
  | None => ret tt
  end.

(** The body of the loop over [df_links.iterrows()]. *)
Definition process_row
    (cfg : BrowserConfig) (cols : list str) (out_csv : option str)
    (checkpoint_every : Z) (ir : Z * list pyval) (rows : list dict)
  : M (list dict) :=
  let url := row_url cols (snd ir) in
  if negb (truthy url) then ret rows
  else
    res <- catch_exception (fetch_detail cfg url) ;;
    let rows :=
      match res with
      | inl rec => rows ++ [rec]
      | inr exc => rows ++ [error_row url exc]
      end in
    checkpoint out_csv checkpoint_every (fst ir) rows ;;
    ret rows.

(** [df_links.iterrows()] *)
Definition iterrows (df : frame) : list (Z * list pyval) :=
  combine (map Z.of_nat (seq 0 (length (data df)))) (data df).

Definition scrape_rows
    (cfg : BrowserConfig) (df_links : frame) (out_csv : option str)
    (checkpoint_every : Z) : M (list dict) :=
  for_each (iterrows df_links)
    (process_row cfg (columns df_links) out_csv checkpoint_every) [].

(** [df_links] is what [pd.read_csv(links_csv)] returned. *)
Definition scrape_details_from_csv
    (cfg : BrowserConfig) (df_links : frame) (out_csv : option str)
    (checkpoint_every : Z) : M frame :=
  rows <- scrape_rows cfg df_links out_csv checkpoint_every ;;
  let result := pd_DataFrame rows in
  match truthy_path out_csv with
  | Some p => write_csv p (DetailsCsv result)
  | None => ret tt
  end ;;
  ret result.

End Scraper.
Import Scraper.

(* ===================================================================== *)
(** ** Labels, failing inspections and overflow *)
(* ===================================================================== *)

Module Strict.

(** The batch runner and the challenge handler once more, with what the
    functions above leave out: the row labels of the links frame, a page
    inspection that fails, and durations beyond what [datetime] and
    [time.sleep] accept. Each function is named after the one it
    refines, and agrees with it where the labels are 0, 1, 2, ..., no
    inspection fails and the durations are in range. *)

(** *** Row labels *)

(** The label that [iterrows] gives with a row. [pd.read_csv] labels the
    rows 0, 1, 2, ... unless the data lines have more fields than the
    header, in which case the leading fields become the labels. The only
    thing the batch runner does with a label is the checkpoint test, so a
    label that is not an integer (a float, a string, a tuple) is given by
    what that test does with it: it raises, or it answers. *)
Inductive label : Type :=
| LInt (i : Z)
| LOther (test : Z -> exn + bool).

(** [(i + 1) % checkpoint_every == 0] *)
Definition checkpoint_due (i : label) (checkpoint_every : Z)
  : exn + bool :=
  match i with
  | LInt n =>
      if checkpoint_every =? 0 then
        inl (ZeroDivisionError (py "integer modulo by zero"))
      else inr ((n + 1) mod checkpoint_every =? 0)
  | LOther test => test checkpoint_every
  end.

(** What [pd.read_csv] returns: the column labels and the rows, each
    with its label. *)
Record read_frame : Type := mk_read_frame {
  read_columns : list str;
  read_rows : list (label * list pyval)
}.

Definition labels (df : read_frame) : list label :=
  map fst (read_rows df).

(** The cells of the frame, without the labels. *)
Definition cells (df : read_frame) : frame :=
  {| columns := read_columns df; data := map snd (read_rows df) |}.

(** [RangeIndex(n)]: the labels 0, ..., n - 1. *)
Definition RangeIndex (n : nat) : list label :=
  map (fun k => LInt (Z.of_nat k)) (seq 0 n).

(** A frame with the labels [pd.read_csv] gives when no data line is
    longer than the header. *)
Definition with_RangeIndex (f : frame) : read_frame :=
  {| read_columns := columns f;
     read_rows := combine (RangeIndex (length (data f))) (data f) |}.

(** [if out_csv and (i + 1) % checkpoint_every == 0: ...] *)
Definition checkpoint_labelled
    (out_csv : option str) (checkpoint_every : Z) (i : label)
    (rows : list dict) : M unit :=
  match truthy_path out_csv with
  | Some p =>
      match checkpoint_due i checkpoint_every with
      | inl e => raise e
      | inr true => write_csv p (DetailsCsv (pd_DataFrame rows))
      | inr false => ret tt
      end
  | None => ret tt
  end.

(** The body of the loop over [df_links.iterrows()]. *)
Definition process_row_labelled
    (cfg : BrowserConfig) (cols : list str) (out_csv : option str)
    (checkpoint_every : Z) (ir : label * list pyval) (rows : list dict)
  : M (list dict) :=
  let url := row_url cols (snd ir) in
  if negb (truthy url) then ret rows
  else
    res <- catch_exception (fetch_detail cfg url) ;;
    let rows :=
      match res with
      | inl rec => rows ++ [rec]
      | inr exc => rows ++ [error_row url exc]
      end in
    checkpoint_labelled out_csv checkpoint_every (fst ir) rows ;;
    ret rows.

(** [df_links.iterrows()] *)
Definition iterrows_labelled (df : read_frame)
  : list (label * list pyval) :=
  read_rows df.

Definition scrape_rows_labelled
    (cfg : BrowserConfig) (df_links : read_frame) (out_csv : option str)
    (checkpoint_every : Z) : M (list dict) :=
  for_each (iterrows_labelled df_links)
    (process_row_labelled cfg (read_columns df_links) out_csv
       checkpoint_every)
    [].

(** [df_links] is what [pd.read_csv(links_csv)] returned. *)
Definition scrape_details_from_csv_labelled
    (cfg : BrowserConfig) (df_links : read_frame) (out_csv : option str)
    (checkpoint_every : Z) : M frame :=
  rows <- scrape_rows_labelled cfg df_links out_csv checkpoint_every ;;
  let result := pd_DataFrame rows in
  match truthy_path out_csv with
  | Some p => write_csv p (DetailsCsv result)
  | None => ret tt
  end ;;
  ret result.

(** *** The challenge handler *)

(** The inspection reads the page (the text of its body, the number of
    challenge frames), which can fail as any reading of the page can: the
    oracle's answer to the reading of [body] says whether it does. When
    it does not, the verdict on what was read is the oracle's. *)
Definition _looks_like_challenge_checked : M bool :=
  fun w =>
    match o_text w (tick w) (py "body") with
    | inl e => (Raise e, next w)
    | inr _ => (Ok (o_challenge w (tick w)), next w)
    end.

(** The greatest [datetime], 9999-12-31 23:59:59.999999, in microseconds
    since the least. *)
Definition datetime_max : Z := 3652059 * 86400 * 1000000 - 1.

(** [timedelta(seconds=s)], in microseconds: a [timedelta] has at most
    999999999 days, either way. *)
Definition timedelta_seconds (s : Z) : M Z :=
  fun w =>
    if (s / 86400 <? -999999999) || (999999999 <? s / 86400) then
      (Raise (OverflowError (py "days=" ++ format_int (s / 86400)
                               ++ py "; must have magnitude <= 999999999")),
       w)
    else (Ok (seconds s), w).

(** [now + delta] for a [datetime] and a [timedelta] *)
Definition datetime_add (now delta : Z) : M Z :=
  fun w =>
    if (now + delta <? 0) || (datetime_max <? now + delta) then
      (Raise (OverflowError (py "date value out of range")), w)
    else (Ok (now + delta), w).

(** The longest sleep, in seconds: [time.sleep] holds the duration in
    nanoseconds in 64 bits. *)
Definition sleep_max : Z := 9223372036.

(** [time.sleep] *)
Definition sleep_checked (us : Z) : M unit :=
  fun w =>
    if (us <? - seconds sleep_max) || (seconds sleep_max <? us) then
      (Raise (OverflowError
                (py "timestamp too large to convert to C _PyTime_t")), w)
    else Scraper.sleep us w.

(** The [while datetime.utcnow() < deadline] loop. Its pauses are of one
    to two seconds, which [time.sleep] accepts. *)
Fixpoint poll_checked (fuel : nat) (deadline : Z) : M poll_end :=
  match fuel with
  | O => fun w => (Diverge, w)
  | S fuel' =>
      now <- utcnow ;;
      if now <? deadline then
        _human_pause 1000000 2000000 ;;
        c <- _looks_like_challenge_checked ;;
        if negb c then ret Cleared else poll_checked fuel' deadline
      else ret DeadlinePassed
  end.

Definition cooldown_checked (cfg : BrowserConfig) : M unit :=
  wait_s <- randint (fst (cooldown_range_s cfg))
                    (snd (cooldown_range_s cfg)) ;;
  log (EvPrint (cooldown_msg wait_s)) ;;
  sleep_checked (seconds wait_s).

Definition _handle_challenge_fuel_checked
    (fuel : nat) (cfg : BrowserConfig) : M unit :=
  c <- _looks_like_challenge_checked ;;
  if negb c then ret tt
  else
    now <- utcnow ;;
    delta <- timedelta_seconds (challenge_timeout_s cfg) ;;
    deadline <- datetime_add now delta ;;
    if manual_challenge cfg then
      log (EvPrint prompt_msg) ;;
      e <- poll_checked fuel deadline ;;
      match e with
      | Cleared => ret tt
      | DeadlinePassed => cooldown_checked cfg
      end
    else cooldown_checked cfg.

(** One more pass of the loop than the timeout has seconds is enough
    fuel, as for the handler above. *)
Definition _handle_challenge_checked (cfg : BrowserConfig) : M unit :=
  _handle_challenge_fuel_checked
    (S (Z.to_nat (challenge_timeout_s cfg))) cfg.

End Strict.
Import Strict.

(* ===================================================================== *)
(** ** Vocabulary of the statements *)
(* ===================================================================== *)

Module Vocabulary.

(** The characters [format_int] produces: the minus sign and the ten
    digits. *)
Definition is_int_char (c : char) : bool :=
  ((c =? 45) || (48 <=? c) && (c <=? 57))%N.

(** The two optional tails of a search URL. *)
Definition style_part (style : option str) : str :=
  match style with
  | Some (c :: s) => py "&wine_style=" ++ c :: s
  | _ => []
  end.

Definition year_part (year : option Z) : str :=
  match year with
  | Some y => if y =? 0 then [] else py "&pub_date=%253A" ++ format_int y
  | None => []
  end.

(** The first record of a list that carries a given URL. *)
Definition first_with_url (u : str) (rows : list LinkRecord)
  : option LinkRecord :=
  find (fun r => str_eqb (link_url r) u) rows.

(** The oracle of a world, which no computation changes. *)
Definition oracle_of (w : world) :=
  (o_challenge w, o_random w, o_lag w, o_goto w, o_wait w, o_text w,
   o_all_text w, o_anchors w).

(** The duration a pause sleeps: a point of the window. *)
Definition pause_length (a b : Z) (raw : N) : Z :=
  a + (if b - a <=? 0 then 0 else Z.of_N raw mod (b - a)).

(** The pauses of the poll loop are between one and two seconds. *)
Definition poll_pause (d : Z) : Prop := 1000000 <= d < 2000000.

(** The [n] inspections of the page made by [n] passes of the loop
    that starts at interaction [t] all still saw the challenge. *)
Definition still_challenged (w : world) (t n : nat) : Prop :=
  forall k, (k < n)%nat -> o_challenge w (t + 3 * k + 2)%nat = true.

(** Worlds for the examples: a page whose k-th inspection answers
    [challenge k], with nothing else going wrong, at time 0. *)
Definition scripted_world (challenge : nat -> bool) : world :=
  {| o_challenge := challenge;
     o_random := fun _ => 0%N;
     o_lag := fun _ => 0%N;
     o_goto := fun _ _ => None;
     o_wait := fun _ _ => None;
     o_text := fun _ _ => inr None;
     o_all_text := fun _ _ => inr [];
     o_anchors := fun _ _ => inr [];
     tick := 0; clock := 0; trace := [] |}.

(** A challenge is showing and is solved before the first re-check. *)
Definition cleared_world : world := scripted_world (Nat.eqb 0).

(** The CSV files written so far, oldest first. *)
Definition csv_writes (tr : list event) : list (str * csv) :=
  flat_map (fun e => match e with
                     | EvToCsv p c => [(p, c)]
                     | _ => []
                     end) tr.

(** A computation that always comes back (it returns or raises) and
    writes no CSV file. *)
Definition tame {A} (m : M A) : Prop :=
  forall w, fst (m w) <> Diverge
            /\ csv_writes (trace (snd (m w))) = csv_writes (trace w).

Definition is_csv_event (e : event) : bool :=
  match e with
  | EvToCsv _ _ => true
  | _ => false
  end.

(** The cell of row [i] (from 0) in column [c] of a frame. *)
Definition frame_cell (f : frame) (i : nat) (c : str) : option pyval :=
  match nth_error (data f) i with
  | Some r => row_get (columns f) r c
  | None => None
  end.

(** The links frame has a column [URL] or, failing that, [url]. *)
Definition has_url_column (df : frame) : Prop :=
  In (py "URL") (columns df) \/ In (py "url") (columns df).

(** The record of an input row: what some fetch of its URL returned, or
    the error row of what it raised. *)
Definition row_outcome (cfg : BrowserConfig) (cols : list str)
           (r : list pyval) (rec : dict) : Prop :=
  exists w : world,
    (exists d w', fetch_detail cfg (row_url cols r) w = (Ok d, w')
                  /\ rec = d)
    \/ (exists e w', fetch_detail cfg (row_url cols r) w = (Raise e, w')
                     /\ rec = error_row (row_url cols r) e).



(** The eleven fields of a detail record. *)
Definition detail_fields : list str :=
  [py "Wine Name"; py "Region 1"; py "Region 2"; py "Region 3";
   py "Country"; py "Score"; py "Price"; py "Winery"; py "Variety";
   py "Wine Type"; py "URL"].

(** A links frame of [n] rows with the one column [col]. *)
Definition links_frame (col : string) (n : nat) : frame :=
  {| columns := [py col];
     data := repeat [VStr (py "https://www.wineenthusiast.com/r/1")] n |}.

(** A world in which every navigation fails. *)
Definition offline_world : world :=
  {| o_challenge := fun _ => false;
     o_random := fun _ => 0%N;
     o_lag := fun _ => 0%N;
     o_goto := fun _ _ => Some (PlaywrightError (py "net::ERR_FAILED"));
     o_wait := fun _ _ => None;
     o_text := fun _ _ => inr None;
     o_all_text := fun _ _ => inr [];
     o_anchors := fun _ _ => inr [];
     tick := 0; clock := 0; trace := [] |}.

(** A world in which no listing ever shows up: every wait for a
    selector times out. *)
Definition no_results_world : world :=
  {| o_challenge := fun _ => false;
     o_random := fun _ => 0%N;
     o_lag := fun _ => 0%N;
     o_goto := fun _ _ => None;
     o_wait := fun _ _ =>
                 Some (PlaywrightTimeoutError
                         (py "Timeout 10000ms exceeded."));
     o_text := fun _ _ => inr None;
     o_all_text := fun _ _ => inr [];
     o_anchors := fun _ _ => inr [];
     tick := 0; clock := 0; trace := [] |}.

End Vocabulary.
Import Vocabulary.

(* ===================================================================== *)
(** ** The factory *)
(* ===================================================================== *)

Module Factory.

(** [get_wine_enthusiast_scraper] of [factory.py]: the configuration of
    the scraper it returns. The fields it does not pass keep the defaults
    of [BrowserConfig]; [user_agent or base.user_agent] falls back on the
    default for [None] and for the empty string. *)
Definition get_wine_enthusiast_scraper
    (headless : bool) (storage_state_path : option str)
    (user_agent : option str) (locale timezone_id : str) : BrowserConfig :=
  let base := default_config in
  {| headless := headless;
     user_data_dir := Scraper.user_data_dir base;
     use_chrome_channel := Scraper.use_chrome_channel base;
     storage_state_path := storage_state_path;
     user_agent := match truthy_path user_agent with
                   | Some ua => ua
                   | None => Scraper.user_agent base
                   end;
     locale := locale;
     timezone_id := timezone_id;
     viewport_min := Scraper.viewport_min base;
     viewport_max := Scraper.viewport_max base;
     manual_challenge := Scraper.manual_challenge base;
     challenge_timeout_s := Scraper.challenge_timeout_s base;
     cooldown_range_s := Scraper.cooldown_range_s base |}.

End Factory.
Import Factory.

(* ===================================================================== *)
(** ** Vocabulary of the further statements *)
(* ===================================================================== *)

Module Coverage.

(** The pages navigated to so far, oldest first. *)
Definition gotos (tr : list event) : list str :=
  flat_map (fun e => match e with
                     | EvGoto u => [u]
                     | _ => []
                     end) tr.


(** Bounds [randint] and [sleep] accept. *)
Definition valid_viewport (cfg : BrowserConfig) : Prop :=
  fst (viewport_min cfg) <= fst (viewport_max cfg)
  /\ snd (viewport_min cfg) <= snd (viewport_max cfg).




(** The events of opening and of closing a session. *)
Definition launch_events (cfg : BrowserConfig) (width height : Z)
  : list event :=
  match truthy_path (user_data_dir cfg) with
  | Some d => [EvMkdir d; EvLaunchPersistent d width height]
  | None => [EvLaunchEphemeral width height]
  end.

Definition owns_browser (cfg : BrowserConfig) : bool :=
  match truthy_path (user_data_dir cfg) with
  | Some _ => false
  | None => true
  end.

Definition save_events (cfg : BrowserConfig) : list event :=
  match truthy_path (storage_state_path cfg) with
  | Some p => [EvSaveState p]
  | None => []
  end.

Definition close_events (has_browser : bool) : list event :=
  EvContextClose :: (if has_browser then [EvBrowserClose] else []).


(** The record an anchor contributes, if any: its trimmed text and its
    href, when both are non-empty. *)
Definition anchor_record (a : option str * option str)
  : option LinkRecord :=
  let name := strip (match fst a with Some t => t | None => [] end) in
  match snd a with
  | Some href =>
      if truthy name && truthy href then Some (mk_link name href) else None
  | None => None
  end.

(** A value that is absent or a non-empty text without whitespace at
    either end. *)
Definition absent_or_trimmed (v : pyval) : Prop :=
  v = VNone
  \/ exists s, v = VStr s /\ s <> []
               /\ (forall c t, s = c :: t -> isspace c = false)
               /\ (forall t c, s = t ++ [c] -> isspace c = false).

(** The two events of one scroll step. *)
Definition scroll_step_events (dy pause : Z) : list event :=
  [EvWheel dy; EvSleep pause].

(** A world with a random source that counts up. *)
Definition counting_world : world :=
  {| o_challenge := fun _ => false;
     o_random := fun k => N.of_nat (7 * k);
     o_lag := fun _ => 0%N;
     o_goto := fun _ _ => None;
     o_wait := fun _ _ => None;
     o_text := fun _ _ => inr None;
     o_all_text := fun _ _ => inr [];
     o_anchors := fun _ _ => inr [];
     tick := 0; clock := 0; trace := [] |}.

(** A text without whitespace at either end (it may be empty). *)
Definition stripped_text (s : str) : Prop :=
  (forall c t, s = c :: t -> isspace c = false)
  /\ (forall t c, s = t ++ [c] -> isspace c = false).

Definition absent_or_stripped (v : pyval) : Prop :=
  v = VNone \/ exists s, v = VStr s /\ stripped_text s.

(** The two kinds of record the batch runner accumulates. *)
Definition detail_or_error (rec : dict) : Prop :=
  map fst rec = detail_fields \/ exists url e, rec = error_row url e.

(** A configuration whose viewport bounds are the wrong way round. *)
Definition inverted_viewport_config : BrowserConfig :=
  {| headless := false;
     user_data_dir := Some (py ".we_profile");
     use_chrome_channel := true;
     storage_state_path := Some (py "state.json");
     user_agent := _DEFAULT_UA;
     locale := py "en-US";
     timezone_id := py "America/Los_Angeles";
     viewport_min := (1600, 1000);
     viewport_max := (1200, 750);
     manual_challenge := true;
     challenge_timeout_s := 180;
     cooldown_range_s := (12, 22) |}.

End Coverage.
Import Coverage.

(* ===================================================================== *)
(** ** Vocabulary of the conditions *)
(* ===================================================================== *)

Module Conditions.

(** No inspection of the page fails: every reading of the page body
    gives a text, or none. *)
Definition inspections_succeed (w : world) : Prop :=
  forall k, exists t, o_text w k (py "body") = inr t.

(** The timeout is a [timedelta] and the deadline a [datetime]. *)
Definition deadline_representable (now timeout_s : Z) : Prop :=
  -999999999 <= timeout_s / 86400 <= 999999999
  /\ 0 <= now + seconds timeout_s <= datetime_max.

(** A cooldown window that [randint] and [time.sleep] accept. *)
Definition cooldown_window (cfg : BrowserConfig) : Prop :=
  0 <= fst (cooldown_range_s cfg) <= snd (cooldown_range_s cfg)
  /\ snd (cooldown_range_s cfg) <= sleep_max.

(** What [randint(min, max)] on the cooldown window makes of the k-th
    draw of the random source. *)
Definition cooldown_draw (cfg : BrowserConfig) (w : world) (k : nat) : Z :=
  fst (cooldown_range_s cfg)
  + Z.of_N (o_random w k)
    mod (snd (cooldown_range_s cfg) - fst (cooldown_range_s cfg) + 1).

(** The labels are those of a CSV none of whose data lines is longer
    than its header. *)
Definition default_index (df : read_frame) : Prop :=
  labels df = RangeIndex (length (read_rows df)).

(** The cell [row_url] reads. *)
Definition url_cell (cols : list str) (r : list pyval) : option pyval :=
  match row_get cols r (py "URL") with
  | Some v => Some v
  | None => row_get cols r (py "url")
  end.

(** A URL cell as [pd.read_csv] gives it for a column of text: a
    non-empty text, or NaN for an empty field. *)
Definition text_cell (v : pyval) : Prop :=
  v = VNaN \/ exists s, v = VStr s /\ s <> [].

(** The frame has a [URL] column (or, failing that, a [url] column) and
    it is a column of text. *)
Definition url_column_of_text (df : frame) : Prop :=
  Forall (fun r => exists v, url_cell (columns df) r = Some v
                             /\ text_cell v)
         (data df).

(** The labels are integers, the ones listed. *)
Definition integer_labels (df : read_frame) (idx : list Z) : Prop :=
  labels df = map LInt idx.

(** The checkpoint files due while the rows labelled [idx], which come
    after the first [pos] rows, are processed: after a row with label
    [i], when [checkpoint_every] divides [i + 1], the records so far. *)
Fixpoint checkpoints_by_label
    (path : str) (checkpoint_every : Z) (rows : list dict)
    (pos : nat) (idx : list Z) : list (str * csv) :=
  match idx with
  | [] => []
  | i :: idx' =>
      (if (i + 1) mod checkpoint_every =? 0
       then [(path, DetailsCsv (pd_DataFrame (firstn (S pos) rows)))]
       else [])
      ++ checkpoints_by_label path checkpoint_every rows (S pos) idx'
  end.

(** None without an output path. *)
Definition checkpoints_due
    (out_csv : option str) (checkpoint_every : Z) (rows : list dict)
    (pos : nat) (idx : list Z) : list (str * csv) :=
  match truthy_path out_csv with
  | Some p => checkpoints_by_label p checkpoint_every rows pos idx
  | None => []
  end.

(** One pass of the loop on a row: the fetch of its URL, started in
    [before], ended in [after] and gave the record [rec]. *)
Definition fetched (cfg : BrowserConfig) (cols : list str)
           (r : list pyval) (rec : dict) (before after : world) : Prop :=
  (exists d, fetch_detail cfg (row_url cols r) before = (Ok d, after)
             /\ rec = d)
  \/ (exists e, fetch_detail cfg (row_url cols r) before = (Raise e, after)
                /\ rec = error_row (row_url cols r) e).

(** The passes of the loop in time. Row number [j] (from 0) of [rows]
    was fetched between the two worlds of the corresponding step, its
    record is the corresponding one of [recs], and the CSV files written
    before the fetch began, and still when it ended, are [written j]. *)
Fixpoint timeline (cfg : BrowserConfig) (cols : list str)
         (written : nat -> list (str * csv)) (j : nat)
         (rows : list (list pyval)) (recs : list dict)
         (steps : list (world * world)) : Prop :=
  match rows, recs, steps with
  | [], [], [] => True
  | r :: rows', rec :: recs', s :: steps' =>
      fetched cfg cols r rec (fst s) (snd s)
      /\ csv_writes (trace (fst s)) = written j
      /\ csv_writes (trace (snd s)) = written j
      /\ timeline cfg cols written (S j) rows' recs' steps'
  | _, _, _ => False
  end.

(** A links frame whose two data lines have a field more than the
    header: the leading fields, 99 and 7, are the labels. *)
Definition labelled_links : read_frame :=
  {| read_columns := [py "URL"];
     read_rows :=
       [(LInt 99, [VStr (py "https://www.wineenthusiast.com/r/1")]);
        (LInt 7, [VStr (py "https://www.wineenthusiast.com/r/2")])]
  |}.

(** A links frame whose two data lines have a leading text field: the
    label of a row is then a text, and [i + 1] raises. *)
Definition text_label : label :=
  LOther
    (fun _ => inl (TypeError (py "can only concatenate str (not "
                                ++ [34%N] ++ py "int" ++ [34%N]
                                ++ py ") to str"))).

Definition text_labelled_links : read_frame :=
  {| read_columns := [py "URL"];
     read_rows :=
       [(text_label, [VStr (py "https://www.wineenthusiast.com/r/1")]);
        (text_label, [VStr (py "https://www.wineenthusiast.com/r/2")])]
  |}.

(** A world whose first reading of the page fails. *)
Definition closed_page_world : world :=
  {| o_challenge := fun _ => false;
     o_random := fun _ => 0%N;
     o_lag := fun _ => 0%N;
     o_goto := fun _ _ => None;
     o_wait := fun _ _ => None;
     o_text := fun k _ =>
                 if Nat.eqb k 0
                 then inl (PlaywrightError (py "Target closed"))
                 else inr None;
     o_all_text := fun _ _ => inr [];
     o_anchors := fun _ _ => inr [];
     tick := 0; clock := 0; trace := [] |}.

(** The default configuration with another challenge timeout. *)
Definition config_with_timeout (timeout_s : Z) : BrowserConfig :=
  {| headless := false;
     user_data_dir := Some (py ".we_profile");
     use_chrome_channel := true;
     storage_state_path := None;
     user_agent := _DEFAULT_UA;
     locale := py "en-US";
     timezone_id := py "America/Los_Angeles";
     viewport_min := (1200, 750);
     viewport_max := (1600, 1000);
     manual_challenge := true;
     challenge_timeout_s := timeout_s;
     cooldown_range_s := (12, 22) |}.

End Conditions.
Import Conditions.

(* ===================================================================== *)
(** ** Facts about strings *)
(* ===================================================================== *)

Section StringFacts.

Lemma str_eqb_eq (a b : str) : str_eqb a b = true <-> a = b.
Proof.
  unfold str_eqb. destruct (str_eq_dec a b); split; congruence.
Qed.

Lemma str_eqb_refl (a : str) : str_eqb a a = true.
Proof. now apply str_eqb_eq. Qed.

Lemma str_eqb_neq (a b : str) : str_eqb a b = false <-> a <> b.
Proof.
  unfold str_eqb. destruct (str_eq_dec a b); split; congruence.
Qed.

Lemma str_in_iff (x : str) (l : list str) : str_in x l = true <-> In x l.
Proof.
  unfold str_in. rewrite existsb_exists. split.
  - intros (y & Hy & E). apply str_eqb_eq in E. now subst.
  - intros H. exists x. split; [assumption | apply str_eqb_refl].
Qed.

Lemma str_in_false (x : str) (l : list str) :
  str_in x l = false <-> ~ In x l.
Proof.
  rewrite <- str_in_iff. destruct (str_in x l); split; congruence.
Qed.

Lemma truthy_iff (s : str) : truthy s = true <-> s <> [].
Proof. destruct s; simpl; split; congruence. Qed.

Lemma startswith_iff (s p : str) :
  startswith s p = true <-> exists rest, s = p ++ rest.
Proof.
  revert s. induction p as [|a p IH]; intros s; simpl.
  - split; [intros _; now exists s | reflexivity].
  - destruct s as [|b s].
    + split; [discriminate | intros (r & E); discriminate].
    + rewrite andb_true_iff, N.eqb_eq, IH. split.
      * intros (-> & r & ->). now exists r.
      * intros (r & E). injection E as -> ->. split; eauto.
Qed.

Lemma startswith_app (p rest : str) : startswith (p ++ rest) p = true.
Proof. apply startswith_iff. now exists rest. Qed.

Lemma contains_iff (sub s : str) :
  contains sub s = true <-> exists a b, s = a ++ sub ++ b.
Proof.
  induction s as [|c s IH].
  - simpl. rewrite orb_false_r, startswith_iff. split.
    + intros (r & E). now exists [], r.
    + intros (a & b & E). destruct a; [|discriminate].
      exists b. exact E.
  - cbn [contains]. rewrite orb_true_iff, startswith_iff, IH. split.
    + intros [(r & E) | (a & b & E)].
      * now exists [], r.
      * exists (c :: a), b. now rewrite E.
    + intros (a & b & E). destruct a as [|c' a].
      * left. now exists b.
      * right. injection E as _ E. now exists a, b.
Qed.

(** Replacing the first occurrence of a prefix removes the prefix. *)
Lemma replace_first_prefix (label rest : str) :
  replace_first label [] (label ++ rest) = rest.
Proof.
  assert (U : forall old new s,
             replace_first old new s =
             if startswith s old then new ++ skipn (length old) s
             else match s with
                  | [] => []
                  | c :: s' => c :: replace_first old new s'
                  end) by (intros old new [|c s]; reflexivity).
  rewrite U, startswith_app. simpl.
  now rewrite skipn_app, skipn_all, Nat.sub_diag.
Qed.

(** What [strip] keeps: the text between the leading and the trailing
    run of whitespace. *)
Lemma lstrip_spec (s : str) :
  exists l, s = l ++ lstrip s /\ forallb isspace l = true
            /\ (forall c t, lstrip s = c :: t -> isspace c = false).
Proof.
  induction s as [|c s (l & E & Hl & Hh)]; simpl.
  - exists []. repeat split. discriminate.
  - destruct (isspace c) eqn:Hc.
    + exists (c :: l). simpl. rewrite Hc, Hl. repeat split.
      * now rewrite <- E.
      * exact Hh.
    + exists []. repeat split. intros c' t [= -> _]. exact Hc.
Qed.

Lemma strip_spec (s : str) :
  exists l r,
    s = l ++ strip s ++ r
    /\ forallb isspace l = true /\ forallb isspace r = true
    /\ (forall c t, strip s = c :: t -> isspace c = false)
    /\ (forall t c, strip s = t ++ [c] -> isspace c = false).
Proof.
  unfold strip, rstrip.
  destruct (lstrip_spec s) as (l & El & Hl & Hhead).
  destruct (lstrip_spec (rev (lstrip s))) as (r & Er & Hr & Hlast).
  exists l, (rev r). split; [|split; [|split; [|split]]].
  - rewrite <- rev_app_distr, <- Er, rev_involutive. exact El.
  - exact Hl.
  - rewrite forallb_forall in *. intros x Hx. apply Hr.
    now apply in_rev.
  - intros c t E.
    destruct (lstrip (rev (lstrip s))) as [|z m] eqn:Em;
      [discriminate|].
    assert (Hz : isspace z = false) by (eapply Hlast; reflexivity).
    assert (Es : lstrip s = rev m ++ z :: rev r).
    { rewrite <- (rev_involutive (lstrip s)), Er, rev_app_distr.
      simpl. now rewrite <- app_assoc. }
    simpl in E. destruct (rev m) as [|y m'] eqn:Erm.
    + simpl in E. injection E as <- _. exact Hz.
    + simpl in E. injection E as <- _.
      eapply Hhead. rewrite Es. reflexivity.
  - intros t c E. apply (f_equal (@rev _)) in E.
    rewrite rev_involutive, rev_app_distr in E. simpl in E.
    eapply Hlast. exact E.
Qed.

Lemma neg_index_rev {A} (l : list A) (k : nat) :
  neg_index l (S k) = nth_error (rev l) k.
Proof.
  unfold neg_index. rewrite nth_error_rev.
  destruct (Nat.leb_spec (S k) (length l));
    destruct (Nat.ltb_spec k (length l)); try lia; reflexivity.
Qed.

End StringFacts.

(* ===================================================================== *)
(** ** The detail extractor's derivations *)
(* ===================================================================== *)

Section DetailFacts.

Lemma opt_str_eqb_eq (a b : option str) :
  opt_str_eqb a b = true <-> a = b.
Proof.
  destruct a, b; simpl; try rewrite str_eqb_eq;
    split; congruence.
Qed.

Lemma region_from_end_spec (k : nat) (l : list str) (v : option str)
      (x : str) :
  region_from_end (S k) l v = Some x
  <-> (S k <= length l)%nat /\ nth_error (rev l) k = Some x
      /\ v <> Some x.
Proof.
  unfold region_from_end. rewrite neg_index_rev.
  replace (S k - 1)%nat with k by lia.
  destruct (Nat.ltb_spec k (length l)) as [Hk | Hk].
  - destruct (nth_error (rev l) k) as [y|] eqn:Ey.
    + destruct (opt_str_eqb (Some y) v) eqn:Ev; simpl.
      * apply opt_str_eqb_eq in Ev. subst v.
        split; [discriminate | intros (_ & [= ->] & H); congruence].
      * split.
        -- intros [= ->]. repeat split; [lia|].
           intros ->. rewrite (proj2 (opt_str_eqb_eq _ _) eq_refl) in Ev.
           discriminate.
        -- intros (_ & [= ->] & _). reflexivity.
    + split; [discriminate | intros (_ & H & _); discriminate].
  - split; [discriminate|]. intros (H & _). lia.
Qed.

Lemma region_list_nonempty (elems : list (option str)) (x : str) :
  In x (region_list_of elems) -> x <> [].
Proof.
  unfold region_list_of. rewrite filter_In. intros (_ & H).
  now apply truthy_iff.
Qed.

Lemma strip_or_none_nonempty (t : option str) (v : str) :
  strip_or_none t = Some v -> v <> [].
Proof.
  unfold strip_or_none.
  destruct (strip _); [discriminate | intros [= <-]; discriminate].
Qed.

Lemma country_of_last (l : list str) :
  country_of l = nth_error (rev l) 0.
Proof.
  destruct l as [|a l]; [reflexivity|].
  unfold country_of. apply neg_index_rev.
Qed.

Lemma region_1_of_spec (l : list str) (rv : option str) (v : str) :
  region_1_of l rv = Some v <-> rv = Some v /\ v <> [] /\ In v l.
Proof.
  unfold region_1_of. destruct rv as [u|].
  - destruct (truthy u && str_in u l) eqn:E.
    + apply andb_true_iff in E. destruct E as (E1 & E2).
      apply truthy_iff in E1. apply str_in_iff in E2.
      split; [intros [= <-]; auto | intros ([= <-] & _); reflexivity].
    + split; [discriminate|]. intros ([= <-] & Hn & Hi).
      apply truthy_iff in Hn. apply str_in_iff in Hi.
      rewrite Hn, Hi in E. discriminate.
  - split; [discriminate | intros (H & _); discriminate].
Qed.

End DetailFacts.

(** C1. For every fetched review page, with [region_list] the trimmed
    non-empty breadcrumb texts and [region_value] the primary-region
    value: the country is the last element of the region list (absent for
    an empty list); region_1 is the primary-region value exactly when that
    value is non-empty and occurs in the list; region_2 (region_3) is the
    second-to-last (third-to-last) element exactly when the list has at
    least 2 (3) elements and that element differs from the primary-region
    value; every field is absent otherwise. For the list Napa, California,
    USA with primary region Napa the result is country USA, region_1 Napa,
    region_2 California and no region_3. *)
Theorem region_derivation_policy :
  (forall (region_elems : list (option str)) (value_text : option str),
      let region_list := region_list_of region_elems in
      let region_value := strip_or_none value_text in
      let rg := derive_regions region_elems value_text in
      (forall x, In x region_list -> x <> [])
      /\ (forall v, region_value = Some v -> v <> [])
      /\ country rg = nth_error (rev region_list) 0
      /\ (region_list = [] -> country rg = None)
      /\ (forall v, region_1 rg = Some v
                    <-> region_value = Some v /\ v <> []
                        /\ In v region_list)
      /\ (forall x, region_2 rg = Some x
                    <-> (2 <= length region_list)%nat
                        /\ nth_error (rev region_list) 1 = Some x
                        /\ region_value <> Some x)
      /\ (forall x, region_3 rg = Some x
                    <-> (3 <= length region_list)%nat
                        /\ nth_error (rev region_list) 2 = Some x
                        /\ region_value <> Some x))
  /\ derive_regions
       [Some (py "Napa"); Some (py "California"); Some (py "USA")]
       (Some (py "Napa"))
     = {| country := Some (py "USA");
          region_1 := Some (py "Napa");
          region_2 := Some (py "California");
          region_3 := None |}.
Proof.
  split; [|reflexivity].
  intros region_elems value_text region_list region_value rg.
  subst rg. unfold derive_regions. cbn [country region_1 region_2 region_3].
  fold region_list. fold region_value.
  split; [intros x; apply region_list_nonempty|].
  split; [intros v; apply strip_or_none_nonempty|].
  split; [apply country_of_last|].
  split; [intros ->; reflexivity|].
  split; [intros v; apply region_1_of_spec|].
  split; intros x; apply region_from_end_spec.
Qed.

(** C10. When the primary-region value is non-empty and does not occur
    in the region list, and the list has at least two elements whose
    second-to-last differs from that value, region_1 is absent while
    region_2 is present: an absent region_1 does not make region_2
    absent. *)
Theorem region_2_without_region_1
    (region_elems : list (option str)) (value_text : option str)
    (v : str) (pre : list str) (x y : str) :
  strip_or_none value_text = Some v ->
  v <> [] ->
  region_list_of region_elems = pre ++ [x; y] ->
  ~ In v (region_list_of region_elems) ->
  x <> v ->
  region_1 (derive_regions region_elems value_text) = None
  /\ region_2 (derive_regions region_elems value_text) = Some x.
Proof.
  intros Hv Hne Hl Hin Hx. unfold derive_regions.
  cbn [region_1 region_2]. rewrite Hv. split.
  - destruct (region_1_of _ (Some v)) as [u|] eqn:E; [|reflexivity].
    apply region_1_of_spec in E. destruct E as ([= <-] & _ & Hi).
    contradiction.
  - apply region_from_end_spec. rewrite Hl, length_app, rev_app_distr.
    simpl. repeat split; [lia | congruence].
Qed.

Lemma region_2_without_region_1_witness :
  region_1 (derive_regions
              [Some (py "Sonoma"); Some (py "California"); Some (py "USA")]
              (Some (py "Napa"))) = None
  /\ region_2 (derive_regions
              [Some (py "Sonoma"); Some (py "California"); Some (py "USA")]
              (Some (py "Napa"))) = Some (py "California").
Proof.
  apply (region_2_without_region_1
           [Some (py "Sonoma"); Some (py "California"); Some (py "USA")]
           (Some (py "Napa")) (py "Napa")
           [py "Sonoma"] (py "California") (py "USA")).
  - reflexivity.
  - discriminate.
  - reflexivity.
  - vm_compute. intros [H | [H | [H | []]]]; discriminate.
  - discriminate.
Defined.

(** C9. For every score or price text, label stripping returns absent for
    a missing or empty text; when the text starts with the label it
    returns what follows the label, trimmed of surrounding whitespace;
    when it does not, it returns the text trimmed. Trimming removes exactly
    a leading and a trailing run of whitespace. RATING 92 becomes 92. *)
Theorem strip_label_policy :
  (forall (label : str) (text : option str),
      (text = None \/ text = Some [] -> _strip_label text label = None)
      /\ (forall rest,
             text = Some (label ++ rest) -> label ++ rest <> [] ->
             _strip_label text label = Some (strip rest))
      /\ (forall t,
             text = Some t -> t <> [] ->
             (forall rest, t <> label ++ rest) ->
             _strip_label text label = Some (strip t)))
  /\ (forall s : str,
         exists l r,
           s = l ++ strip s ++ r
           /\ forallb isspace l = true /\ forallb isspace r = true
           /\ (forall c t, strip s = c :: t -> isspace c = false)
           /\ (forall t c, strip s = t ++ [c] -> isspace c = false))
  /\ _strip_label (Some (py "RATING 92")) (py "RATING") = Some (py "92")
  /\ _strip_label (Some (py "PRICE $45")) (py "PRICE") = Some (py "$45")
  /\ _strip_label (strip_or_none (Some (py "  92 Points "))) (py "RATING")
     = Some (py "92 Points").
Proof.
  split; [|split; [exact strip_spec | repeat split]].
  intros label text. split; [|split].
  - intros [-> | ->]; reflexivity.
  - intros rest -> Hne. unfold _strip_label.
    apply truthy_iff in Hne. rewrite Hne. simpl.
    now rewrite startswith_app, app_nil_r, replace_first_prefix.
  - intros t -> Hne Hno. unfold _strip_label.
    apply truthy_iff in Hne. rewrite Hne. simpl.
    destruct (startswith t label) eqn:E; [|reflexivity].
    apply startswith_iff in E. destruct E as (rest & E).
    now apply Hno in E.
Qed.

(* ===================================================================== *)
(** ** The URL builder *)
(* ===================================================================== *)

Section UrlFacts.

Lemma string_of_uint_chars (d : Decimal.uint) :
  forallb is_int_char (py (NilEmpty.string_of_uint d)) = true.
Proof.
  induction d; simpl; try reflexivity; exact IHd.
Qed.

Lemma format_int_chars (n : Z) : forallb is_int_char (format_int n) = true.
Proof.
  unfold format_int.
  assert (U : forall d,
             forallb is_int_char (py (NilZero.string_of_uint d)) = true).
  { intros d. destruct d; try reflexivity;
      apply (string_of_uint_chars (_ d)). }
  destruct (Z.to_int n) as [d | d]; simpl.
  - apply U.
  - apply (U d).
Qed.

(** A pattern cannot start inside a run of characters that differ from
    its first character. *)
Lemma contains_skip (c0 : char) (P D T : str) :
  forallb (fun c => negb (c0 =? c)%N) D = true ->
  contains (c0 :: P) (D ++ T) = contains (c0 :: P) T.
Proof.
  induction D as [|d D IH]; intros H; [reflexivity|].
  simpl in H. apply andb_true_iff in H. destruct H as (Hd & HD).
  change ((d :: D) ++ T) with (d :: D ++ T).
  cbn [contains startswith].
  apply negb_true_iff in Hd. rewrite Hd. simpl. now apply IH.
Qed.

Lemma int_chars_skip (c0 : char) (n : Z) :
  is_int_char c0 = false ->
  forallb (fun c => negb (c0 =? c)%N) (format_int n) = true.
Proof.
  intros H0. generalize (format_int_chars n).
  rewrite !forallb_forall. intros H c Hc. specialize (H c Hc).
  apply negb_true_iff. destruct (N.eqb_spec c0 c); [|reflexivity].
  subst. congruence.
Qed.

Lemma build_search_url_eq (page : Z) (style : option str)
      (year : option Z) :
  _build_search_url page style year
  = py "https://www.wineenthusiast.com/?s=&search_type=ratings&page="
       ++ format_int page ++ py "&drink_type=wine"
       ++ style_part style ++ year_part year.
Proof.
  unfold _build_search_url, search_params, style_part, year_part.
  destruct style as [[|c s]|]; destruct year as [y|];
    try destruct (y =? 0); simpl;
    repeat (rewrite <- ?app_assoc, ?app_nil_r; simpl); reflexivity.
Qed.

Lemma search_params_cases (page : Z) (style : option str)
      (year : option Z) :
  search_params page style year
  = [py "?s="; py "search_type=ratings"; py "page=" ++ format_int page;
     py "drink_type=wine"]
    ++ match style with
       | Some (c :: s) => [py "wine_style=" ++ c :: s]
       | _ => []
       end
    ++ match year with
       | Some y =>
           if y =? 0 then [] else [py "pub_date=%253A" ++ format_int y]
       | None => []
       end.
Proof.
  unfold search_params.
  destruct style as [[|c s]|]; destruct year as [y|];
    try destruct (y =? 0); reflexivity.
Qed.

(** No parameter but the one meant starts with a given key. *)
Lemma wine_style_param (page : Z) (style : option str)
      (year : option Z) (p : str) :
  In p (search_params page style year) ->
  startswith p (py "wine_style=") = true ->
  exists s, style = Some s /\ s <> [] /\ p = py "wine_style=" ++ s.
Proof.
  rewrite search_params_cases. intros Hin Hp.
  repeat (apply in_app_or in Hin; destruct Hin as [Hin | Hin]).
  - simpl in Hin.
    destruct Hin as [<- | [<- | [<- | [<- | []]]]]; discriminate.
  - destruct style as [[|c s]|]; simpl in Hin; try contradiction.
    destruct Hin as [<- | []]. exists (c :: s).
    repeat split; discriminate.
  - destruct year as [y|]; [destruct (y =? 0)|]; simpl in Hin;
      try contradiction.
    destruct Hin as [<- | []]. discriminate.
Qed.

Lemma pub_date_param (page : Z) (style : option str)
      (year : option Z) (p : str) :
  In p (search_params page style year) ->
  startswith p (py "pub_date=") = true ->
  exists y, year = Some y /\ y <> 0
            /\ p = py "pub_date=%253A" ++ format_int y.
Proof.
  rewrite search_params_cases. intros Hin Hp.
  repeat (apply in_app_or in Hin; destruct Hin as [Hin | Hin]).
  - simpl in Hin.
    destruct Hin as [<- | [<- | [<- | [<- | []]]]]; discriminate.
  - destruct style as [[|c s]|]; simpl in Hin; try contradiction.
    destruct Hin as [<- | []]. discriminate.
  - destruct year as [y|]; [destruct (Z.eqb_spec y 0)|]; simpl in Hin;
      try contradiction.
    destruct Hin as [<- | []]. exists y. repeat split; assumption.
Qed.

Lemma no_wine_style_without_style (page : Z) (style : option str)
      (year : option Z) :
  style = None \/ style = Some [] ->
  contains (py "wine_style=") (_build_search_url page style year) = false.
Proof.
  intros Hs. rewrite build_search_url_eq.
  assert (style_part style = []) as -> by (destruct Hs; subst; reflexivity).
  cbn -[format_int year_part].
  rewrite (contains_skip 119%N _ (format_int page))
    by (apply int_chars_skip; reflexivity).
  destruct year as [y|]; [destruct (y =? 0) eqn:Ey|];
    unfold year_part; rewrite ?Ey; try reflexivity.
  cbn -[format_int].
  rewrite <- (app_nil_r (format_int y)).
  rewrite (contains_skip 119%N _ (format_int y))
    by (apply int_chars_skip; reflexivity).
  reflexivity.
Qed.

Lemma no_pub_date_without_year (page : Z) (style : option str)
      (year : option Z) :
  year = None \/ year = Some 0 ->
  (forall s, style = Some s -> contains (py "pub_date=") s = false) ->
  contains (py "pub_date=") (_build_search_url page style year) = false.
Proof.
  intros Hy Hs. rewrite build_search_url_eq.
  assert (year_part year = []) as -> by (destruct Hy; subst; reflexivity).
  cbn -[format_int style_part].
  rewrite (contains_skip 112%N _ (format_int page))
    by (apply int_chars_skip; reflexivity).
  destruct style as [[|c s]|]; unfold style_part; try reflexivity.
  rewrite app_nil_r. cbn -[contains].
  change (contains (py "pub_date=")
            (py "&drink_type=wine&wine_style=" ++ c :: s) = false).
  specialize (Hs (c :: s) eq_refl).
  revert Hs. generalize (c :: s). intros t Ht.
  cbn [py map list_ascii_of_string app]. cbn -[contains].
  repeat (cbn [contains]; rewrite orb_false_iff; split;
          [reflexivity|]).
  exact Ht.
Qed.

End UrlFacts.

(** C7 as stated fails: a year that is provided but is 0 gives no
    [pub_date] parameter (and an empty style no [wine_style] one), so
    "appears if and only if provided" does not hold. *)
Lemma build_search_url_year_zero :
  _build_search_url 1 None (Some 0)
  = py "https://www.wineenthusiast.com/?s=&search_type=ratings&page=1&drink_type=wine"
  /\ ~ (forall (page : Z) (style : option str) (year : option Z),
           contains (py "pub_date") (_build_search_url page style year)
           = true <-> year <> None).
Proof.
  split; [reflexivity|].
  intros H. specialize (H 1 None (Some 0)).
  destruct H as (_ & H). specialize (H ltac:(discriminate)).
  vm_compute in H. discriminate.
Qed.

(** C7, amended. For every page number, optional style and optional
    year, the URL builder is a function of its inputs; its output starts
    with the base host and contains page=N; a wine_style parameter is among
    the joined parameters if and only if a non-empty style was given, and
    then it is wine_style=STYLE and occurs in the output; a pub_date
    parameter is among them if and only if a non-zero year was given, and
    then the output ends with pub_date=%253A followed by the year. Without
    a non-empty style the output has no wine_style= at all; without a
    non-zero year it has no pub_date= unless the style itself carries
    one. *)
Theorem build_search_url_shape
    (page : Z) (style : option str) (year : option Z) :
  let url := _build_search_url page style year in
  let params := search_params page style year in
  startswith url _BASE = true
  /\ contains (py "page=" ++ format_int page) url = true
  /\ ((exists p, In p params /\ startswith p (py "wine_style=") = true)
      <-> (exists s, style = Some s /\ s <> []))
  /\ (forall s, style = Some s -> s <> [] ->
        In (py "wine_style=" ++ s) params
        /\ contains (py "&wine_style=" ++ s) url = true)
  /\ (style = None \/ style = Some [] ->
        contains (py "wine_style=") url = false)
  /\ ((exists p, In p params /\ startswith p (py "pub_date=") = true)
      <-> (exists y, year = Some y /\ y <> 0))
  /\ (forall y, year = Some y -> y <> 0 ->
        In (py "pub_date=%253A" ++ format_int y) params
        /\ exists front,
            url = front ++ py "&pub_date=%253A" ++ format_int y)
  /\ (year = None \/ year = Some 0 ->
      (forall s, style = Some s -> contains (py "pub_date=") s = false) ->
        contains (py "pub_date=") url = false).
Proof.
  intros url params. subst url params.
  split; [apply startswith_app|].
  split.
  { apply contains_iff. rewrite build_search_url_eq.
    exists (py "https://www.wineenthusiast.com/?s=&search_type=ratings&"),
      (py "&drink_type=wine" ++ style_part style ++ year_part year).
    repeat (rewrite <- ?app_assoc; simpl); reflexivity. }
  split.
  { split.
    - intros (p & Hin & Hp).
      destruct (wine_style_param _ _ _ _ Hin Hp) as (s & Hs & Hne & _).
      eauto.
    - intros (s & -> & Hne). destruct s as [|c s]; [congruence|].
      exists (py "wine_style=" ++ c :: s). split; [|reflexivity].
      rewrite search_params_cases. apply in_or_app. right.
      apply in_or_app. left. now left. }
  split.
  { intros s -> Hne. destruct s as [|c s]; [congruence|]. split.
    - rewrite search_params_cases. apply in_or_app. right.
      apply in_or_app. left. now left.
    - apply contains_iff. rewrite build_search_url_eq.
      exists (py "https://www.wineenthusiast.com/?s=&search_type=ratings&page="
                ++ format_int page ++ py "&drink_type=wine"),
        (year_part (year)).
      unfold style_part. repeat (rewrite <- ?app_assoc; simpl); reflexivity. }
  split; [apply no_wine_style_without_style|].
  split.
  { split.
    - intros (p & Hin & Hp).
      destruct (pub_date_param _ _ _ _ Hin Hp) as (y & Hy & Hne & _).
      eauto.
    - intros (y & -> & Hne).
      exists (py "pub_date=%253A" ++ format_int y). split; [|reflexivity].
      rewrite search_params_cases. apply in_or_app. right.
      apply in_or_app. right.
      destruct (Z.eqb_spec y 0); [contradiction | now left]. }
  split; [|apply no_pub_date_without_year].
  intros y -> Hne. split.
  - rewrite search_params_cases. apply in_or_app. right.
    apply in_or_app. right.
    destruct (Z.eqb_spec y 0); [contradiction | now left].
  - rewrite build_search_url_eq. unfold year_part.
    destruct (Z.eqb_spec y 0); [contradiction|].
    exists (py "https://www.wineenthusiast.com/?s=&search_type=ratings&page="
              ++ format_int page ++ py "&drink_type=wine"
              ++ style_part style).
    repeat (rewrite <- ?app_assoc; simpl); reflexivity.
Qed.

(* ===================================================================== *)
(** ** Reasoning about computations *)
(* ===================================================================== *)

Section MonadFacts.

Context {A B : Type}.

Lemma bind_Ok (m : M A) (f : A -> M B) (w w1 : world) (a : A) :
  m w = (Ok a, w1) -> bind m f w = f a w1.
Proof. unfold bind. now intros ->. Qed.

Lemma bind_Raise (m : M A) (f : A -> M B) (w w1 : world) (e : exn) :
  m w = (Raise e, w1) -> bind m f w = (Raise e, w1).
Proof. unfold bind. now intros ->. Qed.

Lemma bind_Ok_inv (m : M A) (f : A -> M B) (w w' : world) (b : B) :
  bind m f w = (Ok b, w') ->
  exists a w1, m w = (Ok a, w1) /\ f a w1 = (Ok b, w').
Proof.
  unfold bind. destruct (m w) as [[a | e |] w1]; try discriminate.
  intros H. now exists a, w1.
Qed.

Lemma try_finally_Ok_inv (body : M A) (fin : M unit) (w w' : world)
      (a : A) :
  try_finally body fin w = (Ok a, w') ->
  exists w1, body w = (Ok a, w1) /\ fin w1 = (Ok tt, w').
Proof.
  unfold try_finally. destruct (body w) as [[x | e |] w1];
    try discriminate;
    destruct (fin w1) as [[[] | e' |] w2] eqn:Ef; try discriminate.
  intros [= -> ->]. exists w1. split; [reflexivity | exact Ef].
Qed.

End MonadFacts.

(* ===================================================================== *)
(** ** The link collector's deduplication *)
(* ===================================================================== *)

Section DedupFacts.

Lemma drop_dups_In (seen : list str) (rows : list LinkRecord)
      (r : LinkRecord) :
  In r (drop_dups seen rows) -> In r rows /\ ~ In (link_url r) seen.
Proof.
  revert seen. induction rows as [|x rows IH]; intros seen;
    cbn [drop_dups].
  - contradiction.
  - destruct (str_in (link_url x) seen) eqn:E.
    + intros H. apply IH in H. simpl. tauto.
    + apply str_in_false in E. intros [<- | H]; [simpl; tauto|].
      apply IH in H. simpl in H. simpl. tauto.
Qed.

Lemma drop_dups_NoDup (seen : list str) (rows : list LinkRecord) :
  NoDup (map link_url (drop_dups seen rows)).
Proof.
  revert seen. induction rows as [|x rows IH]; intros seen;
    cbn [drop_dups].
  - constructor.
  - destruct (str_in (link_url x) seen); [apply IH|].
    cbn [map]. constructor; [|apply IH].
    rewrite in_map_iff. intros (r & E & H).
    apply drop_dups_In in H. destruct H as (_ & H).
    apply H. rewrite E. now left.
Qed.

Lemma drop_dups_first (seen : list str) (rows : list LinkRecord)
      (u : str) :
  first_with_url u (drop_dups seen rows)
  = if str_in u seen then None else first_with_url u rows.
Proof.
  unfold first_with_url.
  revert seen. induction rows as [|x rows IH]; intros seen;
    cbn [drop_dups find].
  - now destruct (str_in u seen).
  - destruct (str_in (link_url x) seen) eqn:E.
    + rewrite IH. destruct (str_in u seen) eqn:Eu; [reflexivity|].
      destruct (str_eqb (link_url x) u) eqn:Ex; [|reflexivity].
      apply str_eqb_eq in Ex. congruence.
    + cbn [find]. destruct (str_eqb (link_url x) u) eqn:Ex.
      * apply str_eqb_eq in Ex. subst u. now rewrite E.
      * rewrite IH.
        assert (U : str_in u (link_url x :: seen) = str_in u seen).
        { unfold str_in. cbn [existsb].
          replace (str_eqb u (link_url x)) with false; [reflexivity|].
          symmetry. apply str_eqb_neq. apply str_eqb_neq in Ex.
          congruence. }
        now rewrite U.
Qed.

Lemma dedup_links_eq (rows : list LinkRecord) :
  dedup_links rows = drop_duplicates_URL rows.
Proof. now destruct rows. Qed.

End DedupFacts.

(** C6. The record set the link collector returns is the gathered
    sequence with duplicates of a URL dropped: no two of its records have
    the same URL, every record of it was gathered, every gathered URL is
    still there, and for each URL the record kept is the first one gathered
    with that URL, so its name is the first-seen name. *)
Theorem link_collector_unique_first_seen :
  (forall rows : list LinkRecord,
      let out := dedup_links rows in
      NoDup (map link_url out)
      /\ (forall r, In r out -> In r rows)
      /\ (forall u, In u (map link_url rows) -> In u (map link_url out))
      /\ (forall u, first_with_url u out = first_with_url u rows))
  /\ (forall cfg max_pages styles years out_csv w df w',
         collect_links cfg max_pages styles years out_csv w = (Ok df, w') ->
         exists has_browser w0 rows w1,
           _new_context cfg w = (Ok has_browser, w0)
           /\ gather_links cfg max_pages styles years w0 = (Ok rows, w1)
           /\ df = dedup_links rows
           /\ NoDup (map link_url df)).
Proof.
  assert (P1 : forall rows : list LinkRecord,
             NoDup (map link_url (dedup_links rows))
             /\ (forall r, In r (dedup_links rows) -> In r rows)
             /\ (forall u, In u (map link_url rows) ->
                           In u (map link_url (dedup_links rows)))
             /\ (forall u, first_with_url u (dedup_links rows)
                           = first_with_url u rows)).
  { intros rows. rewrite dedup_links_eq. unfold drop_duplicates_URL.
    assert (F : forall u, first_with_url u (drop_dups [] rows)
                          = first_with_url u rows)
      by (intros u; apply drop_dups_first).
    split; [apply drop_dups_NoDup|].
    split; [intros r H; now apply drop_dups_In in H|].
    split; [|exact F].
    intros u Hu. apply in_map_iff in Hu. destruct Hu as (r & <- & Hr).
    specialize (F (link_url r)). unfold first_with_url in F.
    destruct (find (fun r0 => str_eqb (link_url r0) (link_url r)) rows)
      as [r'|] eqn:Er.
    - apply find_some in F. destruct F as (Hin & E).
      apply str_eqb_eq in E. rewrite <- E. now apply in_map.
    - exfalso. eapply find_none in Er; [|exact Hr].
      now rewrite str_eqb_refl in Er. }
  split; [exact P1|].
  intros cfg max_pages styles years out_csv w df w' H.
  unfold collect_links in H.
  apply bind_Ok_inv in H. destruct H as (hb & w0 & H0 & H).
  apply bind_Ok_inv in H. destruct H as (rows & w2 & Hg & H).
  apply try_finally_Ok_inv in Hg. destruct Hg as (w1' & Hg & _).
  apply bind_Ok_inv in Hg. destruct Hg as (rows' & w1 & Hg & Hs).
  apply bind_Ok_inv in Hs. destruct Hs as ([] & w1'' & _ & Hs).
  injection Hs as -> _.
  apply bind_Ok_inv in H. destruct H as ([] & w3 & _ & H).
  injection H as <- _.
  exists hb, w0, rows, w1. repeat split; try assumption.
  apply P1.
Qed.

(* ===================================================================== *)
(** ** The challenge handler *)
(* ===================================================================== *)

Section ChallengeFacts.

Lemma pause_length_bounds (a b : Z) (raw : N) :
  a <= b -> a <= pause_length a b raw
            /\ (pause_length a b raw < b \/ a = b).
Proof.
  intros Hab. unfold pause_length.
  destruct (Z.leb_spec (b - a) 0).
  - split; [lia|]. right. lia.
  - pose proof (Z.mod_pos_bound (Z.of_N raw) (b - a)). lia.
Qed.

Lemma human_pause_run (a b : Z) (w : world) :
  0 <= a <= b ->
  _human_pause a b w =
  (Ok tt,
   let d := pause_length a b (o_random w (tick w)) in
   with_state w (S (S (tick w)))
     (clock w + d + Z.of_N (o_lag w (S (tick w))))
     (trace w ++ [EvSleep d])).
Proof.
  intros Hab. unfold _human_pause.
  destruct (Z.leb_spec a b); [|lia].
  unfold bind, random_times, sleep. cbn [next with_state tick clock
    trace o_random o_lag o_challenge o_goto o_wait o_text o_all_text
    o_anchors].
  fold (pause_length a b (o_random w (tick w))).
  pose proof (pause_length_bounds a b (o_random w (tick w))).
  destruct (Z.ltb_spec (pause_length a b (o_random w (tick w))) 0);
    [lia | reflexivity].
Qed.

Lemma poll_spec (fuel : nat) :
  forall (deadline : Z) (w : world),
    (1 <= fuel)%nat ->
    deadline - clock w <= (Z.of_nat fuel - 1) * 1000000 ->
    exists (e : poll_end) (w' : world) (pauses : list Z),
      poll fuel deadline w = (Ok e, w')
      /\ oracle_of w' = oracle_of w
      /\ tick w' = (tick w + 3 * length pauses)%nat
      /\ trace w' = trace w ++ map EvSleep pauses
      /\ Forall poll_pause pauses
      /\ clock w <= clock w'
      /\ match e with
         | Cleared =>
             exists m, length pauses = S m
                       /\ still_challenged w (tick w) m
                       /\ o_challenge w (tick w + 3 * m + 2)%nat = false
         | DeadlinePassed =>
             still_challenged w (tick w) (length pauses)
             /\ deadline <= clock w'
         end.
Proof.
  induction fuel as [|fuel IH]; intros deadline w Hf Hd; [lia|].
  cbn [poll]. unfold bind at 1. unfold utcnow at 1.
  destruct (Z.ltb_spec (clock w) deadline) as [Hlt | Hge].
  - unfold bind at 1.
    rewrite human_pause_run by lia. cbv zeta.
    set (d := pause_length 1000000 2000000 (o_random w (tick w))).
    assert (Hdr : poll_pause d).
    { pose proof (pause_length_bounds 1000000 2000000
                    (o_random w (tick w)) ltac:(lia)).
      unfold poll_pause. fold d in H. lia. }
    set (w1 := with_state w (S (S (tick w)))
                 (clock w + d + Z.of_N (o_lag w (S (tick w))))
                 (trace w ++ [EvSleep d])).
    unfold bind at 1. unfold _looks_like_challenge at 1.
    change (o_challenge w1 (tick w1))
      with (o_challenge w (S (S (tick w)))).
    destruct (o_challenge w (S (S (tick w)))) eqn:Ec; cbn [negb].
    + destruct (IH deadline (next w1)) as
          (e & w' & pauses & Hp & Ho & Ht & Htr & Hfa & Hc & He).
      * destruct fuel; [|lia]. unfold poll_pause in Hdr. lia.
      * cbn [next with_state clock w1]. unfold poll_pause in Hdr. lia.
      * exists e, w', (d :: pauses). rewrite Hp.
        split; [reflexivity|]. split; [rewrite Ho; reflexivity|].
        split; [rewrite Ht; cbn; lia|].
        split; [rewrite Htr; cbn [next with_state trace w1 map];
                rewrite <- app_assoc; reflexivity|].
        split; [now constructor|].
        split; [cbn [next with_state clock w1] in Hc;
                unfold poll_pause in Hdr; lia|].
        assert (Hs : forall n, still_challenged (next w1)
                                 (tick (next w1)) n ->
                               still_challenged w (tick w) (S n)).
        { intros n Hn k Hk. destruct k as [|k].
          - replace (tick w + 3 * 0 + 2)%nat with (S (S (tick w)))
              by lia. exact Ec.
          - specialize (Hn k ltac:(lia)). cbn in Hn.
            replace (tick w + 3 * S k + 2)%nat
              with (S (S (S (tick w + (k + (k + (k + 0))) + 2))))
              by lia.
            replace (S (S (S (tick w))) + (k + (k + (k + 0))) + 2)%nat
              with (S (S (S (tick w + (k + (k + (k + 0))) + 2))))
              in Hn by lia.
            exact Hn. }
        destruct e.
        -- destruct He as (m & Hm & Hs' & Hl). exists (S m).
           split; [cbn; now rewrite Hm|]. split; [now apply Hs|].
           cbn in Hl.
           replace (tick w + 3 * S m + 2)%nat
             with (S (S (S (tick w))) + (m + (m + (m + 0))) + 2)%nat
             by lia.
           exact Hl.
        -- destruct He as (Hs' & Hl). split; [|exact Hl].
           cbn [length]. now apply Hs.
    + exists Cleared, (next w1), [d].
      split; [reflexivity|]. split; [reflexivity|].
      split; [cbn; lia|]. split; [reflexivity|].
      split; [now constructor|].
      split; [cbn [next with_state clock w1];
              unfold poll_pause in Hdr; lia|].
      exists O. split; [reflexivity|].
      split; [intros k Hk; lia|].
      replace (tick w + 3 * 0 + 2)%nat with (S (S (tick w))) by lia.
      exact Ec.
  - exists DeadlinePassed, w, [].
    split; [reflexivity|]. split; [reflexivity|].
    split; [cbn; lia|]. split; [cbn; now rewrite app_nil_r|].
    split; [constructor|]. split; [lia|].
    split; [intros k Hk; cbn in Hk; lia | exact Hge].
Qed.

Lemma poll_more_fuel (fuel : nat) :
  forall (deadline : Z) (w w' : world) (e : poll_end),
    poll fuel deadline w = (Ok e, w') ->
    poll (S fuel) deadline w = (Ok e, w').
Proof.
  induction fuel as [|fuel IH]; intros deadline w w' e H;
    [discriminate|].
  remember (S fuel) as n eqn:En. cbn [poll]. subst n.
  cbn [poll] in H. unfold bind at 1 in H. unfold bind at 1.
  unfold utcnow at 1 in H. unfold utcnow at 1.
  destruct (clock w <? deadline); [|exact H].
  unfold bind at 1 in H. unfold bind at 1.
  destruct (_human_pause 1000000 2000000 w) as [[[] | x |] w1];
    try discriminate.
  unfold bind at 1 in H. unfold bind at 1.
  destruct (_looks_like_challenge w1) as [[c | x |] w2];
    try discriminate.
  destruct (negb c); [exact H | now apply IH].
Qed.

Lemma poll_fuel_irrelevant (fuel extra : nat) (deadline : Z)
      (w w' : world) (e : poll_end) :
  poll fuel deadline w = (Ok e, w') ->
  poll (extra + fuel) deadline w = (Ok e, w').
Proof.
  intros H. induction extra as [|extra IH]; [exact H|].
  now apply poll_more_fuel.
Qed.


Lemma poll_from_timeout (cfg : BrowserConfig) (w : world) :
  exists (e : poll_end) (w' : world) (pauses : list Z),
    poll (S (Z.to_nat (challenge_timeout_s cfg)))
         (clock w + seconds (challenge_timeout_s cfg)) w = (Ok e, w')
    /\ oracle_of w' = oracle_of w
    /\ tick w' = (tick w + 3 * length pauses)%nat
    /\ trace w' = trace w ++ map EvSleep pauses
    /\ Forall poll_pause pauses
    /\ clock w <= clock w'
    /\ match e with
       | Cleared =>
           exists m, length pauses = S m
                     /\ still_challenged w (tick w) m
                     /\ o_challenge w (tick w + 3 * m + 2)%nat = false
       | DeadlinePassed =>
           still_challenged w (tick w) (length pauses)
           /\ clock w + seconds (challenge_timeout_s cfg) <= clock w'
       end.
Proof.
  apply poll_spec; [lia|]. unfold seconds. lia.
Qed.

Lemma handle_challenge_fuel_eq (fuel : nat) (cfg : BrowserConfig)
      (w : world) :
  _handle_challenge_fuel fuel cfg w =
  if o_challenge w (tick w) then
    if manual_challenge cfg then
      match poll fuel (clock w + seconds (challenge_timeout_s cfg))
                 (emit (EvPrint prompt_msg) (next w)) with
      | (Ok Cleared, w') => (Ok tt, w')
      | (Ok DeadlinePassed, w') => cooldown cfg w'
      | (Raise e, w') => (Raise e, w')
      | (Diverge, w') => (Diverge, w')
      end
    else cooldown cfg (next w)
  else (Ok tt, next w).
Proof.
  unfold _handle_challenge_fuel, bind, _looks_like_challenge, utcnow,
    log, ret.
  destruct (o_challenge w (tick w)); cbn [negb]; [|reflexivity].
  destruct (manual_challenge cfg); [|reflexivity].
  cbn [next with_state clock].
  destruct (poll fuel _ _) as [[[] | e |] w']; reflexivity.
Qed.

Lemma handle_challenge_fuel_irrelevant (extra : nat)
      (cfg : BrowserConfig) (w : world) :
  _handle_challenge_fuel
    (extra + S (Z.to_nat (challenge_timeout_s cfg))) cfg w
  = _handle_challenge cfg w.
Proof.
  unfold _handle_challenge. rewrite !handle_challenge_fuel_eq.
  destruct (o_challenge w (tick w)); [|reflexivity].
  destruct (manual_challenge cfg); [|reflexivity].
  destruct (poll_from_timeout cfg (emit (EvPrint prompt_msg) (next w)))
    as (e & w' & pauses & Hp & _).
  cbn [emit next with_state clock] in Hp.
  cbn [emit next with_state clock].
  rewrite (poll_fuel_irrelevant _ extra _ _ _ _ Hp).
  now rewrite Hp.
Qed.

(** The cooldown is the draw of [randint] on the window. *)
Lemma cooldown_run_exact (cfg : BrowserConfig) (w : world) :
  0 <= fst (cooldown_range_s cfg) <= snd (cooldown_range_s cfg) ->
  cooldown cfg w =
  (Ok tt,
   let wait_s := cooldown_draw cfg w (tick w) in
   with_state w (S (S (tick w)))
     (clock w + seconds wait_s + Z.of_N (o_lag w (S (tick w))))
     (trace w ++ [EvPrint (cooldown_msg wait_s);
                  EvSleep (seconds wait_s)])).
Proof.
  intros Hr. unfold cooldown, cooldown_draw. cbv zeta.
  set (lo := fst (cooldown_range_s cfg)) in *.
  set (hi := snd (cooldown_range_s cfg)) in *.
  pose proof (Z.mod_pos_bound (Z.of_N (o_random w (tick w)))
                (hi - lo + 1) ltac:(lia)) as Hm.
  unfold bind, randint, log, sleep, emit, next.
  destruct (Z.ltb_spec hi lo); [lia|].
  cbn [with_state tick clock trace o_lag o_random].
  unfold seconds at 1.
  destruct (Z.ltb_spec
              ((lo + Z.of_N (o_random w (tick w)) mod (hi - lo + 1))
               * 1000000) 0); [lia|].
  unfold with_state. cbn. now rewrite <- app_assoc.
Qed.

Lemma cooldown_draw_bounds (cfg : BrowserConfig) (w : world) (k : nat) :
  fst (cooldown_range_s cfg) <= snd (cooldown_range_s cfg) ->
  fst (cooldown_range_s cfg) <= cooldown_draw cfg w k
  <= snd (cooldown_range_s cfg).
Proof.
  intros Hr. unfold cooldown_draw.
  pose proof (Z.mod_pos_bound (Z.of_N (o_random w k))
                (snd (cooldown_range_s cfg) - fst (cooldown_range_s cfg)
                 + 1) ltac:(lia)).
  lia.
Qed.

(** Every duration of the window is the draw for one value of the
    random source in every max - min + 1 consecutive ones. *)
Lemma cooldown_draw_onto (cfg : BrowserConfig) (w : world) (k : nat)
      (s : Z) :
  fst (cooldown_range_s cfg) <= s <= snd (cooldown_range_s cfg) ->
  o_random w k = Z.to_N (s - fst (cooldown_range_s cfg)) ->
  cooldown_draw cfg w k = s.
Proof.
  intros Hs Hk. unfold cooldown_draw. rewrite Hk, Z2N.id by lia.
  rewrite Z.mod_small by lia. lia.
Qed.

Lemma oracle_random (w w' : world) :
  oracle_of w' = oracle_of w -> o_random w' = o_random w.
Proof. unfold oracle_of. intros H. now injection H. Qed.

(** Where no inspection fails and the durations are in range, the
    handler with failures is the handler without. *)
Lemma strict_inspection (w : world) :
  inspections_succeed w ->
  _looks_like_challenge_checked w = _looks_like_challenge w.
Proof.
  intros H. unfold _looks_like_challenge_checked, _looks_like_challenge.
  now destruct (H (tick w)) as (t & ->).
Qed.

Lemma strict_poll (fuel : nat) :
  forall (deadline : Z) (w : world),
    inspections_succeed w ->
    poll_checked fuel deadline w = poll fuel deadline w.
Proof.
  induction fuel as [|fuel IH]; intros deadline w Hi; [reflexivity|].
  cbn [poll_checked poll]. unfold bind, utcnow.
  destruct (clock w <? deadline); [|reflexivity].
  rewrite human_pause_run by lia. cbv beta iota zeta.
  rewrite strict_inspection by (intros k; exact (Hi k)).
  unfold _looks_like_challenge.
  destruct (o_challenge _ _); cbn [negb]; [|reflexivity].
  apply IH. intros k. exact (Hi k).
Qed.

Lemma strict_sleep (us : Z) (w : world) :
  - seconds sleep_max <= us <= seconds sleep_max ->
  sleep_checked us w = sleep us w.
Proof.
  intros H. unfold sleep_checked.
  destruct (Z.ltb_spec us (- seconds sleep_max)); [lia|].
  destruct (Z.ltb_spec (seconds sleep_max) us); [lia|].
  reflexivity.
Qed.

Lemma strict_cooldown (cfg : BrowserConfig) (w : world) :
  cooldown_window cfg -> cooldown_checked cfg w = cooldown cfg w.
Proof.
  intros (Hr & Hmax). unfold cooldown_checked, cooldown, bind, randint.
  destruct (Z.ltb_spec (snd (cooldown_range_s cfg))
                       (fst (cooldown_range_s cfg))); [lia|].
  unfold log. cbv beta iota. apply strict_sleep.
  pose proof (Z.mod_pos_bound (Z.of_N (o_random w (tick w)))
                (snd (cooldown_range_s cfg) - fst (cooldown_range_s cfg)
                 + 1) ltac:(lia)).
  unfold seconds, sleep_max in *. lia.
Qed.

Lemma strict_handle_challenge_fuel (fuel : nat) (cfg : BrowserConfig)
      (w : world) :
  cooldown_window cfg ->
  inspections_succeed w ->
  deadline_representable (clock w) (challenge_timeout_s cfg) ->
  _handle_challenge_fuel_checked fuel cfg w
  = _handle_challenge_fuel fuel cfg w.
Proof.
  intros Hc Hi (Hd1 & Hd2). rewrite handle_challenge_fuel_eq.
  unfold _handle_challenge_fuel_checked, bind, utcnow,
    timedelta_seconds, datetime_add, log, ret.
  rewrite strict_inspection by exact Hi.
  unfold _looks_like_challenge.
  destruct (o_challenge w (tick w)); cbn [negb]; [|reflexivity].
  destruct (Z.ltb_spec (challenge_timeout_s cfg / 86400) (-999999999));
    [lia|].
  destruct (Z.ltb_spec 999999999 (challenge_timeout_s cfg / 86400));
    [lia|].
  cbn [orb next with_state clock].
  destruct (Z.ltb_spec (clock w + seconds (challenge_timeout_s cfg)) 0);
    [lia|].
  destruct (Z.ltb_spec datetime_max
              (clock w + seconds (challenge_timeout_s cfg))); [lia|].
  cbn [orb].
  destruct (manual_challenge cfg); [|apply strict_cooldown, Hc].
  rewrite strict_poll by (intros k; exact (Hi k)).
  destruct (poll fuel _ _) as [[[] | e |] w']; try reflexivity.
  apply strict_cooldown, Hc.
Qed.

End ChallengeFacts.

(** C5 as stated fails: when the challenge clears during polling the
    handler returns at once, without any cooldown sleep. In
    [cleared_world], with the default configuration (cooldown window 12 to
    22 seconds), the only sleep is the one-second poll pause. *)
Lemma challenge_cleared_no_cooldown :
  o_challenge cleared_world (tick cleared_world) = true
  /\ manual_challenge default_config = true
  /\ fst (_handle_challenge default_config cleared_world) = Ok tt
  /\ trace (snd (_handle_challenge default_config cleared_world))
     = [EvPrint prompt_msg; EvSleep 1000000]
  /\ ~ (exists wait_s,
           12 <= wait_s <= 22
           /\ In (EvSleep (seconds wait_s))
                 (trace (snd (_handle_challenge default_config
                                                cleared_world)))).
Proof.
  split; [reflexivity|]. split; [reflexivity|].
  split; [vm_compute; reflexivity|].
  assert (E : trace (snd (_handle_challenge default_config cleared_world))
              = [EvPrint prompt_msg; EvSleep 1000000])
    by (vm_compute; reflexivity).
  split; [exact E|].
  rewrite E. intros (s & Hs & [H | [H | []]]); [discriminate|].
  injection H as H. unfold seconds in H. lia.
Qed.

(** C5, amended. Take a cooldown window 0 <= min <= max that
    [time.sleep] accepts, a page whose inspections do not fail and a
    timeout whose deadline is a [datetime]. Then the challenge handler
    returns normally, whatever the fuel above one pass per second of
    timeout. On a page that shows no challenge it does nothing but the
    inspection. On a challenged page with manual intervention disabled it
    at once prints and sleeps the cooldown, which is the draw of
    randint(min, max). With manual intervention enabled it prints the
    prompt and polls in pauses of one to two seconds; either some
    inspection finds the challenge gone, and then it returns without
    cooldown, or every inspection still finds it until the deadline has
    passed, and then it sleeps the cooldown, again the draw of
    randint(min, max). The draw lies in the window, and every duration
    of the window is the draw for one value of the random source in every
    max - min + 1 consecutive ones. *)
Theorem handle_challenge_protocol (cfg : BrowserConfig) (w : world) :
  cooldown_window cfg ->
  inspections_succeed w ->
  deadline_representable (clock w) (challenge_timeout_s cfg) ->
  exists w' : world,
    _handle_challenge_checked cfg w = (Ok tt, w')
    /\ (forall extra,
           _handle_challenge_fuel_checked
             (extra + S (Z.to_nat (challenge_timeout_s cfg))) cfg w
           = (Ok tt, w'))
    /\ oracle_of w' = oracle_of w
    /\ (o_challenge w (tick w) = false -> w' = next w)
    /\ (o_challenge w (tick w) = true ->
        manual_challenge cfg = false ->
        let wait_s := cooldown_draw cfg w (S (tick w)) in
        trace w' = trace w ++ [EvPrint (cooldown_msg wait_s);
                               EvSleep (seconds wait_s)])
    /\ (o_challenge w (tick w) = true ->
        manual_challenge cfg = true ->
        exists pauses : list Z,
          Forall poll_pause pauses
          /\ ((exists m,
                  length pauses = S m
                  /\ still_challenged w (S (tick w)) m
                  /\ o_challenge w (S (tick w) + 3 * m + 2)%nat = false
                  /\ trace w' = trace w ++ EvPrint prompt_msg
                                        :: map EvSleep pauses)
              \/ (still_challenged w (S (tick w)) (length pauses)
                  /\ let wait_s :=
                       cooldown_draw cfg w
                         (S (tick w) + 3 * length pauses)%nat in
                     clock w + seconds (challenge_timeout_s cfg)
                       + seconds wait_s <= clock w'
                     /\ trace w' = trace w ++ EvPrint prompt_msg
                                     :: map EvSleep pauses
                                     ++ [EvPrint (cooldown_msg wait_s);
                                         EvSleep (seconds wait_s)])))
    /\ (forall k,
           fst (cooldown_range_s cfg) <= cooldown_draw cfg w k
           <= snd (cooldown_range_s cfg))
    /\ (forall s (w0 : world) k,
           fst (cooldown_range_s cfg) <= s <= snd (cooldown_range_s cfg) ->
           o_random w0 k = Z.to_N (s - fst (cooldown_range_s cfg)) ->
           cooldown_draw cfg w0 k = s).
Proof.
  intros Hc Hi Hd.
  assert (Hr : 0 <= fst (cooldown_range_s cfg)
               <= snd (cooldown_range_s cfg)) by apply Hc.
  assert (Hf : forall extra w',
             _handle_challenge_checked cfg w = (Ok tt, w') ->
             _handle_challenge_fuel_checked
               (extra + S (Z.to_nat (challenge_timeout_s cfg))) cfg w
             = (Ok tt, w')).
  { intros extra w' <-. unfold _handle_challenge_checked.
    rewrite !strict_handle_challenge_fuel by assumption.
    apply handle_challenge_fuel_irrelevant. }
  assert (Hdraw :
            (forall k,
                fst (cooldown_range_s cfg) <= cooldown_draw cfg w k
                <= snd (cooldown_range_s cfg))
            /\ (forall s (w0 : world) k,
                   fst (cooldown_range_s cfg) <= s
                   <= snd (cooldown_range_s cfg) ->
                   o_random w0 k
                   = Z.to_N (s - fst (cooldown_range_s cfg)) ->
                   cooldown_draw cfg w0 k = s)).
  { split.
    - intros k. apply cooldown_draw_bounds. lia.
    - intros s w0 k Hs Hk. now apply cooldown_draw_onto. }
  unfold _handle_challenge_checked in *.
  rewrite (strict_handle_challenge_fuel _ cfg w Hc Hi Hd) in *.
  rewrite handle_challenge_fuel_eq in *.
  destruct (o_challenge w (tick w)) eqn:Ec.
  - destruct (manual_challenge cfg) eqn:Em.
    + destruct (poll_from_timeout cfg (emit (EvPrint prompt_msg) (next w)))
        as (e & w1 & pauses & Hp & Ho & Ht & Htr & Hfa & Hcl & He).
      cbn [emit next with_state clock tick trace] in Hp, Ht, Htr, Hcl, He.
      rewrite Hp in *. destruct e.
      * exists w1. split; [reflexivity|].
        split; [intros extra; now apply Hf|].
        split; [rewrite Ho; reflexivity|].
        split; [discriminate|]. split; [discriminate|].
        split; [|exact Hdraw].
        intros _ _. exists pauses. split; [exact Hfa|]. left.
        destruct He as (m & Hm & Hs & Hl). exists m.
        repeat split; try assumption.
        rewrite Htr, <- app_assoc. reflexivity.
      * rewrite (cooldown_run_exact cfg w1 Hr) in *. cbv zeta in *.
        assert (Hk : cooldown_draw cfg w1 (tick w1)
                     = cooldown_draw cfg w
                         (S (tick w) + 3 * length pauses)%nat).
        { unfold cooldown_draw. rewrite Ht.
          rewrite (oracle_random _ _ Ho). reflexivity. }
        rewrite Hk in *.
        eexists. split; [reflexivity|].
        split; [intros extra; now apply Hf|].
        split; [transitivity (oracle_of w1);
                  [reflexivity | rewrite Ho; reflexivity]|].
        split; [discriminate|]. split; [discriminate|].
        split; [|exact Hdraw].
        intros _ _. exists pauses. split; [exact Hfa|]. right.
        destruct He as (Hst & Hdl). split; [exact Hst|].
        cbn [with_state clock trace]. split; [lia|].
        rewrite Htr, <- !app_assoc. reflexivity.
    + rewrite (cooldown_run_exact cfg (next w) Hr) in *. cbv zeta in *.
      eexists. split; [reflexivity|].
      split; [intros extra; now apply Hf|].
      split; [reflexivity|].
      split; [discriminate|].
      split; [|split; [discriminate | exact Hdraw]].
      intros _ _. reflexivity.
  - exists (next w). split; [reflexivity|].
    split; [intros extra; now apply Hf|].
    split; [reflexivity|]. split; [reflexivity|].
    split; [discriminate|]. split; [discriminate | exact Hdraw].
Qed.

Lemma handle_challenge_protocol_witness :
  cooldown_window default_config
  /\ inspections_succeed cleared_world
  /\ exists w' : world,
      _handle_challenge_checked default_config cleared_world = (Ok tt, w').
Proof.
  assert (Hc : cooldown_window default_config)
    by (unfold cooldown_window, sleep_max; simpl; lia).
  assert (Hi : inspections_succeed cleared_world)
    by (intros k; exists None; reflexivity).
  split; [exact Hc|]. split; [exact Hi|].
  destruct (handle_challenge_protocol default_config cleared_world Hc Hi)
    as (w' & H & _).
  - vm_compute. repeat split; intros E; discriminate E.
  - exists w'. exact H.
Defined.

(** The conditions of the amended C5 are needed. An inspection that
    fails makes the handler raise what the inspection raised. *)
Lemma failed_inspection_propagates :
  _handle_challenge_checked default_config closed_page_world
  = (Raise (PlaywrightError (py "Target closed")),
     next closed_page_world).
Proof. reflexivity. Qed.

(** So does a timeout whose deadline is beyond the year 9999, on a
    challenged page, before anything is printed or slept. *)
Lemma deadline_overflow_raises :
  _handle_challenge_fuel_checked 1 (config_with_timeout 400000000000)
    (scripted_world (fun _ => true))
  = (Raise (OverflowError (py "date value out of range")),
     next (scripted_world (fun _ => true))).
Proof. reflexivity. Qed.

(* ===================================================================== *)
(** ** What fetching a page can do *)
(* ===================================================================== *)

Section TameFacts.

Lemma csv_writes_app (t u : list event) :
  csv_writes (t ++ u) = csv_writes t ++ csv_writes u.
Proof. apply flat_map_app. Qed.

Lemma csv_writes_snoc_other (t : list event) (e : event) :
  is_csv_event e = false -> csv_writes (t ++ [e]) = csv_writes t.
Proof.
  intros He. rewrite csv_writes_app. destruct e; try discriminate;
    cbn; apply app_nil_r.
Qed.

Lemma csv_writes_sleeps (l : list Z) : csv_writes (map EvSleep l) = [].
Proof. induction l; [reflexivity | exact IHl]. Qed.

Lemma tame_ret {A} (a : A) : tame (ret a).
Proof. intros w. split; [discriminate | reflexivity]. Qed.

Lemma tame_raise {A} (e : exn) : tame (@raise A e).
Proof. intros w. split; [discriminate | reflexivity]. Qed.

Lemma tame_bind {A B} (m : M A) (f : A -> M B) :
  tame m -> (forall a, tame (f a)) -> tame (bind m f).
Proof.
  intros Hm Hf w. specialize (Hm w). unfold bind.
  destruct (m w) as [[a | e |] w1]; cbn [fst snd] in *.
  - destruct (Hf a w1) as (H1 & H2). split; [exact H1|].
    rewrite H2. apply Hm.
  - split; [discriminate | apply Hm].
  - destruct Hm as (Hm & _). congruence.
Qed.

Lemma tame_try_finally {A} (body : M A) (fin : M unit) :
  tame body -> tame fin -> tame (try_finally body fin).
Proof.
  intros Hb Hf w. specialize (Hb w). unfold try_finally.
  destruct (body w) as [[a | e |] w1]; cbn [fst snd] in *;
    try (destruct Hb as (Hb & _); congruence);
    specialize (Hf w1);
    destruct (fin w1) as [[[] | e' |] w2]; cbn [fst snd] in *;
    try (destruct Hf as (Hf & _); congruence);
    (split; [discriminate|]);
    destruct Hb as (_ & Hb); destruct Hf as (_ & Hf); congruence.
Qed.

Lemma tame_catch_timeout {A} (body : M A) :
  tame body -> tame (catch_timeout body).
Proof.
  intros Hb w. specialize (Hb w). unfold catch_timeout.
  destruct (body w) as [[a | [] |] w1]; cbn [fst snd] in *;
    try (split; [discriminate | apply Hb]).
  destruct Hb as (Hb & _). congruence.
Qed.

Lemma tame_for_each {X S} (xs : list X) (body : X -> S -> M S) :
  (forall x s, tame (body x s)) -> forall acc, tame (for_each xs body acc).
Proof.
  intros Hb. induction xs as [|x xs IH]; intros acc; cbn [for_each].
  - apply tame_ret.
  - apply tame_bind; [apply Hb | exact IH].
Qed.

Lemma tame_log (e : event) : is_csv_event e = false -> tame (log e).
Proof.
  intros He w. split; [discriminate|].
  cbn. now apply csv_writes_snoc_other.
Qed.

Lemma tame_randint (a b : Z) : tame (randint a b).
Proof.
  intros w. unfold randint. destruct (b <? a);
    (split; [discriminate | reflexivity]).
Qed.

Lemma tame_random_times (span : Z) : tame (random_times span).
Proof. intros w. split; [discriminate | reflexivity]. Qed.

Lemma tame_sleep (us : Z) : tame (sleep us).
Proof.
  intros w. unfold sleep. destruct (us <? 0);
    (split; [discriminate|]); [reflexivity|].
  cbn. now apply csv_writes_snoc_other.
Qed.

Lemma tame_page_goto (url : str) : tame (page_goto url).
Proof.
  intros w. unfold page_goto.
  destruct (o_goto w (tick w) url); (split; [discriminate|]);
    cbn; now apply csv_writes_snoc_other.
Qed.

Lemma tame_wait_for_selector (sel : str) (t : Z) :
  tame (wait_for_selector sel t).
Proof.
  intros w. unfold wait_for_selector.
  destruct (o_wait w (tick w) sel);
    (split; [discriminate | reflexivity]).
Qed.

Lemma tame_of_sum {A} (f : world -> exn + A) :
  tame (fun w => (of_sum (f w), next w)).
Proof.
  intros w. cbn [fst snd]. destruct (f w);
    (split; [discriminate | reflexivity]).
Qed.

Lemma tame_human_pause (a b : Z) : tame (_human_pause a b).
Proof.
  unfold _human_pause. destruct (a <=? b);
    (apply tame_bind; [apply tame_random_times|]);
    intros r; apply tame_sleep.
Qed.

Lemma tame_cooldown (cfg : BrowserConfig) : tame (cooldown cfg).
Proof.
  unfold cooldown. apply tame_bind; [apply tame_randint|].
  intros s. apply tame_bind; [now apply tame_log|].
  intros _. apply tame_sleep.
Qed.

Lemma tame_handle_challenge (cfg : BrowserConfig) :
  tame (_handle_challenge cfg).
Proof.
  intros w. unfold _handle_challenge. rewrite handle_challenge_fuel_eq.
  destruct (o_challenge w (tick w)).
  - destruct (manual_challenge cfg).
    + destruct (poll_from_timeout cfg
                  (emit (EvPrint prompt_msg) (next w)))
        as (e & w1 & pauses & Hp & _ & _ & Htr & _).
      cbn [emit next with_state clock] in Hp. rewrite Hp.
      assert (Hw : csv_writes (trace w1) = csv_writes (trace w)).
      { rewrite Htr. cbn [emit next with_state trace].
        rewrite csv_writes_app, csv_writes_sleeps, app_nil_r.
        now apply csv_writes_snoc_other. }
      destruct e.
      * split; [discriminate | exact Hw].
      * destruct (tame_cooldown cfg w1) as (H1 & H2).
        split; [exact H1 | congruence].
    + apply (tame_cooldown cfg (next w)).
  - split; [discriminate | reflexivity].
Qed.

Lemma tame_new_context (cfg : BrowserConfig) : tame (_new_context cfg).
Proof.
  unfold _new_context, _viewport.
  apply tame_bind.
  { apply tame_bind; [apply tame_randint|]. intros x.
    apply tame_bind; [apply tame_randint|]. intros y. apply tame_ret. }
  intros vp. destruct (truthy_path (user_data_dir cfg)).
  - apply tame_bind; [now apply tame_log|]. intros _.
    apply tame_bind; [now apply tame_log|]. intros _. apply tame_ret.
  - apply tame_bind; [now apply tame_log|]. intros _. apply tame_ret.
Qed.

Lemma tame_teardown (cfg : BrowserConfig) (has_browser : bool) :
  tame (_save_state cfg ;; close_session has_browser).
Proof.
  apply tame_bind.
  - unfold _save_state. destruct (truthy_path (storage_state_path cfg));
      [now apply tame_log | apply tame_ret].
  - intros _. unfold close_session.
    apply tame_bind; [now apply tame_log|]. intros _.
    destruct has_browser; [now apply tame_log | apply tame_ret].
Qed.

Lemma tame_fetch_detail (cfg : BrowserConfig) (url : str) :
  tame (fetch_detail cfg url).
Proof.
  unfold fetch_detail. apply tame_bind; [apply tame_new_context|].
  intros hb. apply tame_try_finally; [|apply tame_teardown].
  apply tame_bind; [apply tame_page_goto|]. intros _.
  apply tame_bind; [apply tame_handle_challenge|]. intros _.
  apply tame_bind; [apply tame_wait_for_selector|]. intros _.
  repeat (apply tame_bind;
          [first [apply (tame_of_sum (fun w => o_text w (tick w) _))
                 |apply (tame_of_sum
                           (fun w => o_all_text w (tick w) _))]|];
          intros ?).
  apply tame_ret.
Qed.

End TameFacts.

(* ===================================================================== *)
(** ** Frames *)
(* ===================================================================== *)

Section FrameFacts.

Lemma row_get_In (cols : list str) (r : list pyval) (c : str) :
  In c cols -> exists i, row_get cols r c = Some (nth i r VNaN).
Proof.
  intros Hin. unfold row_get.
  assert (H : exists i, index_of c cols = Some i).
  { induction cols as [|c' cols IH]; [contradiction|]. cbn.
    destruct (str_eqb c c') eqn:E; [now exists O|].
    apply str_eqb_neq in E. destruct Hin as [-> | Hin]; [congruence|].
    destruct (IH Hin) as (i & ->). now exists (S i). }
  destruct H as (i & ->). now exists i.
Qed.

Lemma row_get_not_In (cols : list str) (r : list pyval) (c : str) :
  ~ In c cols -> row_get cols r c = None.
Proof.
  intros Hin. unfold row_get.
  assert (H : index_of c cols = None).
  { induction cols as [|c' cols IH]; [reflexivity|]. cbn.
    destruct (str_eqb c c') eqn:E.
    - apply str_eqb_eq in E. subst. exfalso. apply Hin. now left.
    - rewrite IH; [reflexivity|]. intros H. apply Hin. now right. }
  now rewrite H.
Qed.

(** A row whose URL cell is a text cell has a URL text: the cell's text,
    or [nan]. *)
Lemma row_url_text (cols : list str) (r : list pyval) (v : pyval) :
  url_cell cols r = Some v -> text_cell v ->
  row_url cols r = py_str v /\ truthy (row_url cols r) = true.
Proof.
  intros Hc Ht.
  assert (E : row_url cols r = py_str v).
  { unfold url_cell in Hc. unfold row_url.
    destruct (row_get cols r (py "URL")) as [v'|].
    - now injection Hc as ->.
    - now rewrite Hc. }
  split; [exact E|]. rewrite E.
  destruct Ht as [-> | (s & -> & Hs)]; [reflexivity|].
  now apply truthy_iff.
Qed.

Lemma add_keys_incl (d : dict) :
  forall cols k, In k cols -> In k (add_keys cols d).
Proof.
  induction d as [|[k' v] d IH]; intros cols k H; cbn; [exact H|].
  apply IH. destruct (str_in k' cols); [exact H|].
  apply in_or_app. now left.
Qed.

Lemma add_keys_has (d : dict) :
  forall cols k v, dict_get d k = Some v -> In k (add_keys cols d).
Proof.
  induction d as [|[k' v'] d IH]; intros cols k v H; cbn in *;
    [discriminate|].
  destruct (str_eqb k k') eqn:E.
  - apply str_eqb_eq in E. subst k'. apply add_keys_incl.
    destruct (str_in k cols) eqn:Ei; [now apply str_in_iff|].
    apply in_or_app. right. now left.
  - eapply IH. exact H.
Qed.

Lemma DataFrame_columns (rows : list dict) (d : dict) (k : str)
      (v : pyval) :
  In d rows -> dict_get d k = Some v ->
  In k (columns (pd_DataFrame rows)).
Proof.
  unfold pd_DataFrame. cbn [columns]. generalize (@nil str) as cols.
  induction rows as [|d' rows IH]; intros cols Hin Hk; [contradiction|].
  cbn [fold_left]. destruct Hin as [-> | Hin].
  - assert (H : In k (add_keys cols d)) by (eapply add_keys_has; eauto).
    clear Hk IH. revert H. generalize (add_keys cols d) as cs.
    induction rows as [|d' rows IH]; intros cs H; [exact H|].
    cbn [fold_left]. apply IH. now apply add_keys_incl.
  - now apply IH.
Qed.

Lemma DataFrame_length (rows : list dict) :
  length (data (pd_DataFrame rows)) = length rows.
Proof. unfold pd_DataFrame. cbn [data]. apply length_map. Qed.

Lemma row_get_map (f : str -> pyval) (cols : list str) (c : str) :
  In c cols -> row_get cols (map f cols) c = Some (f c).
Proof.
  intros Hin. unfold row_get.
  assert (H : exists i, index_of c cols = Some i
                        /\ nth i (map f cols) VNaN = f c).
  { induction cols as [|c' cols IH]; [contradiction|]. cbn.
    destruct (str_eqb c c') eqn:E.
    - apply str_eqb_eq in E. subst. now exists O.
    - apply str_eqb_neq in E. destruct Hin as [-> | Hin]; [congruence|].
      destruct (IH Hin) as (i & -> & Hi). now exists (S i). }
  destruct H as (i & -> & Hi). now rewrite Hi.
Qed.

(** A cell of [pd.DataFrame(rows)] is the dict's value, NaN for a key
    the dict lacks. *)
Lemma DataFrame_cell (rows : list dict) (i : nat) (d : dict) (c : str) :
  nth_error rows i = Some d ->
  In c (columns (pd_DataFrame rows)) ->
  frame_cell (pd_DataFrame rows) i c
  = Some (match dict_get d c with Some v => v | None => VNaN end).
Proof.
  intros Hi Hc. unfold frame_cell.
  unfold pd_DataFrame at 1. cbn [data].
  rewrite nth_error_map, Hi. cbn [option_map].
  now apply (row_get_map
               (fun c => match dict_get d c with
                         | Some v => v
                         | None => VNaN
                         end)).
Qed.

End FrameFacts.

(* ===================================================================== *)
(** ** The batch runner, row by row *)
(* ===================================================================== *)

Section BatchFacts.

Variable cfg : BrowserConfig.

Ltac inv_bind H :=
  let a := fresh "a" in
  let w := fresh "w" in
  let H1 := fresh "Hstep" in
  apply bind_Ok_inv in H; destruct H as (a & w & H1 & H).

(** A returned detail record has the eleven fields, the last one being
    the URL that was asked for. *)
Lemma fetch_detail_Ok (url : str) (w w' : world) (d : dict) :
  fetch_detail cfg url w = (Ok d, w') ->
  map fst d = detail_fields /\ dict_get d (py "URL") = Some (VStr url).
Proof.
  unfold fetch_detail. intros H. inv_bind H.
  apply try_finally_Ok_inv in H. destruct H as (w1 & H & _).
  do 11 inv_bind H. injection H as <- _. split; reflexivity.
Qed.

Lemma write_csv_run (path : str) (content : csv) (w : world) :
  write_csv path content w
  = (Ok tt, emit (EvToCsv path content) (emit (EvMkdirParentOf path) w)).
Proof. reflexivity. Qed.

Lemma write_csv_writes (path : str) (content : csv) (w : world) :
  csv_writes (trace (emit (EvToCsv path content)
                          (emit (EvMkdirParentOf path) w)))
  = csv_writes (trace w) ++ [(path, content)].
Proof.
  cbn [emit with_state trace]. rewrite !csv_writes_app. cbn.
  now rewrite app_nil_r.
Qed.

Lemma checkpoint_run (out_csv : option str) (checkpoint_every i : Z)
      (rows : list dict) (w : world) :
  truthy_path out_csv = None \/ checkpoint_every <> 0 ->
  exists w',
    checkpoint out_csv checkpoint_every i rows w = (Ok tt, w')
    /\ csv_writes (trace w')
       = csv_writes (trace w)
         ++ match truthy_path out_csv with
            | Some p =>
                if (i + 1) mod checkpoint_every =? 0
                then [(p, DetailsCsv (pd_DataFrame rows))] else []
            | None => []
            end.
Proof.
  intros Hok. unfold checkpoint.
  destruct (truthy_path out_csv) as [p|].
  - destruct Hok as [Hok | Hok]; [discriminate|].
    destruct (Z.eqb_spec checkpoint_every 0); [contradiction|].
    destruct ((i + 1) mod checkpoint_every =? 0).
    + rewrite write_csv_run. eexists. split; [reflexivity|].
      apply write_csv_writes.
    + exists w. split; [reflexivity | now rewrite app_nil_r].
  - exists w. split; [reflexivity | now rewrite app_nil_r].
Qed.

(** One pass of the loop on a row that has a URL: the fetch's record or
    its error row is appended, then the checkpoint test runs. *)
Lemma process_row_step (cols : list str) (out_csv : option str)
      (checkpoint_every i : Z) (r : list pyval) (rows : list dict)
      (w : world) :
  truthy (row_url cols r) = true ->
  exists rec w1,
    ((exists d, fetch_detail cfg (row_url cols r) w = (Ok d, w1)
                /\ rec = d)
     \/ (exists e, fetch_detail cfg (row_url cols r) w = (Raise e, w1)
                   /\ rec = error_row (row_url cols r) e))
    /\ csv_writes (trace w1) = csv_writes (trace w)
    /\ process_row cfg cols out_csv checkpoint_every (i, r) rows w
       = (checkpoint out_csv checkpoint_every i (rows ++ [rec]) ;;
          ret (rows ++ [rec])) w1.
Proof.
  intros Hu. unfold process_row. cbn [fst snd]. rewrite Hu. cbn [negb].
  destruct (tame_fetch_detail cfg (row_url cols r) w) as (Hd & Hw).
  unfold bind at 1. unfold catch_exception.
  destruct (fetch_detail cfg (row_url cols r) w) as [[d | e |] w1];
    cbn [fst snd] in *.
  - exists d, w1. split; [left; now exists d|]. now split.
  - exists (error_row (row_url cols r) e), w1.
    split; [right; now exists e|]. now split.
  - congruence.
Qed.


Variable cols : list str.
Variable out_csv : option str.
Variable checkpoint_every : Z.
Hypothesis no_zero_division :
  truthy_path out_csv = None \/ checkpoint_every <> 0.

Lemma checkpoints_due_cons (acc : list dict) (rec : dict)
      (recs : list dict) (i : Z) (idx : list Z) :
  checkpoints_due out_csv checkpoint_every (acc ++ rec :: recs)
    (length acc) (i :: idx)
  = match truthy_path out_csv with
    | Some p =>
        if (i + 1) mod checkpoint_every =? 0
        then [(p, DetailsCsv (pd_DataFrame (acc ++ [rec])))] else []
    | None => []
    end
    ++ checkpoints_due out_csv checkpoint_every (acc ++ rec :: recs)
         (S (length acc)) idx.
Proof.
  unfold checkpoints_due.
  destruct (truthy_path out_csv) as [p|]; [|reflexivity].
  cbn [checkpoints_by_label].
  replace (firstn (S (length acc)) (acc ++ rec :: recs))
    with (acc ++ [rec]); [reflexivity|].
  replace (acc ++ rec :: recs) with ((acc ++ [rec]) ++ recs)
    by (now rewrite <- app_assoc).
  rewrite firstn_app.
  replace (S (length acc) - length (acc ++ [rec]))%nat with O
    by (rewrite length_app; cbn [length]; lia).
  rewrite firstn_all2 by (rewrite length_app; cbn [length]; lia).
  cbn. now rewrite app_nil_r.
Qed.

Lemma checkpoints_due_nil (rows : list dict) (pos : nat) :
  checkpoints_due out_csv checkpoint_every rows pos [] = [].
Proof. unfold checkpoints_due. now destruct (truthy_path out_csv). Qed.

Lemma timeline_ext (g g' : nat -> list (str * csv))
      (rows : list (list pyval)) :
  forall (recs : list dict) (steps : list (world * world)) (j : nat),
    (forall k, (j <= k < j + length rows)%nat -> g k = g' k) ->
    timeline cfg cols g j rows recs steps ->
    timeline cfg cols g' j rows recs steps.
Proof.
  induction rows as [|r rows IH]; intros [|rec recs] [|s steps] j Hg H;
    cbn [timeline] in *; try exact H.
  destruct H as (Hf & H1 & H2 & H).
  rewrite <- (Hg j) by (cbn [length]; lia).
  split; [exact Hf|]. split; [exact H1|]. split; [exact H2|].
  apply (IH recs steps (S j)); [|exact H].
  intros k Hk. apply Hg. cbn [length]. lia.
Qed.

(** The loop over rows that all have a URL text, with integer labels. *)
Lemma scrape_loop (rest : list (list pyval)) :
  forall (idx : list Z) (acc : list dict) (w : world),
    length idx = length rest ->
    Forall (fun r => truthy (row_url cols r) = true) rest ->
    exists recs w' steps,
      for_each (combine idx rest)
               (process_row cfg cols out_csv checkpoint_every) acc w
      = (Ok (acc ++ recs), w')
      /\ Forall2 (row_outcome cfg cols) rest recs
      /\ csv_writes (trace w')
         = csv_writes (trace w)
           ++ checkpoints_due out_csv checkpoint_every (acc ++ recs)
                (length acc) idx
      /\ timeline cfg cols
           (fun j => csv_writes (trace w)
                     ++ checkpoints_due out_csv checkpoint_every
                          (acc ++ recs) (length acc)
                          (firstn (j - length acc) idx))
           (length acc) rest recs steps.
Proof.
  induction rest as [|r rest IH]; intros [|i idx] acc w Hlen Hall;
    cbn [length] in Hlen; try discriminate.
  - exists [], w, []. cbn [combine for_each timeline].
    rewrite app_nil_r, checkpoints_due_nil, app_nil_r.
    repeat split. constructor.
  - inversion Hall as [|? ? Hr Hrest]; subst.
    cbn [combine for_each].
    destruct (process_row_step cols out_csv checkpoint_every
                i r acc w Hr)
      as (rec & w1 & Hrec & Hw1 & Hstep).
    destruct (checkpoint_run out_csv checkpoint_every
                i (acc ++ [rec]) w1
                no_zero_division) as (w2 & Hcp & Hw2).
    assert (Hbody : process_row cfg cols out_csv checkpoint_every
                      (i, r) acc w
                    = (Ok (acc ++ [rec]), w2)).
    { rewrite Hstep. unfold bind. now rewrite Hcp. }
    assert (Hl : length (acc ++ [rec]) = S (length acc))
      by (rewrite length_app; cbn [length]; lia).
    destruct (IH idx (acc ++ [rec]) w2) as
        (recs & w' & steps & Hloop & Hall2 & Hw' & Htl);
      [lia | exact Hrest |].
    rewrite Hl in Hw', Htl.
    exists (rec :: recs), w', ((w, w1) :: steps).
    rewrite (bind_Ok _ _ _ _ _ Hbody), Hloop.
    rewrite <- app_assoc in *. cbn [app] in *.
    split; [reflexivity|]. split; [|split].
    + constructor; [|exact Hall2].
      exists w. destruct Hrec as [(d & Hd & ->) | (e & He & ->)];
        [left; now exists d, w1 | right; now exists e, w1].
    + rewrite Hw', Hw2, Hw1, <- app_assoc. f_equal.
      now rewrite checkpoints_due_cons.
    + cbn [timeline fst snd]. split; [exact Hrec|].
      assert (E0 : csv_writes (trace w)
                   ++ checkpoints_due out_csv checkpoint_every
                        (acc ++ rec :: recs) (length acc)
                        (firstn (length acc - length acc) (i :: idx))
                   = csv_writes (trace w)).
      { rewrite Nat.sub_diag. cbn [firstn].
        now rewrite checkpoints_due_nil, app_nil_r. }
      split; [now rewrite E0|]. split; [now rewrite E0, Hw1|].
      eapply timeline_ext; [|exact Htl].
      intros k Hk. cbv beta.
      replace (k - length acc)%nat with (S (k - S (length acc)))
        by lia.
      cbn [firstn].
      rewrite checkpoints_due_cons, Hw2, Hw1, <- app_assoc.
      reflexivity.
Qed.



(** The loop over any rows: those without a URL text are passed over,
    every other one gives one record; nothing aborts the loop. *)
Lemma scrape_loop_any (rest : list (list pyval)) :
  forall (i0 : nat) (acc : list dict) (w : world),
    exists recs w',
      for_each (combine (map Z.of_nat (seq i0 (length rest))) rest)
               (process_row cfg cols out_csv checkpoint_every) acc w
      = (Ok (acc ++ recs), w')
      /\ Forall2 (row_outcome cfg cols)
           (filter (fun r => truthy (row_url cols r)) rest) recs.
Proof.
  induction rest as [|r rest IH]; intros i0 acc w.
  - exists [], w. cbn. rewrite app_nil_r. split; constructor.
  - cbn [length seq map combine for_each filter].
    destruct (truthy (row_url cols r)) eqn:Hr.
    + destruct (process_row_step cols out_csv checkpoint_every
                  (Z.of_nat i0) r acc w Hr)
        as (rec & w1 & Hrec & Hw1 & Hstep).
      destruct (checkpoint_run out_csv checkpoint_every
                  (Z.of_nat i0) (acc ++ [rec]) w1
                  no_zero_division) as (w2 & Hcp & Hw2).
      assert (Hbody : process_row cfg cols out_csv checkpoint_every
                        (Z.of_nat i0, r) acc w
                      = (Ok (acc ++ [rec]), w2)).
      { rewrite Hstep. unfold bind. now rewrite Hcp. }
      destruct (IH (S i0) (acc ++ [rec]) w2) as (recs & w' & Hloop & H2).
      exists (rec :: recs), w'.
      rewrite (bind_Ok _ _ _ _ _ Hbody), Hloop, <- app_assoc.
      split; [reflexivity|]. constructor; [|exact H2].
      exists w. destruct Hrec as [(d & Hd & ->) | (e & He & ->)];
        [left; now exists d, w1 | right; now exists e, w1].
    + destruct (IH (S i0) acc w) as (recs & w' & Hloop & H2).
      exists recs, w'. split; [|exact H2].
      assert (Hbody : process_row cfg cols out_csv checkpoint_every
                        (Z.of_nat i0, r) acc w = (Ok acc, w)).
      { unfold process_row. cbn [snd]. now rewrite Hr. }
      now rewrite (bind_Ok _ _ _ _ _ Hbody).
Qed.


Lemma Forall2_nth_error {X Y} (R : X -> Y -> Prop) (l : list X)
      (l' : list Y) (i : nat) (x : X) :
  Forall2 R l l' -> nth_error l i = Some x ->
  exists y, nth_error l' i = Some y /\ R x y.
Proof.
  intros H. revert i. induction H as [|a b l l' Hab H IH]; intros i Hi.
  - destruct i; discriminate.
  - destruct i as [|i]; cbn in *.
    + injection Hi as ->. now exists b.
    + now apply IH.
Qed.

Lemma row_outcome_URL (r : list pyval) (rec : dict) :
  row_outcome cfg cols r rec ->
  dict_get rec (py "URL") = Some (VStr (row_url cols r)).
Proof.
  intros (w & [(d & w' & Hd & ->) | (e & w' & He & ->)]).
  - now apply fetch_detail_Ok in Hd.
  - reflexivity.
Qed.

(** Row [i] of the result frame carries the URL of input row [i]. *)
Lemma result_frame_URL (input : list (list pyval)) (rows : list dict)
      (i : nat) (r : list pyval) :
  Forall2 (row_outcome cfg cols) input rows ->
  nth_error input i = Some r ->
  frame_cell (pd_DataFrame rows) i (py "URL")
  = Some (VStr (row_url cols r)).
Proof.
  intros H2 Hi.
  destruct (Forall2_nth_error _ _ _ _ _ H2 Hi) as (rec & Hrec & Hout).
  apply row_outcome_URL in Hout.
  rewrite (DataFrame_cell rows i rec); [now rewrite Hout | exact Hrec |].
  eapply DataFrame_columns; [|exact Hout].
  eapply nth_error_In. exact Hrec.
Qed.

End BatchFacts.

Section StrictBatch.

Variable cfg : BrowserConfig.
Variable cols : list str.
Variable out_csv : option str.
Variable checkpoint_every : Z.

(** The loop on a frame with its labels and the loop on its cells,
    numbered by position, are the same when the labels are the positions,
    and also when there is no output path, as the labels are then not
    looked at. *)
Lemma strict_checkpoint (l : label) (i : Z) (rows : list dict) :
  truthy_path out_csv = None \/ l = LInt i ->
  checkpoint_labelled out_csv checkpoint_every l rows
  = checkpoint out_csv checkpoint_every i rows.
Proof.
  unfold checkpoint_labelled, checkpoint, checkpoint_due.
  intros [H | ->].
  - now rewrite H.
  - destruct (truthy_path out_csv); [|reflexivity].
    destruct (checkpoint_every =? 0); [reflexivity|].
    destruct (_ =? 0); reflexivity.
Qed.

Lemma strict_process_row (l : label) (i : Z) (r : list pyval)
      (rows : list dict) (w : world) :
  truthy_path out_csv = None \/ l = LInt i ->
  process_row_labelled cfg cols out_csv checkpoint_every (l, r) rows w
  = process_row cfg cols out_csv checkpoint_every (i, r) rows w.
Proof.
  intros H. unfold process_row_labelled, process_row. cbn [fst snd].
  destruct (negb (truthy (row_url cols r))); [reflexivity|].
  unfold bind.
  destruct (catch_exception (fetch_detail cfg (row_url cols r)) w)
    as [[res | e |] w1]; try reflexivity.
  now rewrite (strict_checkpoint l i _ H).
Qed.

Lemma strict_loop (rows : list (label * list pyval)) :
  forall (idx : list Z) (acc : list dict) (w : world),
    (truthy_path out_csv = None /\ length idx = length rows)
    \/ map fst rows = map LInt idx ->
    for_each rows (process_row_labelled cfg cols out_csv checkpoint_every)
             acc w
    = for_each (combine idx (map snd rows))
               (process_row cfg cols out_csv checkpoint_every) acc w.
Proof.
  induction rows as [|[l r] rows IH]; intros idx acc w H.
  - destruct idx; reflexivity.
  - destruct idx as [|i idx].
    + destruct H as [(_ & H) | H]; discriminate.
    + cbn [map combine for_each fst snd]. unfold bind.
      rewrite (strict_process_row l i).
      * destruct (process_row cfg cols out_csv checkpoint_every
                    (i, r) acc w) as [[acc' | e |] w1];
          try reflexivity.
        apply IH. destruct H as [(H & Hl) | H].
        -- left. split; [exact H|]. cbn [length] in Hl. lia.
        -- right. cbn [map] in H. now injection H.
      * destruct H as [(H & _) | H]; [now left | right].
        cbn [map fst] in H. now injection H.
Qed.

End StrictBatch.

Section BatchRun.

Variable cfg : BrowserConfig.

(** A whole run on a frame whose URL column is a column of text, with
    integer labels or without output path. *)
Lemma strict_run (df_links : read_frame) (out_csv : option str)
      (checkpoint_every : Z) (w : world) (idx : list Z) :
  url_column_of_text (cells df_links) ->
  (truthy_path out_csv = None
   /\ length idx = length (read_rows df_links))
  \/ (checkpoint_every <> 0 /\ integer_labels df_links idx) ->
  exists rows w' steps,
    scrape_details_from_csv_labelled cfg df_links out_csv checkpoint_every w
    = (Ok (pd_DataFrame rows), w')
    /\ length rows = length (read_rows df_links)
    /\ Forall2 (row_outcome cfg (read_columns df_links))
         (map snd (read_rows df_links)) rows
    /\ timeline cfg (read_columns df_links)
         (fun j => csv_writes (trace w)
                   ++ checkpoints_due out_csv checkpoint_every rows 0
                        (firstn j idx))
         0 (map snd (read_rows df_links)) rows steps
    /\ csv_writes (trace w')
       = csv_writes (trace w)
         ++ checkpoints_due out_csv checkpoint_every rows 0 idx
         ++ match truthy_path out_csv with
            | Some p => [(p, DetailsCsv (pd_DataFrame rows))]
            | None => []
            end.
Proof.
  intros Hc Hz.
  assert (Hli : length idx = length (read_rows df_links)).
  { destruct Hz as [(_ & H) | (_ & H)]; [exact H|].
    apply (f_equal (@length _)) in H. unfold labels in H.
    rewrite !length_map in H. now symmetry. }
  assert (Hz' : truthy_path out_csv = None \/ checkpoint_every <> 0)
    by tauto.
  destruct (scrape_loop cfg (read_columns df_links) out_csv
              checkpoint_every Hz' (map snd (read_rows df_links))
              idx [] w)
    as (rows & w1 & steps & Hloop & H2 & Hw & Htl).
  { now rewrite length_map. }
  { unfold url_column_of_text in Hc. rewrite Forall_forall in Hc.
    apply Forall_forall. intros r Hin.
    destruct (Hc r Hin) as (v & Hv & Ht).
    now apply (row_url_text _ _ v). }
  cbn [app length] in Hloop, Hw, Htl.
  assert (Hlen : length rows = length (read_rows df_links)).
  { rewrite <- (Forall2_length H2). apply length_map. }
  assert (Htl' : timeline cfg (read_columns df_links)
                   (fun j => csv_writes (trace w)
                             ++ checkpoints_due out_csv checkpoint_every
                                  rows 0 (firstn j idx))
                   0 (map snd (read_rows df_links)) rows steps).
  { eapply timeline_ext; [|exact Htl].
    intros k _. cbv beta. now rewrite Nat.sub_0_r. }
  assert (Hstrict : for_each (read_rows df_links)
                      (process_row_labelled cfg
                         (read_columns df_links) out_csv
                         checkpoint_every) [] w
                    = (Ok rows, w1)).
  { rewrite (strict_loop cfg _ out_csv checkpoint_every _ idx);
      [exact Hloop|].
    destruct Hz as [(H & _) | (_ & H)]; [left; now split | right].
    exact H. }
  unfold scrape_details_from_csv_labelled, scrape_rows_labelled,
    iterrows_labelled.
  rewrite (bind_Ok _ _ _ _ _ Hstrict).
  destruct (truthy_path out_csv) as [p|] eqn:Ep.
  - unfold bind. rewrite write_csv_run. cbn [ret].
    eexists rows, _, steps. split; [reflexivity|].
    split; [exact Hlen|]. split; [exact H2|]. split; [exact Htl'|].
    rewrite write_csv_writes, Hw, <- app_assoc. reflexivity.
  - exists rows, w1, steps. split; [reflexivity|].
    split; [exact Hlen|]. split; [exact H2|]. split; [exact Htl'|].
    rewrite Hw, app_nil_r. reflexivity.
Qed.

Lemma RangeIndex_integer (n : nat) :
  RangeIndex n = map LInt (map Z.of_nat (seq 0 n)).
Proof. unfold RangeIndex. now rewrite map_map. Qed.

(** The run on a frame with its labels is the run on its cells,
    numbered by position, when the labels are the positions, or there is
    no output path. *)
Lemma strict_scrape (df_links : read_frame)
      (out_csv : option str) (checkpoint_every : Z) (w : world) :
  truthy_path out_csv = None \/ default_index df_links ->
  scrape_details_from_csv_labelled cfg df_links out_csv checkpoint_every w
  = scrape_details_from_csv cfg (cells df_links) out_csv
      checkpoint_every w.
Proof.
  intros H.
  unfold scrape_details_from_csv_labelled, scrape_details_from_csv,
    scrape_rows_labelled, scrape_rows, iterrows_labelled, iterrows.
  cbn [cells data columns]. unfold bind.
  rewrite (strict_loop cfg (read_columns df_links) out_csv
             checkpoint_every (read_rows df_links)
             (map Z.of_nat
                (seq 0 (length (map snd (read_rows df_links)))))
             [] w);
    [reflexivity|].
  destruct H as [H | H]; [left | right].
  - split; [exact H|]. now rewrite !length_map, length_seq.
  - unfold default_index, labels in H.
    rewrite length_map. now rewrite H, RangeIndex_integer.
Qed.




Lemma row_url_without_column (cols : list str) (r : list pyval) :
  ~ In (py "URL") cols -> ~ In (py "url") cols -> row_url cols r = [].
Proof.
  intros H1 H2. unfold row_url.
  now rewrite (row_get_not_In _ r _ H1), (row_get_not_In _ r _ H2).
Qed.

(** The loop over rows that have no URL text does nothing. *)
Lemma scrape_loop_skips (cols : list str) (out_csv : option str)
      (checkpoint_every : Z) (rest : list (list pyval)) :
  forall (i0 : nat) (acc : list dict) (w : world),
    Forall (fun r => truthy (row_url cols r) = false) rest ->
    for_each (combine (map Z.of_nat (seq i0 (length rest))) rest)
             (process_row cfg cols out_csv checkpoint_every) acc w
    = (Ok acc, w).
Proof.
  induction rest as [|r rest IH]; intros i0 acc w Hall; [reflexivity|].
  inversion Hall as [|? ? Hr Hrest]; subst.
  cbn [length seq map combine for_each].
  assert (Hbody : process_row cfg cols out_csv checkpoint_every
                    (Z.of_nat i0, r) acc w = (Ok acc, w)).
  { unfold process_row. cbn [snd]. now rewrite Hr. }
  rewrite (bind_Ok _ _ _ _ _ Hbody). now apply IH.
Qed.


End BatchRun.

(** C2 as stated fails: a links frame that has neither a [URL] nor a
    [url] column gives every row the empty URL text, and the loop passes
    over such rows; one input row, no output row. *)
Lemma batch_drops_rows_without_url_column :
  length (data (links_frame "link" 1)) = 1%nat
  /\ fst (scrape_details_from_csv default_config (links_frame "link" 1)
            None 100 (scripted_world (fun _ => false)))
     = Ok (pd_DataFrame [])
  /\ length (data (pd_DataFrame [])) = 0%nat.
Proof. repeat split; vm_compute; reflexivity. Qed.

(** C2, amended. Take a links frame as [pd.read_csv] returns it, rows
    with their labels, whose [URL] column (or, failing that, [url]
    column) is a column of text; and either no output path, or a non-zero
    checkpoint interval and integer labels (those of a CSV none of whose
    data lines is longer than its header are 0, 1, 2, ...). Then the
    batch runner returns a frame with exactly one row per input row, in
    input order: row i is the record fetched for the URL of input row i,
    or the error row of that URL when the fetch raised. Without output
    path, and with the labels 0, 1, 2, ..., the run is the run on the
    cells numbered by position. *)
Theorem batch_one_row_per_input
    (cfg : BrowserConfig) (df_links : read_frame)
    (out_csv : option str) (checkpoint_every : Z) (w : world) :
  url_column_of_text (cells df_links) ->
  truthy_path out_csv = None
  \/ (checkpoint_every <> 0 /\ exists idx, integer_labels df_links idx) ->
  exists rows w',
    scrape_details_from_csv_labelled cfg df_links out_csv checkpoint_every w
    = (Ok (pd_DataFrame rows), w')
    /\ length rows = length (read_rows df_links)
    /\ length (data (pd_DataFrame rows))
       = length (read_rows df_links)
    /\ Forall2 (row_outcome cfg (read_columns df_links))
         (map snd (read_rows df_links)) rows
    /\ (forall i l r,
           nth_error (read_rows df_links) i = Some (l, r) ->
           frame_cell (pd_DataFrame rows) i (py "URL")
           = Some (VStr (row_url (read_columns df_links) r)))
    /\ (truthy_path out_csv = None \/ default_index df_links ->
        scrape_details_from_csv cfg (cells df_links) out_csv
          checkpoint_every w
        = (Ok (pd_DataFrame rows), w')).
Proof.
  intros Hc Hz.
  assert (Hidx : exists idx,
             (truthy_path out_csv = None
              /\ length idx = length (read_rows df_links))
             \/ (checkpoint_every <> 0 /\ integer_labels df_links idx)).
  { destruct Hz as [Hz | (Hz & idx & Hi)].
    - exists (repeat 0 (length (read_rows df_links))).
      left. split; [exact Hz | apply repeat_length].
    - exists idx. now right. }
  destruct Hidx as (idx & Hidx).
  destruct (strict_run cfg df_links out_csv checkpoint_every w idx Hc Hidx)
    as (rows & w' & steps & Hrun & Hlen & H2 & _).
  exists rows, w'. split; [exact Hrun|]. split; [exact Hlen|].
  split; [now rewrite DataFrame_length|]. split; [exact H2|]. split.
  - intros i l r Hi. eapply result_frame_URL; [exact H2|].
    rewrite nth_error_map, Hi. reflexivity.
  - intros Hd. now rewrite <- (strict_scrape cfg df_links out_csv
                                 checkpoint_every w Hd).
Qed.

Lemma batch_one_row_per_input_witness :
  exists rows w',
    scrape_details_from_csv_labelled default_config
      (with_RangeIndex (links_frame "URL" 3))
      (Some (py "out/wine_info.csv")) 100 offline_world
    = (Ok (pd_DataFrame rows), w')
    /\ length rows = 3%nat.
Proof.
  destruct (batch_one_row_per_input default_config
              (with_RangeIndex (links_frame "URL" 3))
              (Some (py "out/wine_info.csv")) 100 offline_world)
    as (rows & w' & H & Hlen & _).
  - unfold url_column_of_text. simpl.
    repeat constructor;
      (exists (VStr (py "https://www.wineenthusiast.com/r/1"));
       split; [reflexivity|]; right; eexists; split;
       [reflexivity | discriminate]).
  - right. split; [lia|]. exists [0; 1; 2]. reflexivity.
  - exists rows, w'. split; [exact H | exact Hlen].
Defined.

(** With an output path, a label that is not an integer makes the
    checkpoint test raise, outside the [try]: on [text_labelled_links]
    the run aborts after the first fetch, and nothing is written. *)
Lemma text_label_aborts :
  fst (scrape_details_from_csv_labelled default_config text_labelled_links
         (Some (py "out/wine_info.csv")) 100 offline_world)
  = Raise (TypeError (py "can only concatenate str (not "
                        ++ [34%N] ++ py "int" ++ [34%N] ++ py ") to str"))
  /\ csv_writes
       (trace (snd (scrape_details_from_csv_labelled default_config
                      text_labelled_links (Some (py "out/wine_info.csv"))
                      100 offline_world)))
     = []
  /\ gotos
       (trace (snd (scrape_details_from_csv_labelled default_config
                      text_labelled_links (Some (py "out/wine_info.csv"))
                      100 offline_world)))
     = [py "https://www.wineenthusiast.com/r/1"].
Proof. repeat split; vm_compute; reflexivity. Qed.

(** C3. In the loop of the batch runner, for a row with a URL: when the
    fetch raises an exception the loop body goes on, as it does after a
    fetch that returns, to the checkpoint test, with the row's record
    appended; that record is the error row of two fields, the URL and
    the text of the exception, and has none of the other detail fields
    (in the result frame its other cells are NaN); when the fetch returns
    a record, that record is appended as it is. No fetch outcome aborts
    the batch. *)
Theorem batch_failure_containment :
  (forall cfg cols out_csv checkpoint_every i r rows w e w1,
      truthy (row_url cols r) = true ->
      fetch_detail cfg (row_url cols r) w = (Raise e, w1) ->
      process_row cfg cols out_csv checkpoint_every (i, r) rows w
      = (checkpoint out_csv checkpoint_every i
           (rows ++ [error_row (row_url cols r) e]) ;;
         ret (rows ++ [error_row (row_url cols r) e])) w1)
  /\ (forall cfg cols out_csv checkpoint_every i r rows w d w1,
         truthy (row_url cols r) = true ->
         fetch_detail cfg (row_url cols r) w = (Ok d, w1) ->
         process_row cfg cols out_csv checkpoint_every (i, r) rows w
         = (checkpoint out_csv checkpoint_every i (rows ++ [d]) ;;
            ret (rows ++ [d])) w1)
  /\ (forall url e,
         error_row url e
         = [(py "URL", VStr url); (py "error", VStr (exn_str e))]
         /\ forall k, k <> py "URL" -> k <> py "error" ->
                      dict_get (error_row url e) k = None)
  /\ (forall rows i url e c,
         nth_error rows i = Some (error_row url e) ->
         In c (columns (pd_DataFrame rows)) ->
         c <> py "URL" -> c <> py "error" ->
         frame_cell (pd_DataFrame rows) i c = Some VNaN)
  /\ (forall cfg df_links out_csv checkpoint_every w,
         truthy_path out_csv = None \/ checkpoint_every <> 0 ->
         exists rows w',
           scrape_rows cfg df_links out_csv checkpoint_every w
           = (Ok rows, w')
           /\ Forall2 (row_outcome cfg (columns df_links))
                (filter (fun r => truthy (row_url (columns df_links) r))
                        (data df_links))
                rows).
Proof.
  assert (Hnone : forall url e k,
             k <> py "URL" -> k <> py "error" ->
             dict_get (error_row url e) k = None).
  { intros url e k H1 H2. unfold error_row. cbn [dict_get].
    apply str_eqb_neq in H1, H2. now rewrite H1, H2. }
  split; [|split; [|split; [|split]]].
  - intros cfg cols out_csv cp i r rows w e w1 Hu He.
    destruct (process_row_step cfg cols out_csv cp i r rows w Hu)
      as (rec & w2 & [(d & Hd & ->) | (e' & He' & ->)] & _ & Hstep);
      rewrite Hstep; clear Hstep.
    + rewrite He in Hd. discriminate.
    + rewrite He in He'. injection He' as <- <-. reflexivity.
  - intros cfg cols out_csv cp i r rows w d w1 Hu Hd.
    destruct (process_row_step cfg cols out_csv cp i r rows w Hu)
      as (rec & w2 & [(d' & Hd' & ->) | (e' & He' & ->)] & _ & Hstep);
      rewrite Hstep; clear Hstep.
    + rewrite Hd in Hd'. injection Hd' as <- <-. reflexivity.
    + rewrite Hd in He'. discriminate.
  - intros url e. split; [reflexivity | now apply Hnone].
  - intros rows i url e c Hi Hc H1 H2.
    rewrite (DataFrame_cell rows i _ c Hi Hc).
    now rewrite Hnone.
  - intros cfg df out_csv cp w Hz. unfold scrape_rows, iterrows.
    destruct (scrape_loop_any cfg (columns df) out_csv cp Hz (data df)
                0 [] w) as (rows & w' & Hloop & H2).
    now exists rows, w'.
Qed.

Lemma batch_failure_containment_witness :
  process_row default_config [py "URL"] None 100
    (0, [VStr (py "https://www.wineenthusiast.com/r/1")]) [] offline_world
  = (Ok [error_row (py "https://www.wineenthusiast.com/r/1")
           (PlaywrightError (py "net::ERR_FAILED"))],
     snd (fetch_detail default_config
            (py "https://www.wineenthusiast.com/r/1") offline_world)).
Proof.
  destruct batch_failure_containment as (H & _).
  rewrite (H default_config [py "URL"] None 100 0
             [VStr (py "https://www.wineenthusiast.com/r/1")] []
             offline_world (PlaywrightError (py "net::ERR_FAILED"))
             (snd (fetch_detail default_config
                     (py "https://www.wineenthusiast.com/r/1")
                     offline_world))).
  - reflexivity.
  - reflexivity.
  - vm_compute. reflexivity.
Defined.


(** The checkpoint test looks at the label of the row, not at the number
    of rows processed: on [labelled_links], whose two rows are labelled
    99 and 7, an interval of 100 writes a checkpoint after the first
    row. *)
Lemma checkpoints_follow_labels :
  exists rec1 rec2,
    fst (scrape_details_from_csv_labelled default_config labelled_links
           (Some (py "out/wine_info.csv")) 100 offline_world)
    = Ok (pd_DataFrame [rec1; rec2])
    /\ csv_writes
         (trace (snd (scrape_details_from_csv_labelled default_config
                        labelled_links (Some (py "out/wine_info.csv")) 100
                        offline_world)))
       = [(py "out/wine_info.csv", DetailsCsv (pd_DataFrame [rec1]));
          (py "out/wine_info.csv", DetailsCsv (pd_DataFrame [rec1; rec2]))].
Proof.
  exists (error_row (py "https://www.wineenthusiast.com/r/1")
            (PlaywrightError (py "net::ERR_FAILED"))),
         (error_row (py "https://www.wineenthusiast.com/r/2")
            (PlaywrightError (py "net::ERR_FAILED"))).
  split; vm_compute; reflexivity.
Qed.



(* ===================================================================== *)
(** ** Selector timeouts *)
(* ===================================================================== *)

Section TimeoutFacts.

Lemma teardown_run (cfg : BrowserConfig) (has_browser : bool)
      (w : world) :
  exists w',
    (_save_state cfg ;; close_session has_browser) w = (Ok tt, w').
Proof.
  unfold _save_state, close_session, bind, log, ret.
  destruct (truthy_path (storage_state_path cfg)), has_browser;
    eexists; reflexivity.
Qed.

Lemma wait_for_selector_raises (sel : str) (t : Z) (w : world)
      (e : exn) :
  o_wait w (tick w) sel = Some e ->
  wait_for_selector sel t w = (Raise e, next w).
Proof. unfold wait_for_selector. now intros ->. Qed.

End TimeoutFacts.

(** C8. A selector timeout is handled asymmetrically. In the detail
    extractor, once the session is open, the page loaded and the challenge
    handled, an exception raised by the wait for the title selector is
    raised by [fetch_detail] itself, after the session teardown. In the
    link collector, after the same steps and the scroll, a timeout of the
    wait for the listing anchors makes the page's pass return the rows
    unchanged, and the loop over the pages goes on with the next page. *)
Theorem selector_timeout_asymmetry :
  (forall cfg url w has_browser w0 w1 w2 e,
      _new_context cfg w = (Ok has_browser, w0) ->
      page_goto url w0 = (Ok tt, w1) ->
      _handle_challenge cfg w1 = (Ok tt, w2) ->
      o_wait w2 (tick w2) (py ".review-title") = Some e ->
      exists w',
        fetch_detail cfg url w = (Raise e, w')
        /\ (_save_state cfg ;; close_session has_browser) (next w2)
           = (Ok tt, w'))
  /\ (forall cfg sty yr pg rows w w1 w2 w3 w4 msg,
         page_goto (_build_search_url pg sty yr) w = (Ok tt, w1) ->
         _handle_challenge cfg w1 = (Ok tt, w2) ->
         _human_pause 400000 900000 w2 = (Ok tt, w3) ->
         _incremental_scroll 3 w3 = (Ok tt, w4) ->
         o_wait w4 (tick w4) listing_sel
         = Some (PlaywrightTimeoutError msg) ->
         visit_listing_page cfg sty yr pg rows w = (Ok rows, next w4)
         /\ forall later,
             for_each (pg :: later) (visit_listing_page cfg sty yr) rows w
             = for_each later (visit_listing_page cfg sty yr) rows
                        (next w4)).
Proof.
  split.
  - intros cfg url w hb w0 w1 w2 e Hnc Hgoto Hhc Hwait.
    destruct (teardown_run cfg hb (next w2)) as (w' & Htd).
    exists w'. split; [|exact Htd].
    unfold fetch_detail. rewrite (bind_Ok _ _ _ _ _ Hnc).
    unfold try_finally.
    rewrite (bind_Ok _ _ _ _ _ Hgoto), (bind_Ok _ _ _ _ _ Hhc).
    rewrite (bind_Raise _ _ _ _ _
               (wait_for_selector_raises _ _ _ _ Hwait)).
    now rewrite Htd.
  - intros cfg sty yr pg rows w w1 w2 w3 w4 msg Hgoto Hhc Hpause Hscroll
           Hwait.
    assert (Hvisit : visit_listing_page cfg sty yr pg rows w
                     = (Ok rows, next w4)).
    { unfold visit_listing_page.
      rewrite (bind_Ok _ _ _ _ _ Hgoto), (bind_Ok _ _ _ _ _ Hhc),
        (bind_Ok _ _ _ _ _ Hpause), (bind_Ok _ _ _ _ _ Hscroll).
      unfold bind, catch_timeout.
      now rewrite (wait_for_selector_raises _ _ _ _ Hwait). }
    split; [exact Hvisit|].
    intros later. cbn [for_each]. now rewrite (bind_Ok _ _ _ _ _ Hvisit).
Qed.

Lemma selector_timeout_asymmetry_witness :
  (exists w',
      fetch_detail default_config
        (py "https://www.wineenthusiast.com/r/1") no_results_world
      = (Raise (PlaywrightTimeoutError (py "Timeout 10000ms exceeded.")),
         w'))
  /\ fst (collect_links default_config 2 None None None no_results_world)
     = Ok [].
Proof.
  split.
  - destruct selector_timeout_asymmetry as (H & _).
    destruct (H default_config (py "https://www.wineenthusiast.com/r/1")
                no_results_world false
                (snd (_new_context default_config no_results_world))
                (snd (page_goto (py "https://www.wineenthusiast.com/r/1")
                        (snd (_new_context default_config
                                no_results_world))))
                (snd (_handle_challenge default_config
                        (snd (page_goto
                                (py "https://www.wineenthusiast.com/r/1")
                                (snd (_new_context default_config
                                        no_results_world))))))
                (PlaywrightTimeoutError (py "Timeout 10000ms exceeded.")))
      as (w' & Hf & _).
    + vm_compute. reflexivity.
    + vm_compute. reflexivity.
    + vm_compute. reflexivity.
    + reflexivity.
    + exists w'. exact Hf.
  - vm_compute. reflexivity.
Defined.

(* ===================================================================== *)
(** ** Pacing and sessions *)
(* ===================================================================== *)

Section PacingFacts.

Lemma human_pause_sym (a b : Z) (w : world) :
  _human_pause a b w = _human_pause b a w.
Proof.
  unfold _human_pause.
  destruct (Z.leb_spec a b), (Z.leb_spec b a); try reflexivity; try lia.
  now replace b with a by lia.
Qed.

Lemma pause_length_le (a b : Z) (raw : N) :
  a <= b -> a <= pause_length a b raw <= b.
Proof.
  intros Hab. unfold pause_length.
  destruct (Z.leb_spec (b - a) 0); [lia|].
  pose proof (Z.mod_pos_bound (Z.of_N raw) (b - a)). lia.
Qed.

End PacingFacts.

(** X1. [_human_pause] accepts its bounds in either order: for
    non-negative bounds it never raises and sleeps exactly once, for a
    duration between the smaller and the larger bound, and swapping the
    bounds changes nothing. *)
Theorem human_pause_window (a b : Z) (w : world) :
  0 <= a -> 0 <= b ->
  exists d,
    Z.min a b <= d <= Z.max a b
    /\ _human_pause a b w
       = (Ok tt,
          with_state w (S (S (tick w)))
            (clock w + d + Z.of_N (o_lag w (S (tick w))))
            (trace w ++ [EvSleep d]))
    /\ _human_pause b a w = _human_pause a b w.
Proof.
  intros Ha Hb.
  destruct (Z.le_ge_cases a b) as [Hab | Hab].
  - exists (pause_length a b (o_random w (tick w))).
    pose proof (pause_length_le a b (o_random w (tick w)) Hab).
    split; [lia|]. split; [|apply human_pause_sym].
    apply human_pause_run. lia.
  - exists (pause_length b a (o_random w (tick w))).
    pose proof (pause_length_le b a (o_random w (tick w)) Hab).
    split; [lia|]. split; [|apply human_pause_sym].
    rewrite human_pause_sym. apply human_pause_run. lia.
Qed.

Lemma human_pause_window_witness :
  exists d,
    400000 <= d <= 900000
    /\ fst (_human_pause 900000 400000 counting_world) = Ok tt
    /\ trace (snd (_human_pause 900000 400000 counting_world))
       = [EvSleep d].
Proof.
  destruct (human_pause_window 900000 400000 counting_world)
    as (d & Hd & Hrun & _); [lia | lia |].
  exists d. rewrite Hrun. split; [simpl in Hd; lia|].
  split; reflexivity.
Defined.

Section SessionFacts.

Lemma randint_run (a b : Z) (w : world) :
  a <= b ->
  exists v, a <= v <= b /\ randint a b w = (Ok v, next w).
Proof.
  intros Hab. unfold randint. destruct (Z.ltb_spec b a); [lia|].
  eexists. split; [|reflexivity].
  pose proof (Z.mod_pos_bound (Z.of_N (o_random w (tick w))) (b - a + 1)).
  lia.
Qed.

Lemma randint_empty (a b : Z) (w : world) :
  b < a -> exists msg, randint a b w = (Raise (ValueError msg), w).
Proof.
  intros Hab. unfold randint. destruct (Z.ltb_spec b a); [|lia].
  eexists. reflexivity.
Qed.

Lemma new_context_run (cfg : BrowserConfig) (w : world) :
  valid_viewport cfg ->
  exists width height,
    fst (viewport_min cfg) <= width <= fst (viewport_max cfg)
    /\ snd (viewport_min cfg) <= height <= snd (viewport_max cfg)
    /\ _new_context cfg w
       = (Ok (owns_browser cfg),
          with_state w (S (S (tick w))) (clock w)
            (trace w ++ launch_events cfg width height)).
Proof.
  intros (Hw & Hh).
  destruct (randint_run _ _ w Hw) as (vw & Hvw & Ew).
  destruct (randint_run _ _ (next w) Hh) as (vh & Hvh & Eh).
  exists vw, vh. split; [exact Hvw|]. split; [exact Hvh|].
  unfold _new_context, _viewport.
  unfold bind at 1. unfold bind at 1. rewrite Ew.
  unfold bind at 1. rewrite Eh. cbn [ret fst snd].
  unfold owns_browser, launch_events.
  destruct (truthy_path (user_data_dir cfg)); unfold bind, log, ret, emit,
    next; cbn [with_state tick clock trace]; unfold with_state; cbn;
    now rewrite <- ?app_assoc.
Qed.

Lemma new_context_invalid (cfg : BrowserConfig) (w : world) :
  fst (viewport_max cfg) < fst (viewport_min cfg)
  \/ snd (viewport_max cfg) < snd (viewport_min cfg) ->
  exists msg w',
    _new_context cfg w = (Raise (ValueError msg), w')
    /\ trace w' = trace w /\ clock w' = clock w.
Proof.
  intros Hbad. unfold _new_context, _viewport.
  destruct (Z.ltb_spec (fst (viewport_max cfg)) (fst (viewport_min cfg)))
    as [Hw | Hw].
  - destruct (randint_empty _ _ w Hw) as (msg & E).
    exists msg, w. unfold bind at 1. unfold bind at 1. rewrite E.
    now repeat split.
  - destruct Hbad as [Hbad | Hh]; [lia|].
    destruct (randint_run _ _ w Hw) as (vw & _ & Ew).
    destruct (randint_empty _ _ (next w) Hh) as (msg & E).
    exists msg, (next w). unfold bind at 1. unfold bind at 1. rewrite Ew.
    unfold bind at 1. rewrite E. now repeat split.
Qed.

Lemma close_session_trace (has_browser : bool) (w : world) :
  exists w',
    close_session has_browser w = (Ok tt, w')
    /\ trace w' = trace w ++ close_events has_browser.
Proof.
  unfold close_session, close_events, bind, log, ret.
  destruct has_browser; eexists; (split; [reflexivity|]); cbn;
    now rewrite <- ?app_assoc.
Qed.

Lemma save_state_trace (cfg : BrowserConfig) (w : world) :
  exists w',
    _save_state cfg w = (Ok tt, w')
    /\ trace w' = trace w ++ save_events cfg.
Proof.
  unfold _save_state, save_events, log, ret.
  destruct (truthy_path (storage_state_path cfg)); eexists;
    (split; [reflexivity|]); cbn; now rewrite ?app_nil_r.
Qed.

End SessionFacts.

(** X2. When the viewport bounds of the configuration are the wrong way
    round, [randint] raises ValueError while the session is being set up:
    [fetch_detail] and [collect_links] raise it before any browser is
    launched, nothing is torn down, and the trace and the clock are as
    before. *)
Theorem inverted_viewport_opens_no_session
    (cfg : BrowserConfig) (w : world) :
  fst (viewport_max cfg) < fst (viewport_min cfg)
  \/ snd (viewport_max cfg) < snd (viewport_min cfg) ->
  exists msg w',
    trace w' = trace w /\ clock w' = clock w
    /\ (forall url, fetch_detail cfg url w = (Raise (ValueError msg), w'))
    /\ (forall max_pages styles years out_csv,
           collect_links cfg max_pages styles years out_csv w
           = (Raise (ValueError msg), w')).
Proof.
  intros Hbad.
  destruct (new_context_invalid cfg w Hbad) as (msg & w' & E & Ht & Hc).
  exists msg, w'. split; [exact Ht|]. split; [exact Hc|]. split.
  - intros url. unfold fetch_detail. now rewrite (bind_Raise _ _ _ _ _ E).
  - intros mp st yr out. unfold collect_links.
    now rewrite (bind_Raise _ _ _ _ _ E).
Qed.

Lemma inverted_viewport_opens_no_session_witness :
  exists msg w',
    trace w' = [] /\ clock w' = 0
    /\ (forall url,
           fetch_detail inverted_viewport_config url counting_world
           = (Raise (ValueError msg), w')).
Proof.
  destruct (inverted_viewport_opens_no_session inverted_viewport_config
              counting_world) as (msg & w' & Ht & Hc & Hf & _).
  - left. simpl. lia.
  - exists msg, w'. repeat split; assumption.
Defined.

Section CollectFacts.

Lemma try_finally_Ok {A} (body : M A) (fin : M unit) (w w1 w2 : world)
      (a : A) :
  body w = (Ok a, w1) -> fin w1 = (Ok tt, w2) ->
  try_finally body fin w = (Ok a, w2).
Proof. unfold try_finally. now intros -> ->. Qed.

Lemma try_finally_Raise {A} (body : M A) (fin : M unit) (w w1 w2 : world)
      (e : exn) :
  body w = (Raise e, w1) -> fin w1 = (Ok tt, w2) ->
  try_finally body fin w = (Raise e, w2).
Proof. unfold try_finally. now intros -> ->. Qed.

Lemma tame_incremental_scroll (steps : nat) :
  tame (_incremental_scroll steps).
Proof.
  unfold _incremental_scroll. apply tame_for_each. intros _ _.
  apply tame_bind; [apply tame_randint|]. intros dy.
  apply tame_bind; [now apply tame_log|]. intros _.
  apply tame_human_pause.
Qed.

Lemma tame_visit_listing_page (cfg : BrowserConfig) (sty : option str)
      (yr : option Z) (pg : Z) (rows : list LinkRecord) :
  tame (visit_listing_page cfg sty yr pg rows).
Proof.
  unfold visit_listing_page.
  apply tame_bind; [apply tame_page_goto|]. intros _.
  apply tame_bind; [apply tame_handle_challenge|]. intros _.
  apply tame_bind; [apply tame_human_pause|]. intros _.
  apply tame_bind; [apply tame_incremental_scroll|]. intros _.
  apply tame_bind;
    [apply tame_catch_timeout, tame_wait_for_selector|].
  intros [[]|]; [|apply tame_ret].
  apply tame_bind;
    [apply (tame_of_sum (fun w => o_anchors w (tick w) _))|].
  intros anchors. apply tame_bind; [apply tame_human_pause|].
  intros _. apply tame_ret.
Qed.

Lemma tame_gather_links (cfg : BrowserConfig) (max_pages : Z)
      (styles : option (list str)) (years : option (list Z)) :
  tame (gather_links cfg max_pages styles years).
Proof.
  unfold gather_links. apply tame_for_each. intros sty rows.
  apply tame_for_each. intros yr rows'.
  apply tame_for_each. intros pg rows''.
  apply tame_visit_listing_page.
Qed.

End CollectFacts.

(** X4. How a collection run ends, once its session is open. If the
    page loops finish, the storage state is saved (when a path is
    configured), the session is closed, and only then the deduplicated
    links are written, once, when an output path is given; they are the
    value returned. If a page raises, the session is closed without saving
    the state, the exception is raised, and no file is written: a failed
    run leaves no partial result. A run never writes anything before its
    loops are over. *)
Theorem collect_links_session_end
    (cfg : BrowserConfig) (max_pages : Z) (styles : option (list str))
    (years : option (list Z)) (out_csv : option str)
    (w w0 : world) (has_browser : bool) :
  _new_context cfg w = (Ok has_browser, w0) ->
  exists r w1,
    gather_links cfg max_pages styles years w0 = (r, w1)
    /\ csv_writes (trace w1) = csv_writes (trace w0)
    /\ match r with
       | Ok rows =>
           exists w',
             collect_links cfg max_pages styles years out_csv w
             = (Ok (dedup_links rows), w')
             /\ trace w'
                = trace w1 ++ save_events cfg ++ close_events has_browser
                  ++ match truthy_path out_csv with
                     | Some p =>
                         [EvMkdirParentOf p;
                          EvToCsv p (LinksCsv (dedup_links rows))]
                     | None => []
                     end
       | Raise e =>
           exists w',
             collect_links cfg max_pages styles years out_csv w
             = (Raise e, w')
             /\ trace w' = trace w1 ++ close_events has_browser
       | Diverge => False
       end.
Proof.
  intros Hnc.
  destruct (tame_gather_links cfg max_pages styles years w0) as (Hnd & Hw).
  destruct (gather_links cfg max_pages styles years w0) as [r w1] eqn:Hg.
  cbn [fst snd] in *. exists r, w1. split; [reflexivity|].
  split; [exact Hw|].
  unfold collect_links. rewrite (bind_Ok _ _ _ _ _ Hnc).
  destruct r as [rows | e |]; [| |congruence].
  - destruct (save_state_trace cfg w1) as (w2 & Hs & Hts).
    destruct (close_session_trace has_browser w2) as (w3 & Hc & Htc).
    assert (Hbody : (rows <- gather_links cfg max_pages styles years ;;
                     _save_state cfg ;; ret rows) w0 = (Ok rows, w2)).
    { rewrite (bind_Ok _ _ _ _ _ Hg). unfold bind. now rewrite Hs. }
    rewrite (bind_Ok _ _ _ _ _ (try_finally_Ok _ _ _ _ _ _ Hbody Hc)).
    destruct (truthy_path out_csv) as [p|].
    + unfold bind. rewrite write_csv_run. cbn [ret]. eexists.
      split; [reflexivity|].
      cbn [emit with_state trace]. rewrite Htc, Hts.
      now rewrite <- !app_assoc.
    + exists w3. split; [reflexivity|].
      rewrite Htc, Hts, app_nil_r. now rewrite <- !app_assoc.
  - destruct (close_session_trace has_browser w1) as (w3 & Hc & Htc).
    assert (Hbody : (rows <- gather_links cfg max_pages styles years ;;
                     _save_state cfg ;; ret rows) w0 = (Raise e, w1))
      by (now rewrite (bind_Raise _ _ _ _ _ Hg)).
    rewrite (bind_Raise _ _ _ _ _
               (try_finally_Raise _ _ _ _ _ _ Hbody Hc)).
    now exists w3.
Qed.

Lemma collect_links_session_end_witness :
  exists w',
    collect_links default_config 2 None None (Some (py "out/links.csv"))
                  offline_world
    = (Raise (PlaywrightError (py "net::ERR_FAILED")), w')
    /\ csv_writes (trace w') = [].
Proof.
  destruct (collect_links_session_end default_config 2 None None
              (Some (py "out/links.csv")) offline_world
              (snd (_new_context default_config offline_world)) false)
    as (r & w1 & Hg & Hw & Hr).
  - vm_compute. reflexivity.
  - assert (E : r = Raise (PlaywrightError (py "net::ERR_FAILED")))
      by (apply (f_equal fst) in Hg; vm_compute in Hg; now symmetry).
    subst r. destruct Hr as (w' & Hrun & Htr). exists w'.
    split; [exact Hrun|].
    rewrite Htr, csv_writes_app, Hw. reflexivity.
Defined.

(** X5. The scraper the factory returns, whatever its arguments, works
    on the persistent profile [.we_profile]. Its viewport bounds are the
    defaults, so the draw of the viewport never raises and gives 1200 to
    1600 by 750 to 1000. A session it opens is that profile, created if
    need be and launched with the viewport drawn, and comes with no
    browser handle: closing the session closes the context and no
    browser. Its user agent is never empty, the default standing in for a
    missing or empty one. *)
Theorem factory_scraper_session
    (headless : bool) (storage_state_path user_agent : option str)
    (locale timezone_id : str) (w : world) :
  let cfg := get_wine_enthusiast_scraper headless storage_state_path
               user_agent locale timezone_id in
  Scraper.user_agent cfg <> []
  /\ owns_browser cfg = false
  /\ close_events (owns_browser cfg) = [EvContextClose]
  /\ exists width height,
      _viewport cfg w = (Ok (width, height), next (next w))
      /\ 1200 <= width <= 1600 /\ 750 <= height <= 1000
      /\ launch_events cfg width height
         = [EvMkdir (py ".we_profile");
            EvLaunchPersistent (py ".we_profile") width height]
      /\ exists w',
          _new_context cfg w = (Ok false, w')
          /\ trace w' = trace w ++ launch_events cfg width height.
Proof.
  intros cfg. split; [|split; [reflexivity|split; [reflexivity|]]].
  - subst cfg. cbn [Scraper.user_agent get_wine_enthusiast_scraper].
    destruct user_agent as [[|c ua]|]; cbn; discriminate.
  - exists (1200 + Z.of_N (o_random w (tick w)) mod 401),
           (750 + Z.of_N (o_random w (S (tick w))) mod 251).
    pose proof (Z.mod_pos_bound (Z.of_N (o_random w (tick w))) 401
                  ltac:(lia)).
    pose proof (Z.mod_pos_bound (Z.of_N (o_random w (S (tick w)))) 251
                  ltac:(lia)).
    assert (Ev : _viewport cfg w
                 = (Ok (1200 + Z.of_N (o_random w (tick w)) mod 401,
                        750 + Z.of_N (o_random w (S (tick w))) mod 251),
                    next (next w))) by reflexivity.
    split; [exact Ev|]. split; [lia|]. split; [lia|].
    split; [reflexivity|].
    unfold _new_context. rewrite (bind_Ok _ _ _ _ _ Ev).
    eexists. split; [reflexivity|].
    cbn [fst snd]. unfold launch_events. cbn. now rewrite <- app_assoc.
Qed.

(* ===================================================================== *)
(** ** A collection run in a reliable world *)
(* ===================================================================== *)

Section CalmFacts.






















End CalmFacts.

Section CollectRun.

Variable cfg : BrowserConfig.
Variable max_pages : Z.
Variable styles : option (list str).
Variable years : option (list Z).
Variable out_csv : option str.

(** The end of a run whose loops have finished. *)
Lemma collect_links_after_Ok (w w0 w1 : world) (has_browser : bool)
      (rows : list LinkRecord) :
  _new_context cfg w = (Ok has_browser, w0) ->
  gather_links cfg max_pages styles years w0 = (Ok rows, w1) ->
  exists w',
    collect_links cfg max_pages styles years out_csv w
    = (Ok (dedup_links rows), w')
    /\ oracle_of w' = oracle_of w1
    /\ trace w'
       = trace w1 ++ save_events cfg ++ close_events has_browser
         ++ match truthy_path out_csv with
            | Some p => [EvMkdirParentOf p;
                         EvToCsv p (LinksCsv (dedup_links rows))]
            | None => []
            end.
Proof.
  intros Hnc Hg. unfold collect_links. rewrite (bind_Ok _ _ _ _ _ Hnc).
  assert (Hs : exists w2, _save_state cfg w1 = (Ok tt, w2)
                          /\ oracle_of w2 = oracle_of w1
                          /\ trace w2 = trace w1 ++ save_events cfg).
  { unfold _save_state, save_events, log, ret.
    destruct (truthy_path (storage_state_path cfg)); eexists;
      (split; [reflexivity|]); (split; [reflexivity|]); cbn;
      now rewrite ?app_nil_r. }
  destruct Hs as (w2 & Hs & Hos & Hts).
  assert (Hc : exists w3, close_session has_browser w2 = (Ok tt, w3)
                          /\ oracle_of w3 = oracle_of w2
                          /\ trace w3
                             = trace w2 ++ close_events has_browser).
  { unfold close_session, close_events, bind, log, ret.
    destruct has_browser; eexists; (split; [reflexivity|]);
      (split; [reflexivity|]); cbn; now rewrite <- ?app_assoc. }
  destruct Hc as (w3 & Hc & Hoc & Htc).
  assert (Hbody : (rows <- gather_links cfg max_pages styles years ;;
                   _save_state cfg ;; ret rows) w0 = (Ok rows, w2)).
  { rewrite (bind_Ok _ _ _ _ _ Hg). unfold bind. now rewrite Hs. }
  rewrite (bind_Ok _ _ _ _ _ (try_finally_Ok _ _ _ _ _ _ Hbody Hc)).
  destruct (truthy_path out_csv) as [p|].
  - unfold bind. rewrite write_csv_run. cbn [ret]. eexists.
    split; [reflexivity|].
    split; [transitivity (oracle_of w3); [reflexivity|];
            now rewrite Hoc, Hos|].
    cbn [emit with_state trace]. rewrite Htc, Hts.
    now rewrite <- !app_assoc.
  - exists w3. split; [reflexivity|]. split; [now rewrite Hoc, Hos|].
    rewrite Htc, Hts, app_nil_r. now rewrite <- !app_assoc.
Qed.

Lemma for_each_skip {X S} (xs : list X) (body : X -> S -> M S) :
  (forall x s w, body x s w = (Ok s, w)) ->
  forall s w, for_each xs body s w = (Ok s, w).
Proof.
  intros Hb. induction xs as [|x xs IH]; intros s w; [reflexivity|].
  cbn [for_each]. now rewrite (bind_Ok _ _ _ _ _ (Hb x s w)).
Qed.

Lemma gather_links_no_pages (w : world) :
  max_pages <= 0 ->
  gather_links cfg max_pages styles years w = (Ok [], w).
Proof.
  intros Hmp. unfold gather_links, page_range.
  replace (Z.to_nat max_pages) with O by lia. cbn [seq map].
  apply for_each_skip. intros sty rows w1.
  apply for_each_skip. reflexivity.
Qed.


End CollectRun.



(** X7. With a non-positive [max_pages] a collection run opens its
    session, visits no page, saves the state, closes the session and
    returns the empty link set; with an output path it still writes the
    file, with no rows. *)
Theorem collect_links_no_pages
    (cfg : BrowserConfig) (max_pages : Z) (styles : option (list str))
    (years : option (list Z)) (out_csv : option str) (w : world) :
  max_pages <= 0 -> valid_viewport cfg ->
  exists width height w',
    collect_links cfg max_pages styles years out_csv w = (Ok [], w')
    /\ trace w'
       = trace w ++ launch_events cfg width height ++ save_events cfg
         ++ close_events (owns_browser cfg)
         ++ match truthy_path out_csv with
            | Some p => [EvMkdirParentOf p; EvToCsv p (LinksCsv [])]
            | None => []
            end.
Proof.
  intros Hmp Hvp.
  destruct (new_context_run cfg w Hvp) as (vw & vh & _ & _ & Hnc).
  destruct (collect_links_after_Ok cfg max_pages styles years out_csv
              w _ _ _ [] Hnc
              (gather_links_no_pages cfg max_pages styles years _ Hmp))
    as (w' & Hrun & _ & Htr).
  exists vw, vh, w'. split; [exact Hrun|].
  rewrite Htr. cbn [with_state trace dedup_links].
  now rewrite <- !app_assoc.
Qed.

Lemma collect_links_no_pages_witness :
  exists width height w',
    collect_links default_config 0 None None (Some (py "out/links.csv"))
                  counting_world = (Ok [], w')
    /\ trace w'
       = [EvMkdir (py ".we_profile");
          EvLaunchPersistent (py ".we_profile") width height;
          EvContextClose;
          EvMkdirParentOf (py "out/links.csv");
          EvToCsv (py "out/links.csv") (LinksCsv [])].
Proof.
  destruct (collect_links_no_pages default_config 0 None None
              (Some (py "out/links.csv")) counting_world)
    as (vw & vh & w' & Hrun & Htr).
  - lia.
  - split; simpl; lia.
  - exists vw, vh, w'. split; [exact Hrun | exact Htr].
Defined.

(* ===================================================================== *)
(** ** The batch runner at its edges *)
(* ===================================================================== *)

Section BatchEdges.

Variable cfg : BrowserConfig.
Variable cols : list str.

Lemma checkpoint_no_path (out_csv : option str) (cp i : Z)
      (rows : list dict) (w : world) :
  truthy_path out_csv = None -> checkpoint out_csv cp i rows w = (Ok tt, w).
Proof. unfold checkpoint. now intros ->. Qed.

(** The loop when no output path is configured: it returns, writes
    nothing, and does not look at the interval. *)
Lemma scrape_loop_no_path (out_csv : option str) (cp cp' : Z)
      (rest : list (list pyval)) :
  truthy_path out_csv = None ->
  forall (i0 : nat) (acc : list dict) (w : world),
    exists rows w',
      for_each (combine (map Z.of_nat (seq i0 (length rest))) rest)
               (process_row cfg cols out_csv cp) acc w = (Ok rows, w')
      /\ for_each (combine (map Z.of_nat (seq i0 (length rest))) rest)
                  (process_row cfg cols out_csv cp') acc w = (Ok rows, w')
      /\ csv_writes (trace w') = csv_writes (trace w).
Proof.
  intros Hout. induction rest as [|r rest IH]; intros i0 acc w.
  - now exists acc, w.
  - cbn [length seq map combine for_each].
    assert (Hbody : exists rows1 w1,
               process_row cfg cols out_csv cp (Z.of_nat i0, r) acc w
               = (Ok rows1, w1)
               /\ process_row cfg cols out_csv cp' (Z.of_nat i0, r) acc w
                  = (Ok rows1, w1)
               /\ csv_writes (trace w1) = csv_writes (trace w)).
    { destruct (truthy (row_url cols r)) eqn:Hr.
      - destruct (process_row_step cfg cols out_csv cp (Z.of_nat i0) r
                    acc w Hr) as (rec & w1 & Hrec & Hw1 & Hstep).
        destruct (process_row_step cfg cols out_csv cp' (Z.of_nat i0) r
                    acc w Hr) as (rec' & w1' & Hrec' & _ & Hstep').
        assert (E : rec' = rec /\ w1' = w1).
        { destruct Hrec as [(d & Hd & ->) | (e & He & ->)];
            destruct Hrec' as [(d' & Hd' & ->) | (e' & He' & ->)];
            rewrite Hd' in * || rewrite He' in *;
            try discriminate.
          - now injection Hd as -> ->.
          - now injection He as -> ->. }
        destruct E as (-> & ->).
        exists (acc ++ [rec]), w1. rewrite Hstep, Hstep'. unfold bind.
        rewrite !checkpoint_no_path by exact Hout. now repeat split.
      - exists acc, w. unfold process_row. cbn [snd]. rewrite Hr.
        now repeat split. }
    destruct Hbody as (rows1 & w1 & H1 & H1' & Hw1).
    destruct (IH (S i0) rows1 w1) as (rows & w' & H2 & H2' & Hw2).
    exists rows, w'.
    rewrite (bind_Ok _ _ _ _ _ H1), (bind_Ok _ _ _ _ _ H1').
    split; [exact H2|]. split; [exact H2' | congruence].
Qed.

End BatchEdges.

(** X8. Without an output path ([None] or the empty string) the batch
    runner writes no file at all, neither checkpoints nor a final one,
    and the checkpoint interval has no effect: the run returns the same
    frame in the same final world for every interval, zero included. *)
Theorem batch_without_output_path
    (cfg : BrowserConfig) (df_links : frame) (out_csv : option str)
    (checkpoint_every : Z) (w : world) :
  truthy_path out_csv = None ->
  exists rows w',
    scrape_details_from_csv cfg df_links out_csv checkpoint_every w
    = (Ok (pd_DataFrame rows), w')
    /\ csv_writes (trace w') = csv_writes (trace w)
    /\ forall other,
        scrape_details_from_csv cfg df_links out_csv other w
        = (Ok (pd_DataFrame rows), w').
Proof.
  intros Hout.
  assert (H : forall other,
             exists rows w',
               scrape_rows cfg df_links out_csv checkpoint_every w
               = (Ok rows, w')
               /\ scrape_rows cfg df_links out_csv other w = (Ok rows, w')
               /\ csv_writes (trace w') = csv_writes (trace w))
    by (intros other; apply scrape_loop_no_path; exact Hout).
  destruct (H checkpoint_every) as (rows & w' & Hrun & _ & Hw).
  exists rows, w'. unfold scrape_details_from_csv.
  rewrite (bind_Ok _ _ _ _ _ Hrun), Hout.
  split; [reflexivity|]. split; [exact Hw|].
  intros other. destruct (H other) as (rows' & w'' & Hrun' & Hother & _).
  rewrite Hrun in Hrun'. injection Hrun' as <- <-.
  now rewrite (bind_Ok _ _ _ _ _ Hother).
Qed.

Lemma batch_without_output_path_witness :
  exists rows w',
    scrape_details_from_csv default_config (links_frame "URL" 2)
      (Some []) 0 offline_world = (Ok (pd_DataFrame rows), w')
    /\ csv_writes (trace w') = [].
Proof.
  destruct (batch_without_output_path default_config (links_frame "URL" 2)
              (Some []) 0 offline_world) as (rows & w' & H & Hw & _).
  - reflexivity.
  - exists rows, w'. split; [exact H | exact Hw].
Defined.



(** X10. A row whose [URL] cell is empty in the CSV is not skipped: the
    cell is NaN, its text is [nan], and the row is fetched under that URL
    and yields an output record whose URL field is [nan]. *)
Theorem empty_url_cell_is_fetched
    (cfg : BrowserConfig) (cols : list str) (out_csv : option str)
    (checkpoint_every i : Z) (r : list pyval) (rows : list dict)
    (w : world) :
  row_get cols r (py "URL") = Some VNaN ->
  row_url cols r = py "nan"
  /\ exists rec w1,
      process_row cfg cols out_csv checkpoint_every (i, r) rows w
      = (checkpoint out_csv checkpoint_every i (rows ++ [rec]) ;;
         ret (rows ++ [rec])) w1
      /\ w1 = snd (fetch_detail cfg (py "nan") w)
      /\ dict_get rec (py "URL") = Some (VStr (py "nan")).
Proof.
  intros Hcell.
  assert (Hu : row_url cols r = py "nan")
    by (unfold row_url; now rewrite Hcell).
  split; [exact Hu|].
  destruct (process_row_step cfg cols out_csv checkpoint_every i r rows w)
    as (rec & w1 & Hrec & _ & Hstep); [now rewrite Hu|].
  rewrite Hu in *. exists rec, w1. split; [exact Hstep|].
  destruct Hrec as [(d & Hd & ->) | (e & He & ->)].
  - rewrite Hd. split; [reflexivity|].
    now apply fetch_detail_Ok in Hd.
  - rewrite He. now split.
Qed.

Lemma empty_url_cell_is_fetched_witness :
  row_url [py "Wine Name"; py "URL"] [VStr (py "Some Wine"); VNaN]
  = py "nan".
Proof.
  apply (empty_url_cell_is_fetched default_config
           [py "Wine Name"; py "URL"] None 100 0
           [VStr (py "Some Wine"); VNaN] [] offline_world).
  reflexivity.
Defined.

(* ===================================================================== *)
(** ** Links: deduplication, anchors, search pages *)
(* ===================================================================== *)

Section LinkFacts.

Lemma drop_dups_unique (rows : list LinkRecord) :
  forall seen,
    (forall r, In r rows -> ~ In (link_url r) seen) ->
    NoDup (map link_url rows) ->
    drop_dups seen rows = rows.
Proof.
  induction rows as [|x rows IH]; intros seen Hseen Hnd; [reflexivity|].
  cbn [drop_dups]. cbn [map] in Hnd. inversion Hnd as [|? ? Hx Hrest]; subst.
  rewrite (proj2 (str_in_false _ _) (Hseen x (or_introl eq_refl))).
  f_equal. apply IH; [|exact Hrest].
  intros r Hr [E | Hin].
  - apply Hx. rewrite E. now apply in_map.
  - apply (Hseen r (or_intror Hr) Hin).
Qed.

Lemma anchor_rows_app (anchors : list (option str * option str)) :
  forall rows,
    anchor_rows anchors rows
    = rows ++ flat_map (fun a => match anchor_record a with
                                 | Some r => [r]
                                 | None => []
                                 end) anchors.
Proof.
  unfold anchor_rows.
  induction anchors as [|a anchors IH]; intros rows; cbn [fold_left flat_map].
  - now rewrite app_nil_r.
  - rewrite IH. unfold anchor_record.
    destruct (snd a) as [href|]; [|reflexivity].
    destruct (truthy _ && truthy href); [|reflexivity].
    now rewrite <- app_assoc.
Qed.

Lemma py_inj (a b : string) : py a = py b -> a = b.
Proof.
  unfold py. intros H.
  rewrite <- (string_of_list_ascii_of_string a),
    <- (string_of_list_ascii_of_string b).
  f_equal. revert H.
  generalize (list_ascii_of_string a), (list_ascii_of_string b).
  intros l. induction l as [|x l IH]; intros [|y m] H; try discriminate;
    [reflexivity|].
  cbn [map] in H. injection H as Hxy Hlm. f_equal; [|now apply IH].
  rewrite <- (ascii_N_embedding x), <- (ascii_N_embedding y).
  now rewrite Hxy.
Qed.

Lemma format_int_inj (n m : Z) : format_int n = format_int m -> n = m.
Proof.
  unfold format_int. intros H. apply py_inj in H.
  apply DecimalZ.to_int_inj.
  assert (Hn : forall z, Z.to_int z <> Decimal.Pos Decimal.Nil
                         /\ Z.to_int z <> Decimal.Neg Decimal.Nil).
  { intros [|p|p]; cbn; split; try discriminate;
      intros [= E]; now apply DecimalPos.Unsigned.to_uint_nonnil in E. }
  apply (f_equal NilZero.int_of_string) in H.
  rewrite !NilZero.isi in H by apply Hn. congruence.
Qed.

Lemma NoDup_map_inj {X Y} (f : X -> Y) (l : list X) :
  (forall a b, f a = f b -> a = b) -> NoDup l -> NoDup (map f l).
Proof.
  intros Hf. induction 1 as [|x l Hx _ IH]; cbn; constructor;
    [|exact IH].
  rewrite in_map_iff. intros (y & E & Hy). apply Hf in E. now subst.
Qed.

End LinkFacts.

(** X11. Deduplication by URL changes nothing exactly when the URLs are
    already pairwise different; so it is idempotent: deduplicating an
    already deduplicated link set gives it back. *)
Theorem dedup_links_idempotent :
  (forall rows, NoDup (map link_url rows) <-> dedup_links rows = rows)
  /\ (forall rows, dedup_links (dedup_links rows) = dedup_links rows).
Proof.
  assert (H : forall rows, NoDup (map link_url rows) ->
                           dedup_links rows = rows).
  { intros rows Hnd. rewrite dedup_links_eq. unfold drop_duplicates_URL.
    apply drop_dups_unique; [|exact Hnd]. intros r _ []. }
  split.
  - intros rows. split; [apply H|]. intros <-.
    rewrite dedup_links_eq. apply drop_dups_NoDup.
  - intros rows. apply H. rewrite dedup_links_eq. apply drop_dups_NoDup.
Qed.

(** X12. Reading the anchors of a listing page never drops or reorders
    the rows gathered before; it appends, in page order, one record for
    each anchor whose trimmed text and whose href are both non-empty, and
    nothing for the others. Every record it appends has a non-empty name
    without whitespace at either end, and a non-empty URL. *)
Theorem anchor_rows_appends :
  forall (anchors : list (option str * option str))
         (rows : list LinkRecord),
    anchor_rows anchors rows
    = rows ++ flat_map (fun a => match anchor_record a with
                                 | Some r => [r]
                                 | None => []
                                 end) anchors
    /\ (length rows <= length (anchor_rows anchors rows)
        <= length rows + length anchors)%nat
    /\ (forall a r,
           anchor_record a = Some r ->
           link_name r <> [] /\ link_url r <> []
           /\ snd a = Some (link_url r)
           /\ (forall c t, link_name r = c :: t -> isspace c = false)
           /\ (forall t c, link_name r = t ++ [c] -> isspace c = false)).
Proof.
  intros anchors rows. split; [apply anchor_rows_app|]. split.
  - rewrite anchor_rows_app, length_app.
    assert (length (flat_map (fun a => match anchor_record a with
                                       | Some r => [r]
                                       | None => []
                                       end) anchors) <= length anchors)%nat.
    { induction anchors as [|a l IH]; [apply le_n|].
      cbn [flat_map]. rewrite length_app. cbn [length].
      destruct (anchor_record a); cbn [length]; lia. }
    lia.
  - intros a r Hr. unfold anchor_record in Hr.
    destruct (snd a) as [href|]; [|discriminate].
    destruct (truthy _ && truthy href) eqn:E; [|discriminate].
    injection Hr as <-. cbn [link_name link_url].
    apply andb_true_iff in E. destruct E as (E1 & E2).
    apply truthy_iff in E1, E2.
    destruct (strip_spec (match fst a with Some t => t | None => [] end))
      as (l & r' & _ & _ & _ & Hh & Hl).
    repeat split; assumption.
Qed.

(** X13. For a given style and year, the search URL determines the page
    number: two pages have the same URL only if they are the same page.
    So the pages 1 to [max_pages] of one pass are pairwise different
    URLs. *)
Theorem build_search_url_page_injective :
  (forall (style : option str) (year : option Z) (p q : Z),
      _build_search_url p style year = _build_search_url q style year ->
      p = q)
  /\ (forall (style : option str) (year : option Z) (max_pages : Z),
         NoDup (map (fun pg => _build_search_url pg style year)
                    (page_range max_pages))).
Proof.
  assert (H : forall style year p q,
             _build_search_url p style year
             = _build_search_url q style year -> p = q).
  { intros style year p q E. rewrite !build_search_url_eq in E.
    apply app_inv_head in E. rewrite !app_assoc in E.
    rewrite <- !(app_assoc (format_int _)) in E.
    apply app_inv_tail in E. now apply format_int_inj. }
  split; [exact H|].
  intros style year max_pages. apply NoDup_map_inj; [apply H|].
  unfold page_range. apply NoDup_map_inj; [apply Nat2Z.inj|].
  apply seq_NoDup.
Qed.

(* ===================================================================== *)
(** ** Detail records and the result frame *)
(* ===================================================================== *)

Section RecordFacts.

Lemma strip_stripped (s : str) : stripped_text (strip s).
Proof.
  destruct (strip_spec s) as (l & r & _ & _ & _ & Hh & Hl).
  now split.
Qed.

Lemma trimmed_value (s : str) :
  s <> [] -> stripped_text s -> absent_or_trimmed (VStr s).
Proof. intros Hne (Hh & Hl). right. now exists s. Qed.

Lemma strip_or_none_shape (t : option str) :
  absent_or_trimmed (opt_val (strip_or_none t)).
Proof.
  unfold strip_or_none.
  pose proof (strip_stripped (match t with Some x => x | None => [] end))
    as Hs.
  destruct (strip _) as [|c s]; [now left|].
  apply trimmed_value; [discriminate | exact Hs].
Qed.

Lemma strip_or_none_stripped (t : option str) (v : str) :
  strip_or_none t = Some v -> v <> [] /\ stripped_text v.
Proof.
  unfold strip_or_none.
  pose proof (strip_stripped (match t with Some x => x | None => [] end))
    as Hs.
  destruct (strip _) as [|c s]; [discriminate|].
  intros [= <-]. split; [discriminate | exact Hs].
Qed.

Lemma region_list_shape (elems : list (option str)) (x : str) :
  In x (region_list_of elems) -> absent_or_trimmed (VStr x).
Proof.
  unfold region_list_of. rewrite filter_In, in_map_iff.
  intros ((e & <- & _) & Hx). apply trimmed_value.
  - now apply truthy_iff.
  - apply strip_stripped.
Qed.

Lemma region_from_end_shape (k : nat) (elems : list (option str))
      (v : option str) :
  absent_or_trimmed
    (opt_val (region_from_end (S k) (region_list_of elems) v)).
Proof.
  destruct (region_from_end (S k) (region_list_of elems) v) as [x|] eqn:E;
    [|now left].
  apply region_from_end_spec in E. destruct E as (_ & E & _).
  apply nth_error_In, in_rev in E.
  now apply region_list_shape in E.
Qed.

Lemma region_1_shape (elems : list (option str)) (t : option str) :
  absent_or_trimmed
    (opt_val (region_1_of (region_list_of elems) (strip_or_none t))).
Proof.
  destruct (region_1_of _ _) as [x|] eqn:E; [|now left].
  apply region_1_of_spec in E. destruct E as (E & _).
  apply strip_or_none_stripped in E. destruct E.
  now apply trimmed_value.
Qed.

Lemma country_shape (elems : list (option str)) :
  absent_or_trimmed (opt_val (country_of (region_list_of elems))).
Proof.
  rewrite country_of_last.
  destruct (nth_error _ 0) as [x|] eqn:E; [|now left].
  apply nth_error_In, in_rev in E.
  now apply region_list_shape in E.
Qed.

Lemma strip_label_shape (text : option str) (label : str) :
  absent_or_stripped (opt_val (_strip_label text label)).
Proof.
  unfold _strip_label. destruct text as [t|]; [|now left].
  destruct (negb (truthy t)); [now left|].
  destruct (startswith t label); right; eexists;
    (split; [reflexivity | apply strip_stripped]).
Qed.

Lemma add_keys_NoDup (d : dict) :
  forall cols, NoDup cols -> NoDup (add_keys cols d).
Proof.
  induction d as [|[k v] d IH]; intros cols Hnd; cbn [add_keys];
    [exact Hnd|].
  apply IH. destruct (str_in k cols) eqn:E; [exact Hnd|].
  apply str_in_false in E.
  apply NoDup_app; [exact Hnd | repeat constructor; intros [] |].
  intros x Hx [<- | []]. contradiction.
Qed.

Lemma add_keys_prefix (d : dict) :
  forall cols, exists extra, add_keys cols d = cols ++ extra.
Proof.
  induction d as [|[k v] d IH]; intros cols; cbn [add_keys].
  - exists []. now rewrite app_nil_r.
  - destruct (str_in k cols).
    + apply IH.
    + destruct (IH (cols ++ [k])) as (extra & ->).
      exists (k :: extra). now rewrite <- app_assoc.
Qed.

Lemma add_keys_from (d : dict) :
  forall cols k, In k (add_keys cols d) -> In k cols \/ In k (map fst d).
Proof.
  induction d as [|[k' v] d IH]; intros cols k H; cbn [add_keys] in H;
    [now left|].
  apply IH in H. cbn [map fst]. destruct H as [H | H];
    [|right; now right].
  destruct (str_in k' cols); [now left|].
  apply in_app_or in H. destruct H as [H | [<- | []]];
    [now left | right; now left].
Qed.

Lemma add_keys_known (d : dict) :
  forall cols, incl (map fst d) cols -> add_keys cols d = cols.
Proof.
  induction d as [|[k v] d IH]; intros cols Hin; cbn [add_keys];
    [reflexivity|].
  cbn [map fst] in Hin.
  rewrite (proj2 (str_in_iff k cols) (Hin k (or_introl eq_refl))).
  apply IH. intros x Hx. apply Hin. now right.
Qed.

Lemma add_keys_fresh (d : dict) :
  NoDup (map fst d) -> add_keys [] d = map fst d.
Proof.
  assert (H : forall cols,
             NoDup (cols ++ map fst d) ->
             add_keys cols d = cols ++ map fst d).
  { induction d as [|[k v] d IH]; intros cols Hnd; cbn [add_keys map fst].
    - now rewrite app_nil_r.
    - cbn [map fst] in Hnd.
      replace (str_in k cols) with false.
      + rewrite IH; rewrite <- app_assoc; [reflexivity | exact Hnd].
      + symmetry. apply str_in_false. intros Hk.
        apply NoDup_remove_2 in Hnd. apply Hnd.
        apply in_or_app. now left. }
  apply (H []).
Qed.

End RecordFacts.

(** X14. Every record [fetch_detail] returns has the eleven fields of
    the details schema, in that order, and carries the URL it was asked
    for. Title, regions, country, winery, variety and wine type are each
    absent or a non-empty text without whitespace at either end, never
    an empty string. Score and price are absent or a text without
    whitespace at either end, which is the empty string when the page's
    text is just the label. *)
Theorem fetch_detail_record_shape :
  (forall cfg url w d w',
      fetch_detail cfg url w = (Ok d, w') ->
      exists title r1 r2 r3 ctry score price winery variety wine_type,
        d = [(py "Wine Name", title); (py "Region 1", r1);
             (py "Region 2", r2); (py "Region 3", r3);
             (py "Country", ctry); (py "Score", score);
             (py "Price", price); (py "Winery", winery);
             (py "Variety", variety); (py "Wine Type", wine_type);
             (py "URL", VStr url)]
        /\ Forall absent_or_trimmed
             [title; r1; r2; r3; ctry; winery; variety; wine_type]
        /\ absent_or_stripped score /\ absent_or_stripped price)
  /\ (forall label, label <> [] -> _strip_label (Some label) label = Some []).
Proof.
  split.
  - intros cfg url w d w' H. unfold fetch_detail in H.
    apply bind_Ok_inv in H. destruct H as (hb & w0 & _ & H).
    apply try_finally_Ok_inv in H. destruct H as (w1 & H & _).
    do 3 (apply bind_Ok_inv in H; destruct H as (? & ? & _ & H)).
    apply bind_Ok_inv in H. destruct H as (t & ? & _ & H).
    apply bind_Ok_inv in H. destruct H as (elems & ? & _ & H).
    apply bind_Ok_inv in H. destruct H as (v & ? & _ & H).
    apply bind_Ok_inv in H. destruct H as (sc & ? & _ & H).
    apply bind_Ok_inv in H. destruct H as (pr & ? & _ & H).
    apply bind_Ok_inv in H. destruct H as (wi & ? & _ & H).
    apply bind_Ok_inv in H. destruct H as (va & ? & _ & H).
    apply bind_Ok_inv in H. destruct H as (wt & ? & _ & H).
    injection H as <- _.
    do 10 eexists. split; [reflexivity|]. split; [|split].
    + unfold derive_regions. cbn [region_1 region_2 region_3 country].
      repeat (apply Forall_cons;
              [first [apply strip_or_none_shape
                     | apply region_from_end_shape
                     | apply region_1_shape | apply country_shape]|]).
      apply Forall_nil.
    + apply strip_label_shape.
    + apply strip_label_shape.
  - intros label Hne. unfold _strip_label.
    apply truthy_iff in Hne. rewrite Hne. cbn [negb].
    pose proof (startswith_app label []) as Hs.
    pose proof (replace_first_prefix label []) as Hrep.
    rewrite app_nil_r in Hs, Hrep.
    now rewrite Hs, app_nil_r, Hrep.
Qed.

Lemma fetch_detail_record_shape_witness :
  exists d w',
    fetch_detail default_config (py "https://www.wineenthusiast.com/r/1")
                 counting_world = (Ok d, w')
    /\ map fst d = detail_fields.
Proof.
  destruct fetch_detail_record_shape as (H & _).
  eexists _, _. split; [vm_compute; reflexivity|].
  destruct (H default_config (py "https://www.wineenthusiast.com/r/1")
              counting_world _ _ ltac:(vm_compute; reflexivity))
    as (? & ? & ? & ? & ? & ? & ? & ? & ? & ? & E & _).
  reflexivity.
Defined.

(** X15. The frame built from the accumulated records is rectangular:
    its column labels are pairwise different and every row has one cell
    per column. Its columns come from the eleven detail fields and
    [error]. When every row was fetched it has exactly the eleven
    detail columns in schema order; a failed row adds the column
    [error], and when the first row failed, [URL] and [error] come
    first. *)
Theorem result_frame_schema :
  (forall cfg cols r rec, row_outcome cfg cols r rec -> detail_or_error rec)
  /\ (forall rows : list dict,
         NoDup (columns (pd_DataFrame rows))
         /\ Forall (fun r => length r = length (columns (pd_DataFrame rows)))
                   (data (pd_DataFrame rows)))
  /\ (forall rows : list dict,
         Forall detail_or_error rows ->
         incl (columns (pd_DataFrame rows)) (detail_fields ++ [py "error"]))
  /\ (forall rows : list dict,
         rows <> [] ->
         Forall (fun rec => map fst rec = detail_fields) rows ->
         columns (pd_DataFrame rows) = detail_fields)
  /\ (forall rows url e,
         In (error_row url e) rows ->
         In (py "error") (columns (pd_DataFrame rows)))
  /\ (forall rows url e,
         exists others,
           columns (pd_DataFrame (error_row url e :: rows))
           = py "URL" :: py "error" :: others).
Proof.
  split; [|split; [|split; [|split; [|split]]]].
  - intros cfg cols r rec (w & [(d & w' & Hd & ->) | (e & w' & He & ->)]).
    + left. now apply fetch_detail_Ok in Hd.
    + right. now exists (row_url cols r), e.
  - intros rows. unfold pd_DataFrame. cbn [columns data]. split.
    + assert (H : forall cols, NoDup cols ->
                               NoDup (fold_left add_keys rows cols)).
      { induction rows as [|d rows IH]; intros cols Hnd; [exact Hnd|].
        cbn [fold_left]. now apply IH, add_keys_NoDup. }
      apply H. constructor.
    + apply Forall_forall. intros r Hr. apply in_map_iff in Hr.
      destruct Hr as (d & <- & _). apply length_map.
  - intros rows Hall k Hk. unfold pd_DataFrame in Hk. cbn [columns] in Hk.
    assert (H : forall cols,
               In k (fold_left add_keys rows cols) ->
               In k cols \/ exists d, In d rows /\ In k (map fst d)).
    { clear Hk Hall. induction rows as [|d rows IH]; intros cols Hk;
        [now left|].
      cbn [fold_left] in Hk. apply IH in Hk.
      destruct Hk as [Hk | (d' & Hd' & Hk)].
      - apply add_keys_from in Hk. destruct Hk as [Hk | Hk]; [now left|].
        right. exists d. split; [now left | exact Hk].
      - right. exists d'. split; [now right | exact Hk]. }
    destruct (H [] Hk) as [[] | (d & Hd & Hkd)].
    rewrite Forall_forall in Hall.
    destruct (Hall d Hd) as [E | (url & e & ->)].
    + rewrite E in Hkd. apply in_or_app. now left.
    + cbn in Hkd. destruct Hkd as [<- | [<- | []]].
      * apply in_or_app. left. unfold detail_fields.
        do 10 right. now left.
      * apply in_or_app. right. now left.
  - intros rows Hne Hall. unfold pd_DataFrame. cbn [columns].
    destruct rows as [|d rows]; [congruence|].
    inversion Hall as [|? ? Hd Hrest]; subst. cbn [fold_left].
    rewrite add_keys_fresh
      by (rewrite Hd; repeat constructor; cbn;
          intuition discriminate).
    rewrite Hd. clear Hall Hne Hd.
    induction Hrest as [|d' rows Hd' _ IH]; [reflexivity|].
    cbn [fold_left]. rewrite add_keys_known; [exact IH|].
    rewrite Hd'. apply incl_refl.
  - intros rows url e Hin.
    eapply DataFrame_columns; [exact Hin | reflexivity].
  - intros rows url e. unfold pd_DataFrame. cbn [columns fold_left].
    change (add_keys [] (error_row url e)) with [py "URL"; py "error"].
    assert (H : forall rs cols, exists extra,
                 fold_left add_keys rs cols = cols ++ extra).
    { induction rs as [|d rs IH]; intros cols.
      - exists []. now rewrite app_nil_r.
      - cbn [fold_left]. destruct (add_keys_prefix d cols) as (x & ->).
        destruct (IH (cols ++ x)) as (y & ->).
        exists (x ++ y). now rewrite app_assoc. }
    destruct (H rows [py "URL"; py "error"]) as (extra & ->).
    exists extra. reflexivity.
Qed.

(* ===================================================================== *)
(** ** How long the handler polls, how the page is scrolled *)
(* ===================================================================== *)

Section PollFacts.


Lemma scroll_loop (xs : list nat) :
  forall w : world,
    exists (moves : list (Z * Z)) (w' : world),
      for_each xs
        (fun _ _ =>
           dy <- randint 400 900 ;;
           log (EvWheel dy) ;;
           _human_pause 200000 600000) tt w = (Ok tt, w')
      /\ length moves = length xs
      /\ Forall (fun m => 400 <= fst m <= 900
                          /\ 200000 <= snd m <= 600000) moves
      /\ trace w'
         = trace w ++ flat_map (fun m => scroll_step_events (fst m) (snd m))
                               moves
      /\ clock w + 200000 * Z.of_nat (length xs) <= clock w'.
Proof.
  induction xs as [|x xs IH]; intros w.
  - exists [], w. cbn. rewrite app_nil_r. repeat split; [constructor | lia].
  - cbn [for_each].
    destruct (randint_run 400 900 w ltac:(lia)) as (dy & Hdy & Er).
    set (w1 := emit (EvWheel dy) (next w)).
    pose proof (human_pause_run 200000 600000 w1 ltac:(lia)) as Ep.
    cbv zeta in Ep.
    set (p := pause_length 200000 600000 (o_random w1 (tick w1))) in Ep.
    assert (Hp : 200000 <= p <= 600000)
      by (apply pause_length_le; lia).
    match type of Ep with _ = (_, ?x) => set (w2 := x) in Ep end.
    assert (Hbody : (dy <- randint 400 900 ;;
                     log (EvWheel dy) ;;
                     _human_pause 200000 600000) w = (Ok tt, w2)).
    { rewrite (bind_Ok _ _ _ _ _ Er). unfold bind at 1. unfold log at 1.
      exact Ep. }
    destruct (IH w2) as (moves & w' & Hrun & Hlen & Hall & Htr & Hc).
    exists ((dy, p) :: moves), w'.
    rewrite (bind_Ok _ _ _ _ _ Hbody).
    split; [exact Hrun|]. split; [cbn; now rewrite Hlen|].
    split; [constructor; [now split | exact Hall]|]. split.
    + rewrite Htr. subst w2 w1. cbn [with_state trace emit next flat_map
        scroll_step_events fst snd app].
      now rewrite <- !app_assoc.
    + subst w2 w1. cbn [with_state clock emit next length] in *. lia.
Qed.

End PollFacts.



(** X17. A run of [_incremental_scroll] in which the wheel turns makes
    exactly [steps] wheel moves, each of 400 to 900 pixels and each
    followed by a pause of 0.2 to 0.6 seconds, and nothing else, so it
    takes at least 0.2 seconds per step; the draws and the pauses are
    within what [randint] and [time.sleep] accept. *)
Theorem incremental_scroll_steps (steps : nat) (w : world) :
  exists (moves : list (Z * Z)) (w' : world),
    _incremental_scroll steps w = (Ok tt, w')
    /\ length moves = steps
    /\ Forall (fun m => 400 <= fst m <= 900
                        /\ 200000 <= snd m <= 600000) moves
    /\ trace w'
       = trace w ++ flat_map (fun m => scroll_step_events (fst m) (snd m))
                             moves
    /\ clock w + 200000 * Z.of_nat steps <= clock w'.
Proof.
  unfold _incremental_scroll.
  destruct (scroll_loop (seq 0 steps) w)
    as (moves & w' & Hrun & Hlen & Hall & Htr & Hc).
  rewrite length_seq in Hlen, Hc.
  now exists moves, w'.
Qed.

(** X18. A links frame with neither a [URL] nor a [url] column makes the
    batch runner a no-op: every row is passed over, no page is fetched,
    the checkpoint test is never reached (so even an interval of 0 is
    harmless), and the result is the empty frame, which is still written
    once when an output path is configured. *)
Theorem batch_without_url_column
    (cfg : BrowserConfig) (df_links : frame) (out_csv : option str)
    (checkpoint_every : Z) (w : world) :
  ~ has_url_column df_links ->
  exists w',
    scrape_details_from_csv cfg df_links out_csv checkpoint_every w
    = (Ok (pd_DataFrame []), w')
    /\ columns (pd_DataFrame []) = [] /\ data (pd_DataFrame []) = []
    /\ tick w' = tick w /\ clock w' = clock w
    /\ trace w'
       = trace w ++ match truthy_path out_csv with
                    | Some p => [EvMkdirParentOf p;
                                 EvToCsv p (DetailsCsv (pd_DataFrame []))]
                    | None => []
                    end.
Proof.
  intros Hno.
  assert (Hall : Forall (fun r => truthy (row_url (columns df_links) r)
                                  = false) (data df_links)).
  { apply Forall_forall. intros r _.
    rewrite row_url_without_column; [reflexivity| |];
      intros H; apply Hno; unfold has_url_column; tauto. }
  unfold scrape_details_from_csv, scrape_rows, iterrows.
  rewrite (bind_Ok _ _ _ _ _
             (scrape_loop_skips cfg _ out_csv checkpoint_every _ 0 [] w
                Hall)).
  destruct (truthy_path out_csv) as [p|].
  - unfold bind. rewrite write_csv_run. cbn [ret]. eexists.
    split; [reflexivity|]. repeat split.
    cbn [emit with_state trace]. now rewrite <- app_assoc.
  - exists w. split; [reflexivity|]. repeat split.
    now rewrite app_nil_r.
Qed.

Lemma batch_without_url_column_witness :
  exists w',
    scrape_details_from_csv default_config (links_frame "link" 3)
      (Some (py "out/wine_info.csv")) 0 offline_world
    = (Ok (pd_DataFrame []), w')
    /\ trace w'
       = [EvMkdirParentOf (py "out/wine_info.csv");
          EvToCsv (py "out/wine_info.csv") (DetailsCsv (pd_DataFrame []))].
Proof.
  destruct (batch_without_url_column default_config (links_frame "link" 3)
              (Some (py "out/wine_info.csv")) 0 offline_world)
    as (w' & H & _ & _ & _ & _ & Htr).
  - intros [H | H]; simpl in H; destruct H as [H | []]; discriminate.
  - exists w'. split; [exact H | exact Htr].
Defined.
